(** * A shallow embedding of the document categoriser

    The repository holds three command line stages:
    - [categorize.py]: the classifier/mover ([DocumentCategorizer]),
    - [build_index.py]: the indexer ([extract_frontmatter], [scan_notes]),
    - [generate_moc.py]: the hub generator ([group_notes], [main]).

    The first half of this file translates the Python functions, the
    second half states and proves properties of them.

    Conventions of the embedding.
    - A Python [str] is a [string]; the text functions work on its
      characters ([list ascii]).  A non-ASCII character is carried as
      its UTF-8 bytes, so [len] counts bytes and none of those bytes is
      white space, a brace or a back quote.
    - Values decoded from JSON or YAML are [pyval]s.
    - A Python exception is a [Raise e] result; functions that touch the
      file system or the service thread a state [St] through a small
      state-and-exception monad.
    - [print] calls are not modelled. *)

From Stdlib Require Import ZArith Ascii String Lia Sorted.
From stdpp Require Import gmap strings list fin_maps.

Local Open Scope string_scope.
Local Open Scope list_scope.
Local Open Scope nat_scope.

(** ** Python text primitives *)

Module Py.

Abbreviation chars := (list ascii).

Definition chars_of (s : string) : chars := list_ascii_of_string s.
Definition str_of (l : chars) : string := string_of_list_ascii l.

Definition dq : string := String "034"%char EmptyString.
Definition nl : string := String "010"%char EmptyString.

(** [q s] is [s] between double quotes. *)
Definition q (s : string) : string := dq +:+ s +:+ dq.

(** [str.isspace] on the code points below 128 (also what [\s] matches
    in a [str] pattern): tab, line feed, vertical tab, form feed,
    carriage return, the four separators 28..31 and the space. *)
Definition is_space (c : ascii) : bool :=
  let n := nat_of_ascii c in
  ((9 <=? n) && (n <=? 13)) || ((28 <=? n) && (n <=? 32)).

Fixpoint drop_while (p : ascii -> bool) (l : chars) : chars :=
  match l with
  | [] => []
  | c :: r => if p c then drop_while p r else l
  end.

Fixpoint take_while (p : ascii -> bool) (l : chars) : chars :=
  match l with
  | [] => []
  | c :: r => if p c then c :: take_while p r else []
  end.

Definition lstrip_by (p : ascii -> bool) (l : chars) : chars := drop_while p l.
Definition rstrip_by (p : ascii -> bool) (l : chars) : chars :=
  rev (drop_while p (rev l)).
Definition strip_by (p : ascii -> bool) (l : chars) : chars :=
  rstrip_by p (lstrip_by p l).

(** [s.strip()] *)
Definition strip_chars (l : chars) : chars := strip_by is_space l.
Definition strip (s : string) : string := str_of (strip_chars (chars_of s)).

(** [strip_prefix p l] is [Some r] when [l = p ++ r]. *)
Fixpoint strip_prefix (p l : chars) : option chars :=
  match p, l with
  | [], _ => Some l
  | _ :: _, [] => None
  | a :: p', b :: l' => if Ascii.eqb a b then strip_prefix p' l' else None
  end.

Definition starts_with (p l : chars) : bool :=
  match strip_prefix p l with Some _ => true | None => false end.

(** [s.startswith(p)] *)
Definition startswith (s p : string) : bool :=
  starts_with (chars_of p) (chars_of s).

(** [l.find(sub)] from the head of [l], counted from [i]; [-1] when
    [sub] does not occur. *)
Fixpoint find_from (sub l : chars) (i : Z) : Z :=
  if starts_with sub l then i
  else match l with
       | [] => (-1)%Z
       | _ :: r => find_from sub r (i + 1)
       end.

(** [l.find(sub)] and [l.find(sub, start)] for [start <= len(l)]. *)
Definition find (sub l : chars) : Z := find_from sub l 0.

(** [l.rfind(sub)] for a one-character [sub]: the index of the last
    occurrence, [-1] when there is none. *)
Fixpoint rfind_char_from (c : ascii) (l : chars) (i : Z) (last : Z) : Z :=
  match l with
  | [] => last
  | b :: r => rfind_char_from c r (i + 1) (if Ascii.eqb b c then i else last)
  end.

Definition rfind_char (c : ascii) (l : chars) : Z :=
  rfind_char_from c l 0 (-1).

(** [l[a:b]] for [0 <= a] and [0 <= b]. *)
Definition slice (l : chars) (a b : Z) : chars :=
  take (Z.to_nat b - Z.to_nat a) (drop (Z.to_nat a) l).

(** [sub in l] on strings: [sub] occurs in [l]. *)
Definition contains (sub l : chars) : bool := (0 <=? find sub l)%Z.

(** [s.replace(old, new)] for a non-empty [old]: occurrences are
    replaced from left to right and do not overlap.  [skip] counts the
    characters of a matched occurrence still to be dropped. *)
Fixpoint replace_from (old new : chars) (skip : nat) (l : chars) : chars :=
  match l with
  | [] => []
  | c :: r =>
      match skip with
      | S k => replace_from old new k r
      | O =>
          if starts_with old l
          then new ++ replace_from old new (length old - 1) r
          else c :: replace_from old new 0 r
      end
  end.

Definition replace (s old new : string) : string :=
  str_of (replace_from (chars_of old) (chars_of new) 0 (chars_of s)).

(** [sep.join(parts)] *)
Fixpoint join (sep : string) (parts : list string) : string :=
  match parts with
  | [] => ""
  | [p] => p
  | p :: rest => p +:+ sep +:+ join sep rest
  end.

(** [l.split(sep)] for a one-character [sep]. *)
Fixpoint split_chars (sep : ascii) (cur : chars) (l : chars) : list chars :=
  match l with
  | [] => [rev cur]
  | c :: r =>
      if Ascii.eqb c sep then rev cur :: split_chars sep [] r
      else split_chars sep (c :: cur) r
  end.

Definition split (sep : ascii) (s : string) : list string :=
  map str_of (split_chars sep [] (chars_of s)).


(** [s.endswith(p)] *)
Definition endswith (s p : string) : bool :=
  starts_with (rev (chars_of p)) (rev (chars_of s)).

(** [Path(name).stem]: the name up to its last dot, when that dot is
    neither the first nor the last character. *)
Definition stem (name : string) : string :=
  let l := chars_of name in
  let i := rfind_char "." l in
  if ((0 <? i) && (i <? Z.of_nat (length l) - 1))%Z
  then str_of (slice l 0 i) else name.


(** [sorted(l)] under the order [le]: a stable insertion sort. *)
Fixpoint insert_by {A : Type} (le : A -> A -> bool) (x : A) (l : list A) : list A :=
  match l with
  | [] => [x]
  | y :: r => if le x y then x :: l else y :: insert_by le x r
  end.

Definition sort_by {A : Type} (le : A -> A -> bool) (l : list A) : list A :=
  foldr (insert_by le) [] l.

(** [s.title()] on ASCII letters: a letter is put in upper case when
    it follows a character that is not a letter, in lower case
    otherwise. *)
Definition is_upper (c : ascii) : bool :=
  let n := nat_of_ascii c in (65 <=? n) && (n <=? 90).
Definition is_lower (c : ascii) : bool :=
  let n := nat_of_ascii c in (97 <=? n) && (n <=? 122).
Definition to_upper (c : ascii) : ascii :=
  if is_lower c then ascii_of_nat (nat_of_ascii c - 32) else c.
Definition to_lower (c : ascii) : ascii :=
  if is_upper c then ascii_of_nat (nat_of_ascii c + 32) else c.

Fixpoint title_from (prev_cased : bool) (l : chars) : chars :=
  match l with
  | [] => []
  | c :: r =>
      if is_upper c || is_lower c
      then (if prev_cased then to_lower c else to_upper c) :: title_from true r
      else c :: title_from false r
  end.

Definition title_case (s : string) : string :=
  str_of (title_from false (chars_of s)).

(** Decimal text of a natural number and of an integer ([str(n)]). *)
Definition digit_char (n : nat) : ascii := ascii_of_nat (48 + n).

Fixpoint nat_digits (fuel n : nat) (acc : chars) : chars :=
  match fuel with
  | O => acc
  | S f =>
      let acc' := digit_char (n mod 10) :: acc in
      if n <? 10 then acc' else nat_digits f (n / 10) acc'
  end.

Definition str_of_nat (n : nat) : string := str_of (nat_digits (S n) n []).

Definition str_of_Z (z : Z) : string :=
  match z with
  | Zneg p => "-" +:+ str_of_nat (Pos.to_nat p)
  | _ => str_of_nat (Z.to_nat z)
  end.

End Py.

(** ** Python values, exceptions and the external codecs *)

Module Val.
Import Py.

(** The values [json.loads] and [yaml.safe_load] hand back.  A [dict]
    keeps its keys in insertion order.  [POther] stands for an object of
    any other type (a float, a date): only its [repr] and its truth
    value are kept. *)
#[local] Set Warnings "-register-all".
Inductive pyval : Type :=
  | PNone
  | PBool (b : bool)
  | PInt (z : Z)
  | PStr (s : string)
  | PList (l : list pyval)
  | PDict (d : list (string * pyval))
  | POther (repr : string) (truth : bool).

(** The exception classes the code distinguishes.  [JSONDecodeError]
    and [UnicodeDecodeError] are subclasses of [ValueError]. *)
Inductive exn : Type :=
  | JSONDecodeError
  | ValueError
  | TypeError
  | AttributeError
  | KeyError
  | OSError
  | APIError.

Inductive res (A : Type) : Type :=
  | Ok (a : A)
  | Raise (e : exn).
Arguments Ok {A} a.
Arguments Raise {A} e.

(** [isinstance(e, ValueError)] *)
Definition is_value_error (e : exn) : bool :=
  match e with
  | JSONDecodeError | ValueError => true
  | _ => false
  end.

(** [d.get(k)]: the value stored under [k]. *)
Fixpoint dict_get {V : Type} (k : string) (d : list (string * V)) : option V :=
  match d with
  | [] => None
  | (k', v) :: r => if String.eqb k k' then Some v else dict_get k r
  end.

(** [d[k] = v]: an existing key keeps its position. *)
Fixpoint dict_set {V : Type} (k : string) (v : V) (d : list (string * V))
  : list (string * V) :=
  match d with
  | [] => [(k, v)]
  | (k', v') :: r =>
      if String.eqb k k' then (k, v) :: r else (k', v') :: dict_set k v r
  end.

(** [bool(v)] *)
Definition truthy (v : pyval) : bool :=
  match v with
  | PNone => false
  | PBool b => b
  | PInt z => negb (z =? 0)%Z
  | PStr s => negb (String.eqb s "")
  | PList l => match l with [] => false | _ => true end
  | PDict d => match d with [] => false | _ => true end
  | POther _ t => t
  end.

(** [v == s] for a string [s]: only a [str] equals a [str]. *)
Definition eq_str (v : pyval) (s : string) : bool :=
  match v with
  | PStr s' => String.eqb s' s
  | _ => false
  end.

(** [hash(v)] succeeds: lists and dicts are unhashable. *)
Definition hashable (v : pyval) : bool :=
  match v with
  | PList _ | PDict _ => false
  | _ => true
  end.

(** The codecs of the Python runtime the program calls but does not
    define: [json.loads] ([None] for [JSONDecodeError]),
    [json.dumps(_, ensure_ascii=False)], and [repr].  The program's
    functions are written over any such runtime; [Json] further down
    gives an executable one. *)
Class Runtime : Type := {
  json_loads : string -> option pyval;
  json_dumps : pyval -> string;
  py_repr : pyval -> string;
}.

(** [str(v)], which an f-string applies to an interpolated value: a
    [str] is inserted as it is, any other value of the model by its
    [repr]. *)
Definition py_str `{Runtime} (v : pyval) : string :=
  match v with
  | PStr s => s
  | _ => py_repr v
  end.

Definition res_bind {A B : Type} (m : res A) (k : A -> res B) : res B :=
  match m with
  | Ok a => k a
  | Raise e => Raise e
  end.

Declare Scope res_scope.
Delimit Scope res_scope with res.
Notation "x <~ m ;; k" := (res_bind m (fun x => k))
  (at level 100, m at next level, right associativity) : res_scope.

(** [k in v] for a string [k]: a key of a [dict], an element of a
    [list], a substring of a [str]; any other value is not iterable. *)
Definition py_in (k : string) (v : pyval) : res bool :=
  match v with
  | PDict d => Ok (match dict_get k d with Some _ => true | None => false end)
  | PList l => Ok (existsb (fun x => eq_str x k) l)
  | PStr s => Ok (contains (chars_of k) (chars_of s))
  | _ => Raise TypeError
  end.

(** [v[k]] for a string [k]. *)
Definition subscript (v : pyval) (k : string) : res pyval :=
  match v with
  | PDict d =>
      match dict_get k d with
      | Some x => Ok x
      | None => Raise KeyError
      end
  | _ => Raise TypeError
  end.

(** [v.get(k, default)] *)
Definition get_default (v : pyval) (k : string) (default : pyval) : res pyval :=
  match v with
  | PDict d =>
      match dict_get k d with
      | Some x => Ok x
      | None => Ok default
      end
  | _ => Raise AttributeError
  end.

End Val.

(** ** An executable runtime

    A decoder and an encoder for JSON texts, following the grammar of
    Python's [json] module ([json.decoder], [json.encoder]).  Numbers
    with a fraction or an exponent decode to [POther] carrying the
    literal; a [\u] escape is decoded when it names a code point below
    128 and refused otherwise. *)

Module Json.
Import Py Val.

Definition is_ws (c : ascii) : bool :=
  let n := nat_of_ascii c in
  (n =? 32) || (n =? 9) || (n =? 10) || (n =? 13).

Definition skip_ws (l : chars) : chars := drop_while is_ws l.

Definition is_digit (c : ascii) : bool :=
  let n := nat_of_ascii c in (48 <=? n) && (n <=? 57).

Definition hex_val (c : ascii) : option nat :=
  let n := nat_of_ascii c in
  if (48 <=? n) && (n <=? 57) then Some (n - 48)
  else if (65 <=? n) && (n <=? 70) then Some (n - 55)
  else if (97 <=? n) && (n <=? 102) then Some (n - 87)
  else None.

(** The character a one-letter escape stands for. *)
Definition unescape (c : ascii) : option ascii :=
  match c with
  | "034"%char => Some "034"%char
  | "\"%char => Some "\"%char
  | "/"%char => Some "/"%char
  | "b"%char => Some "008"%char
  | "f"%char => Some "012"%char
  | "n"%char => Some "010"%char
  | "r"%char => Some "013"%char
  | "t"%char => Some "009"%char
  | _ => None
  end.

(** [py_scanstring] in strict mode, after the opening quote. *)
Fixpoint scan_string (l : chars) (acc : chars) : option (string * chars) :=
  match l with
  | [] => None
  | c :: r =>
      if Ascii.eqb c "034" then Some (str_of (rev acc), r)
      else if Ascii.eqb c "\" then
        match r with
        | "u"%char :: h1 :: h2 :: h3 :: h4 :: r' =>
            match hex_val h1, hex_val h2, hex_val h3, hex_val h4 with
            | Some a, Some b, Some c', Some d =>
                let n := ((a * 16 + b) * 16 + c') * 16 + d in
                if n <? 128 then scan_string r' (ascii_of_nat n :: acc)
                else None
            | _, _, _, _ => None
            end
        | e :: r' =>
            match unescape e with
            | Some x => scan_string r' (x :: acc)
            | None => None
            end
        | [] => None
        end
      else if nat_of_ascii c <? 32 then None
      else scan_string r (c :: acc)
  end.

Definition digits_val (ds : chars) : Z :=
  fold_left (fun a c => (a * 10 + Z.of_nat (nat_of_ascii c - 48))%Z) ds 0%Z.

Definition nonzero_digit (c : ascii) : bool :=
  is_digit c && negb (Ascii.eqb c "0").

(** The number pattern of [json.scanner]:
    an integer part, then an optional fraction and an optional exponent. *)
Definition scan_number (l : chars) : option (pyval * chars) :=
  let '(neg, l1) :=
    match l with
    | "-"%char :: r => (true, r)
    | _ => (false, l)
    end in
  let int_part :=
    match l1 with
    | "0"%char :: r => Some (["0"%char], r)
    | d :: r =>
        if is_digit d then Some (d :: take_while is_digit r, drop_while is_digit r)
        else None
    | [] => None
    end in
  match int_part with
  | None => None
  | Some (ds, r) =>
      let '(frac, r1) :=
        match r with
        | "."%char :: f =>
            match take_while is_digit f with
            | [] => ([], r)
            | fd => ("."%char :: fd, drop_while is_digit f)
            end
        | _ => ([], r)
        end in
      let scan_exp (e : ascii) (x : chars) :=
        let '(sign, x1) :=
          match x with
          | "+"%char :: y => (["+"%char], y)
          | "-"%char :: y => (["-"%char], y)
          | _ => ([], x)
          end in
        match take_while is_digit x1 with
        | [] => ([], r1)
        | ed => (e :: sign ++ ed, drop_while is_digit x1)
        end in
      let '(ex, r2) :=
        match r1 with
        | "e"%char :: x => scan_exp "e"%char x
        | "E"%char :: x => scan_exp "E"%char x
        | _ => ([], r1)
        end in
      match frac, ex with
      | [], [] =>
          let v := digits_val ds in
          Some (PInt (if neg then (- v)%Z else v), r2)
      | _, _ =>
          let lexeme := (if neg then ["-"%char] else []) ++ ds ++ frac ++ ex in
          Some (POther (str_of lexeme) (existsb nonzero_digit (ds ++ frac)), r2)
      end
  end.

(** [scan_once]: one JSON value at the head of the text.  The fuel
    bounds the nesting depth plus the number of members read. *)
Fixpoint scan_value (fuel : nat) (l : chars) : option (pyval * chars) :=
  match fuel with
  | O => None
  | S f =>
      match l with
      | "034"%char :: r =>
          match scan_string r [] with
          | Some (s, r') => Some (PStr s, r')
          | None => None
          end
      | "{"%char :: r =>
          match skip_ws r with
          | "}"%char :: r' => Some (PDict [], r')
          | "034"%char :: r' => scan_pairs f [] r'
          | _ => None
          end
      | "["%char :: r =>
          match skip_ws r with
          | "]"%char :: r' => Some (PList [], r')
          | r' => scan_items f [] r'
          end
      | _ =>
          match strip_prefix (chars_of "null") l,
                strip_prefix (chars_of "true") l,
                strip_prefix (chars_of "false") l with
          | Some r, _, _ => Some (PNone, r)
          | _, Some r, _ => Some (PBool true, r)
          | _, _, Some r => Some (PBool false, r)
          | _, _, _ =>
              match scan_number l with
              | Some x => Some x
              | None =>
                  match strip_prefix (chars_of "NaN") l,
                        strip_prefix (chars_of "Infinity") l,
                        strip_prefix (chars_of "-Infinity") l with
                  | Some r, _, _ => Some (POther "nan" true, r)
                  | _, Some r, _ => Some (POther "inf" true, r)
                  | _, _, Some r => Some (POther "-inf" true, r)
                  | _, _, _ => None
                  end
              end
          end
      end
  end
(** [JSONObject], after the opening quote of a key. *)
with scan_pairs (fuel : nat) (acc : list (string * pyval)) (l : chars)
  : option (pyval * chars) :=
  match fuel with
  | O => None
  | S f =>
      match scan_string l [] with
      | None => None
      | Some (k, r) =>
          match skip_ws r with
          | ":"%char :: r1 =>
              match scan_value f (skip_ws r1) with
              | None => None
              | Some (v, r2) =>
                  let acc' := dict_set k v acc in
                  match skip_ws r2 with
                  | "}"%char :: r3 => Some (PDict acc', r3)
                  | ","%char :: r3 =>
                      match skip_ws r3 with
                      | "034"%char :: r4 => scan_pairs f acc' r4
                      | _ => None
                      end
                  | _ => None
                  end
              end
          | _ => None
          end
      end
  end
(** [JSONArray], at the first character of an element. *)
with scan_items (fuel : nat) (acc : list pyval) (l : chars)
  : option (pyval * chars) :=
  match fuel with
  | O => None
  | S f =>
      match scan_value f l with
      | None => None
      | Some (v, r) =>
          match skip_ws r with
          | "]"%char :: r1 => Some (PList (rev (v :: acc)), r1)
          | ","%char :: r1 => scan_items f (v :: acc) (skip_ws r1)
          | _ => None
          end
      end
  end.

(** [json.loads]: white space, one value, white space, end of text. *)
Definition loads (s : string) : option pyval :=
  let l := chars_of s in
  match scan_value (S (length l)) (skip_ws l) with
  | Some (v, r) =>
      match skip_ws r with
      | [] => Some v
      | _ => None
      end
  | None => None
  end.

Definition hex_digit (n : nat) : ascii :=
  if n <? 10 then ascii_of_nat (48 + n) else ascii_of_nat (87 + n).

(** The escapes of [json.encoder.encode_basestring]. *)
Definition escape_char (c : ascii) : chars :=
  match c with
  | "034"%char => ["\"%char; "034"%char]
  | "\"%char => ["\"%char; "\"%char]
  | "010"%char => ["\"%char; "n"%char]
  | "013"%char => ["\"%char; "r"%char]
  | "009"%char => ["\"%char; "t"%char]
  | "008"%char => ["\"%char; "b"%char]
  | "012"%char => ["\"%char; "f"%char]
  | _ =>
      let n := nat_of_ascii c in
      if n <? 32
      then chars_of "\u00" ++ [hex_digit (n / 16); hex_digit (n mod 16)]
      else [c]
  end.

Definition dump_str (s : string) : string :=
  dq +:+ str_of (concat (map escape_char (chars_of s))) +:+ dq.

(** [json.dumps(v, ensure_ascii=False)] *)
Fixpoint dumps (v : pyval) : string :=
  match v with
  | PNone => "null"
  | PBool true => "true"
  | PBool false => "false"
  | PInt z => str_of_Z z
  | PStr s => dump_str s
  | PList l => "[" +:+ join ", " (map dumps l) +:+ "]"
  | PDict d =>
      "{" +:+ join ", " (map (fun kv => dump_str (fst kv) +:+ ": " +:+ dumps (snd kv)) d)
          +:+ "}"
  | POther r _ => r
  end.

(** [repr] of a [str]: single quotes, unless the text holds a single
    quote and no double quote. *)
Definition repr_char (quote : ascii) (c : ascii) : chars :=
  if Ascii.eqb c quote then ["\"%char; c]
  else match c with
       | "\"%char => ["\"%char; "\"%char]
       | "010"%char => ["\"%char; "n"%char]
       | "013"%char => ["\"%char; "r"%char]
       | "009"%char => ["\"%char; "t"%char]
       | _ =>
           let n := nat_of_ascii c in
           if (n <? 32) || (n =? 127)
           then chars_of "\x" ++ [hex_digit (n / 16); hex_digit (n mod 16)]
           else [c]
       end.

Definition repr_str (s : string) : string :=
  let l := chars_of s in
  let quote :=
    if existsb (Ascii.eqb "'") l && negb (existsb (Ascii.eqb "034") l)
    then "034"%char else "'"%char in
  str_of ([quote] ++ concat (map (repr_char quote) l) ++ [quote]).

(** [repr(v)] *)
Fixpoint repr (v : pyval) : string :=
  match v with
  | PNone => "None"
  | PBool true => "True"
  | PBool false => "False"
  | PInt z => str_of_Z z
  | PStr s => repr_str s
  | PList l => "[" +:+ join ", " (map repr l) +:+ "]"
  | PDict d =>
      "{" +:+ join ", " (map (fun kv => repr_str (fst kv) +:+ ": " +:+ repr (snd kv)) d)
          +:+ "}"
  | POther r _ => r
  end.

Definition runtime : Runtime :=
  {| json_loads := loads; json_dumps := dumps; py_repr := repr |}.

End Json.

(** ** categorize.py: the classifier/mover *)

Module Categorize.
Import Py Val.
Local Open Scope res_scope.

(** A [Path] below [PROJECT_ROOT], as its components. *)
Abbreviation path := (list string).

(** *** CONFIG and CATEGORIES *)

Definition source_dir : path := ["input"].
Definition target_base : path := ["output"].
Definition max_content_length : nat := 4000.
Definition retry_attempts : nat := 3.
Definition retry_delay : nat := 2.

Definition CATEGORIES : list (string * list string) :=
  [ ("areas", ["health"; "finance"; "career"; "family"]);
    ("resources", ["data-science"; "programming"; "business"; "personal-dev"]);
    ("archive", ["old-projects"; "completed"; "outdated"]) ].

Definition CLASSIFICATION_PROMPT_TEMPLATE : string :=
  join nl
    [ "You are a document classifier. Analyze the note and return ONLY JSON without markdown formatting.";
      "";
      "CATEGORIES:";
      "- areas: ongoing responsibilities (health, finance, family, career)";
      "- resources: reference material, knowledge (data science, programming, business, personal development)";
      "- archive: outdated, completed projects, temporary notes";
      "";
      "SUBCATEGORIES:";
      "areas → health | finance | career | family";
      "resources → data-science | programming | business | personal-dev";
      "archive → old-projects | completed | outdated";
      "";
      "RULES:";
      "1. If note is about health, fitness, medicine → areas/health";
      "2. If note is about money, investments → areas/finance";
      "3. If note is about work, career, skills → areas/career";
      "4. If note is about family, children → areas/family";
      "5. If note is about ML, Python, SQL, analytics → resources/data-science";
      "6. If note is about code, architecture → resources/programming";
      "7. If note is about business, sales → resources/business";
      "8. If note is about personal growth, values → resources/personal-dev";
      "9. If note is outdated, temporary, empty → archive";
      "";
      "RESPONSE FORMAT (JSON only, no ```json):";
      "{" +:+ q "category" +:+ ": " +:+ q "resources" +:+ ", "
          +:+ q "subcategory" +:+ ": " +:+ q "data-science" +:+ ", "
          +:+ q "tags" +:+ ": [" +:+ q "machine-learning" +:+ ", " +:+ q "python" +:+ "], "
          +:+ q "summary" +:+ ": " +:+ q "Brief description" +:+ "}";
      "";
      "NOTE:";
      "---";
      "File: $FILENAME$";
      "---";
      "$CONTENT$" ].

(** *** The state of a run *)

(** The checkpoint file and the result log, as the records
    [_save_checkpoint] and [_save_results] dump (time stamps left out). *)
Record Checkpoint : Type := {
  cp_processed : list string;
  cp_total_processed : nat;
  cp_last_file : option string;
}.

(** [r_dry_run] tells whether the entry carries the key ["dry_run"]. *)
Record ResultEntry : Type := {
  r_file : string;
  r_classification : pyval;
  r_moved_to : string;
  r_dry_run : bool;
}.

Record ErrorEntry : Type := {
  e_file : string;
  e_error : string;
}.

Record Log : Type := {
  log_results : list ResultEntry;
  log_errors : list ErrorEntry;
  log_total_processed : nat;
  log_total_errors : nat;
}.

(** What a run does to the outside, in order.  [EMark] is the moment a
    name enters [processed_files]; durations are in milliseconds. *)
Inductive Event : Type :=
  | ERequest (prompt : string)
  | ESleep (ms : nat)
  | EMkdir (p : path)
  | EWriteText (p : path) (content : string)
  | EUnlink (p : path)
  | EMark (name : string)
  | ESaveCheckpoint
  | ESaveResults.

(** [files], [checkpoint_file] and [log_file] are the disk: the
    documents below [PROJECT_ROOT] and the two files under [data/].
    [calls] counts the requests sent, [trace] lists the effects so far.
    [results], [errors] and [processed_files] are the fields of the
    [DocumentCategorizer] object. *)
Record St : Type := mkSt {
  files : gmap path string;
  checkpoint_file : option Checkpoint;
  log_file : option Log;
  calls : nat;
  trace : list Event;
  results : list ResultEntry;
  errors : list ErrorEntry;
  processed_files : gset string;
}.

Definition set_files (x : gmap path string) (s : St) : St :=
  mkSt x (checkpoint_file s) (log_file s) (calls s) (trace s)
       (results s) (errors s) (processed_files s).
Definition set_checkpoint_file (x : option Checkpoint) (s : St) : St :=
  mkSt (files s) x (log_file s) (calls s) (trace s)
       (results s) (errors s) (processed_files s).
Definition set_log_file (x : option Log) (s : St) : St :=
  mkSt (files s) (checkpoint_file s) x (calls s) (trace s)
       (results s) (errors s) (processed_files s).
Definition set_calls (x : nat) (s : St) : St :=
  mkSt (files s) (checkpoint_file s) (log_file s) x (trace s)
       (results s) (errors s) (processed_files s).
Definition set_trace (x : list Event) (s : St) : St :=
  mkSt (files s) (checkpoint_file s) (log_file s) (calls s) x
       (results s) (errors s) (processed_files s).
Definition set_results (x : list ResultEntry) (s : St) : St :=
  mkSt (files s) (checkpoint_file s) (log_file s) (calls s) (trace s)
       x (errors s) (processed_files s).
Definition set_errors (x : list ErrorEntry) (s : St) : St :=
  mkSt (files s) (checkpoint_file s) (log_file s) (calls s) (trace s)
       (results s) x (processed_files s).
Definition set_processed_files (x : gset string) (s : St) : St :=
  mkSt (files s) (checkpoint_file s) (log_file s) (calls s) (trace s)
       (results s) (errors s) x.

(** *** The world outside the program *)

(** What the service does with a request: it answers with a text, or
    the call raises (network, authentication, an empty answer). *)
Inductive Reply : Type :=
  | Text (s : string)
  | Failure.

Inductive IoOp : Type := OpRead | OpMkdir | OpWrite | OpUnlink.

(** [service n prompt] is the outcome of the request sent after [n]
    earlier ones; [today] is the date [strftime('%Y-%m-%d')] prints;
    [io_fault op p] tells whether the operating system refuses [op] on
    [p] (permissions, an undecodable file, a full disk). *)
Class World : Type := {
  service : nat -> string -> Reply;
  today : string;
  io_fault : IoOp -> path -> bool;
}.

(** *** The state-and-exception monad *)

Definition M (A : Type) : Type := St -> res A * St.

Definition ret {A : Type} (a : A) : M A := fun s => (Ok a, s).

Definition raise {A : Type} (e : exn) : M A := fun s => (Raise e, s).

Definition bind {A B : Type} (m : M A) (k : A -> M B) : M B :=
  fun s =>
    match m s with
    | (Ok a, s') => k a s'
    | (Raise e, s') => (Raise e, s')
    end.

Declare Scope m_scope.
Delimit Scope m_scope with M.
Notation "x <- m ;; k" := (bind m (fun x => k))
  (at level 100, m at next level, right associativity) : m_scope.
Notation "m ;;; k" := (bind m (fun _ => k))
  (at level 100, right associativity) : m_scope.
Local Open Scope m_scope.

Definition lift {A : Type} (r : res A) : M A := fun s => (r, s).

(** [try: m except <classes selected by handles> as e: h e] *)
Definition try_except {A : Type} (m : M A) (handles : exn -> bool)
    (h : exn -> M A) : M A :=
  fun s =>
    match m s with
    | (Raise e, s') => if handles e then h e s' else (Raise e, s')
    | ok => ok
    end.

Definition emit (e : Event) : M unit :=
  fun s => (Ok tt, set_trace (trace s ++ [e]) s).

(** *** pathlib *)

(** [p.name] *)
Definition path_name (p : path) : string := List.last p "".

(** [p / v]: [v] must be a [str]; the names appended here hold no
    separator. *)
Definition path_div (p : path) (v : pyval) : res path :=
  match v with
  | PStr s => Ok (p ++ [s])
  | _ => Raise TypeError
  end.

(** [str(p)] *)
Definition path_str (p : path) : string := join "/" p.

(** The names of the files [source.glob("*.md")] yields. *)
Definition glob_md (fs : gmap path string) : list string :=
  omap (fun p => match p with
                 | [d; name] =>
                     if String.eqb d "input" && endswith name ".md"
                     then Some name else None
                 | _ => None
                 end)
       (map fst (map_to_list fs)).

Section Program.
Context `{Runtime} `{World}.

(** *** File and service operations *)

Definition read_text (p : path) : M string :=
  fun s =>
    if io_fault OpRead p then (Raise OSError, s)
    else match files s !! p with
         | Some c => (Ok c, s)
         | None => (Raise OSError, s)
         end.

(** [p.mkdir(parents=True, exist_ok=True)] *)
Definition mkdir (p : path) : M unit :=
  if io_fault OpMkdir p then raise OSError else emit (EMkdir p).

Definition write_text (p : path) (content : string) : M unit :=
  fun s =>
    if io_fault OpWrite p then (Raise OSError, s)
    else (Ok tt, set_trace (trace s ++ [EWriteText p content])
                   (set_files (<[p:=content]> (files s)) s)).

Definition unlink (p : path) : M unit :=
  fun s =>
    if io_fault OpUnlink p then (Raise OSError, s)
    else match files s !! p with
         | Some _ =>
             (Ok tt, set_trace (trace s ++ [EUnlink p])
                       (set_files (delete p (files s)) s))
         | None => (Raise OSError, s)
         end.

Definition sleep (ms : nat) : M unit := emit (ESleep ms).

(** [self.client.messages.create(...)] followed by
    [response.content[0].text] *)
Definition messages_create (prompt : string) : M string :=
  fun s =>
    let s' := set_trace (trace s ++ [ERequest prompt]) (set_calls (S (calls s)) s) in
    match service (calls s) prompt with
    | Text t => (Ok t, s')
    | Failure => (Raise APIError, s')
    end.

(** *** DocumentCategorizer *)

Definition _load_checkpoint : M unit :=
  fun s =>
    match checkpoint_file s with
    | Some data => (Ok tt, set_processed_files (list_to_set (cp_processed data)) s)
    | None => (Ok tt, s)
    end.

(** [__init__] *)
Definition init : M unit :=
  (fun s => (Ok tt, set_processed_files ∅ (set_errors [] (set_results [] s)))) ;;;
  _load_checkpoint.

Definition _save_results : M unit :=
  (fun s =>
     (Ok tt, set_log_file
               (Some {| log_results := results s;
                        log_errors := errors s;
                        log_total_processed := length (results s);
                        log_total_errors := length (errors s) |}) s)) ;;;
  emit ESaveResults.

Definition _save_checkpoint : M unit :=
  (fun s =>
     let l := elements (processed_files s) in
     (Ok tt, set_checkpoint_file
               (Some {| cp_processed := l;
                        cp_total_processed := length l;
                        cp_last_file := last l |}) s)) ;;;
  emit ESaveCheckpoint ;;;
  _save_results.

(** [files[:limit]] *)
Definition take_limit {A : Type} (limit : Z) (l : list A) : list A :=
  if (0 <=? limit)%Z then take (Z.to_nat limit) l
  else take (length l - Z.to_nat (- limit)) l.

Definition get_files_to_process (limit : option Z) : M (list path) :=
  fun s =>
    let files := sort_by String.leb (glob_md (files s)) in
    let files := filter (fun name => name ∉ processed_files s) files in
    let files :=
      match limit with
      | Some n => if (n =? 0)%Z then files else take_limit n files
      | None => files
      end in
    (Ok (map (fun name => source_dir ++ [name]) files), s).

Definition _validate_result (result : pyval) : res bool :=
  has_category <~ py_in "category" result ;;
  if negb has_category then Ok false else
  has_subcategory <~ py_in "subcategory" result ;;
  if negb has_subcategory then Ok false else
  category <~ subscript result "category" ;;
  subcategory <~ subscript result "subcategory" ;;
  if negb (hashable category) then Raise TypeError else
  match category with
  | PStr c =>
      match dict_get c CATEGORIES with
      | None => Ok false
      | Some subs => Ok (existsb (eq_str subcategory) subs)
      end
  | _ => Ok false
  end.

(** [re.sub(r"^```json?\s*", "", text)]: the six characters of the
    fence, an [n] when one follows, then white space. *)
Definition sub_fence_open (l : chars) : chars :=
  match strip_prefix (chars_of "```jso") l with
  | Some r =>
      drop_while is_space
        (match r with
         | c :: r' => if Ascii.eqb c "n" then r' else r
         | [] => r
         end)
  | None => l
  end.

(** [re.sub(r"\s*```$", "", text)]: [$] is the end of the text, or the
    place before a line feed that ends the text; that line feed stays. *)
Definition sub_fence_close (l : chars) : chars :=
  let '(tail, r) :=
    match rev l with
    | c :: r' => if Ascii.eqb c "010" then ([c], r') else ([], rev l)
    | [] => ([], [])
    end in
  match strip_prefix (chars_of "```") r with
  | Some r' => rev (drop_while is_space r') ++ tail
  | None => l
  end.

(** The text handed to [json.loads] (categorize.py:191-201). *)
Definition isolate_payload (text : string) : string :=
  let result_text := strip_chars (chars_of text) in
  let result_text := sub_fence_open result_text in
  let result_text := sub_fence_close result_text in
  let start_idx := find ["{"%char] result_text in
  let end_idx := (rfind_char "}" result_text + 1)%Z in
  str_of (if ((0 <=? start_idx) && (start_idx <? end_idx))%Z
          then slice result_text start_idx end_idx
          else result_text).

(** From the text of a response to the accepted result
    (categorize.py:191-209). *)
Definition parse_response (text : string) : res pyval :=
  match json_loads (isolate_payload text) with
  | None => Raise JSONDecodeError
  | Some result =>
      valid <~ _validate_result result ;;
      if negb valid then Raise ValueError else Ok result
  end.

Definition truncate (content : string) : string :=
  if max_content_length <? String.length content
  then str_of (take max_content_length (chars_of content))
       +:+ nl +:+ "...[truncated]..."
  else content.

Definition build_prompt (name content : string) : string :=
  replace (replace CLASSIFICATION_PROMPT_TEMPLATE "$FILENAME$" name)
          "$CONTENT$" content.

(** The loop [for attempt in range(retry_attempts)], with [remaining]
    iterations to go. *)
Fixpoint retry_loop (remaining attempt : nat) (prompt : string)
  : M (option pyval) :=
  match remaining with
  | O => ret None
  | S rem =>
      try_except
        (response <- messages_create prompt ;;
         result <- lift (parse_response response) ;;
         ret (Some result))
        is_value_error
        (fun e =>
           if attempt <? retry_attempts - 1
           then sleep (retry_delay * 1000) ;;;
                retry_loop rem (S attempt) prompt
           else raise e)
  end.

Definition classify_note (filepath : path) : M (option pyval) :=
  try_except
    (content <- read_text filepath ;;
     let content := truncate content in
     let prompt := build_prompt (path_name filepath) content in
     retry_loop retry_attempts 0 prompt)
    (fun _ => true)
    (fun _ => ret None).

Definition add_frontmatter (filepath : path) (classification : pyval)
  : M string :=
  content <- read_text filepath ;;
  if startswith content "---" then ret content else
  category <- lift (subscript classification "category") ;;
  subcategory <- lift (subscript classification "subcategory") ;;
  tags <- lift (get_default classification "tags" (PList [])) ;;
  summary <- lift (get_default classification "summary" (PStr "")) ;;
  let frontmatter :=
    join nl
      [ "---";
        "title: " +:+ q (stem (path_name filepath));
        "category: " +:+ py_str category;
        "subcategory: " +:+ py_str subcategory;
        "tags: " +:+ json_dumps tags;
        "summary: " +:+ q (py_str summary);
        "processed: " +:+ today;
        "---";
        "";
        "" ] in
  ret (frontmatter +:+ content).

Definition append_error (e : ErrorEntry) : M unit :=
  fun s => (Ok tt, set_errors (errors s ++ [e]) s).

Definition append_result (r : ResultEntry) : M unit :=
  fun s => (Ok tt, set_results (results s ++ [r]) s).

(** [self.processed_files.add(name)] *)
Definition mark_processed (name : string) : M unit :=
  (fun s => (Ok tt, set_processed_files ({[name]} ∪ processed_files s) s)) ;;;
  emit (EMark name).

(** [not classification] *)
Definition falsy (classification : option pyval) : bool :=
  match classification with
  | None => true
  | Some c => negb (truthy c)
  end.

Definition process_file (dry_run : bool) (filepath : path) : M bool :=
  let name := path_name filepath in
  classification <- classify_note filepath ;;
  match classification with
  | Some c =>
      if falsy classification then
        append_error {| e_file := name; e_error := "classification_failed" |} ;;;
        ret false
      else
        (* the two progress lines read these values *)
        category <- lift (subscript c "category") ;;
        subcategory <- lift (subscript c "subcategory") ;;
        _ <- lift (get_default c "tags" (PList [])) ;;
        if dry_run then
          append_result
            {| r_file := name;
               r_classification := c;
               r_moved_to := "output/" +:+ py_str category +:+ "/"
                             +:+ py_str subcategory +:+ "/";
               r_dry_run := true |} ;;;
          ret true
        else
          new_content <- add_frontmatter filepath c ;;
          target_dir <- lift (d <~ path_div target_base category ;;
                              path_div d subcategory) ;;
          mkdir target_dir ;;;
          let target_path := target_dir ++ [name] in
          write_text target_path new_content ;;;
          unlink filepath ;;;
          append_result
            {| r_file := name;
               r_classification := c;
               r_moved_to := path_str target_path;
               r_dry_run := false |} ;;;
          mark_processed name ;;;
          ret true
  | None =>
      append_error {| e_file := name; e_error := "classification_failed" |} ;;;
      ret false
  end.

(** What follows [process_file] in the body of the loop of [run], for
    the [i]-th file of [total]. *)
Definition after_file (dry_run : bool) (total i : nat) : M unit :=
  (if i mod 10 =? 0 then _save_checkpoint else ret tt) ;;;
  (if negb dry_run && (i <? total) then sleep 500 else ret tt).

(** [for i, filepath in enumerate(files, 1)] *)
Fixpoint run_loop (dry_run : bool) (total i : nat) (files : list path)
  : M unit :=
  match files with
  | [] => ret tt
  | filepath :: rest =>
      _ <- process_file dry_run filepath ;;
      after_file dry_run total i ;;;
      run_loop dry_run total (S i) rest
  end.

Definition run (dry_run : bool) (limit : option Z) (resume : bool) : M unit :=
  (if negb resume
   then (fun s => (Ok tt, set_processed_files ∅ s))
   else ret tt) ;;;
  files <- get_files_to_process limit ;;
  let total := length files in
  if total =? 0 then ret tt
  else
    run_loop dry_run total 1 files ;;;
    _save_checkpoint.

(** [main], with the parsed arguments. *)
Definition main (dry_run : bool) (limit : option Z) (resume : bool) : M unit :=
  init ;;;
  run dry_run limit resume.

End Program.

End Categorize.

(** ** build_index.py: the indexer *)

Module BuildIndex.
Import Py Val.
Local Open Scope res_scope.

Abbreviation path := (list string).



Section Indexer.
Context `{Runtime}.

(** The PyYAML module when it is installed: [safe_load] answers a value
    or raises ([None]). *)
Variable yaml : option (string -> option pyval).







End Indexer.

End BuildIndex.

(** ** generate_moc.py: the hub generator *)

Module GenerateMoc.
Import Py Val.
Local Open Scope res_scope.

(** An entry of the index as the indexer writes it for a well-formed
    header: texts, and a list of texts for the tags. *)
Record Note : Type := {
  file : string;
  path : string;
  category : string;
  subcategory : string;
  title : string;
  tags : list string;
  summary : string;
}.

(** [CONFIG["min_notes_for_tag_moc"]] *)
Class Config : Type := {
  min_notes_for_tag_moc : nat;
}.

Definition CONFIG : Config := {| min_notes_for_tag_moc := 5 |}.

(** [d[k].append(v)] on a [defaultdict(list)] *)
Definition dict_append {V : Type} (k : string) (v : V)
    (d : list (string * list V)) : list (string * list V) :=
  dict_set k (default [] (dict_get k d) ++ [v]) d.

(** [d[k] += 1] on a [defaultdict(int)] *)
Definition dict_incr (k : string) (d : list (string * nat))
  : list (string * nat) :=
  dict_set k (default 0 (dict_get k d) + 1) d.

Record Groups : Type := {
  by_subcategory : list (string * list Note);
  by_tag : list (string * list Note);
}.

(** The inner loop of [group_notes]: [note] is filed under each of its
    non-empty tags. *)
Definition add_tags (note : Note) (d : list (string * list Note))
  : list (string * list Note) :=
  fold_left
    (fun d tag => if String.eqb tag "" then d else dict_append tag note d)
    (tags note) d.

Definition group_notes (notes : list Note) : Groups :=
  fold_left
    (fun g note =>
       let key := category note +:+ "/" +:+ subcategory note in
       {| by_subcategory := dict_append key note (by_subcategory g);
          by_tag := add_tags note (by_tag g) |})
    notes
    {| by_subcategory := []; by_tag := [] |}.

(** [sorted(notes, key=lambda x: x.get("title", x["file"]))] *)
Definition sort_by_title (notes : list Note) : list Note :=
  sort_by (fun a b => String.leb (title a) (title b)) notes.

(** [sorted(d.items(), key=lambda x: -x[1])] *)
Definition sort_by_count_desc (items : list (string * nat))
  : list (string * nat) :=
  sort_by (fun a b => snd b <=? snd a) items.

(** The counts of the non-empty tags of [notes]. *)
Definition count_tags (notes : list Note) : list (string * nat) :=
  fold_left
    (fun d note =>
       fold_left
         (fun d tag => if String.eqb tag "" then d else dict_incr tag d)
         (tags note) d)
    notes [].

Section Hubs.
Context `{Config}.

(** The date [strftime('%Y-%m-%d')] prints. *)
Variable today : string.

Definition generate_subcategory_moc (key : string) (notes : list Note)
  : res string :=
  match split "/" key with
  | [category; subcat] =>
      let title0 := title_case (replace subcat "-" " ") in
      let head :=
        [ "# MOC: " +:+ title0;
          "";
          "> Category: " +:+ category;
          "> Notes: " +:+ str_of_nat (length notes);
          "> Updated: " +:+ today;
          "";
          "## Notes";
          "" ] in
      let entries :=
        map (fun note =>
               let link := "- [" +:+ title note +:+ "](../" +:+ path note +:+ ")" in
               if String.eqb (summary note) "" then link
               else link +:+ " — " +:+ summary note)
            (sort_by_title notes) in
      let all_tags := count_tags notes in
      let popular :=
        match all_tags with
        | [] => []
        | _ =>
            [ ""; "## Popular Tags"; "" ]
            ++ map (fun tc : string * nat =>
                      "- #" +:+ fst tc +:+ " (" +:+ str_of_nat (snd tc) +:+ ")")
                   (take 10 (sort_by_count_desc all_tags))
        end in
      Ok (join nl (head ++ entries ++ popular))
  | _ => Raise ValueError
  end.

Definition generate_tag_moc (tag : string) (notes : list Note) : string :=
  let head :=
    [ "# MOC: #" +:+ tag;
      "";
      "> Notes: " +:+ str_of_nat (length notes);
      "> Updated: " +:+ today;
      "";
      "## Notes";
      "" ] in
  let by_category :=
    fold_left (fun d note => dict_append (category note) note d) notes [] in
  let sections :=
    concat
      (map (fun cat =>
              [ "### " +:+ title_case cat; "" ]
              ++ map (fun note =>
                        "- [" +:+ title note +:+ "](../" +:+ path note +:+ ")")
                     (sort_by_title (default [] (dict_get cat by_category)))
              ++ [ "" ])
           (sort_by String.leb (map fst by_category))) in
  join nl (head ++ sections).

(** [sorted] on pairs of a text and a number. *)
Definition pair_le (a b : string * nat) : bool :=
  if String.eqb (fst a) (fst b) then snd a <=? snd b
  else String.leb (fst a) (fst b).

Definition generate_main_moc (groups : Groups) (notes : list Note) : string :=
  let head :=
    [ "# MOC: Main Index";
      "";
      "> Total notes: " +:+ str_of_nat (length notes);
      "> Updated: " +:+ today;
      "";
      "## By Category";
      "" ] in
  let categories :=
    fold_left
      (fun d kv =>
         let '(subcat, subcat_notes) := kv in
         dict_append (nth 0 (split "/" subcat) "") (subcat, length subcat_notes) d)
      (by_subcategory groups) [] in
  let sections :=
    concat
      (map (fun cat =>
              match dict_get cat categories with
              | Some subs =>
                  [ "### " +:+ title_case cat; "" ]
                  ++ map (fun sc : string * nat =>
                            let name := nth 1 (split "/" (fst sc)) "" in
                            "- [" +:+ name +:+ "](./_MOC-" +:+ name +:+ ".md) ("
                            +:+ str_of_nat (snd sc) +:+ " notes)")
                         (sort_by pair_le subs)
                  ++ [ "" ]
              | None => []
              end)
           [ "areas"; "resources"; "archive" ]) in
  let tag_counts :=
    map (fun kv : string * list Note => (fst kv, length (snd kv))) (by_tag groups) in
  let popular :=
    map (fun tc : string * nat =>
           let '(tag, count) := tc in
           if min_notes_for_tag_moc <=? count
           then "- [#" +:+ tag +:+ "](./_MOC-tag-" +:+ tag +:+ ".md) ("
                +:+ str_of_nat count +:+ ")"
           else "- #" +:+ tag +:+ " (" +:+ str_of_nat count +:+ ")")
        (take 15 (sort_by_count_desc tag_counts)) in
  join nl (head ++ sections ++ [ "## Popular Tags"; "" ] ++ popular).

(** The hub directory [CONFIG["moc_dir"]]: file name to content.
    [write_fault] tells which writes the operating system refuses. *)
Variable write_fault : string -> bool.

Definition save_moc (filename content : string) (preview : bool)
    (dir : gmap string string) : res (gmap string string) :=
  if preview then Ok dir
  else if write_fault filename then Raise OSError
  else Ok (<[filename := content]> dir).

Definition subcategory_filename (key : string) : string :=
  "_MOC-" +:+ nth 1 (split "/" key) "" +:+ ".md".

Definition tag_filename (tag : string) : string :=
  "_MOC-tag-" +:+ tag +:+ ".md".

(** The second loop of [main]: the hub of each subcategory, rendered
    when its turn comes. *)
Definition subcategory_mocs (groups : Groups) : list (res (string * string)) :=
  omap (fun kv : string * list Note =>
          let '(subcat, subcat_notes) := kv in
          if 0 <? length subcat_notes
          then Some (content <~ generate_subcategory_moc subcat subcat_notes ;;
                     Ok (subcategory_filename subcat, content))
          else None)
       (by_subcategory groups).

(** The third loop of [main]: "MOC by tag (popular only)". *)
Definition tag_mocs (groups : Groups) : list (string * string) :=
  omap (fun kv : string * list Note =>
          let '(tag, tag_notes) := kv in
          if min_notes_for_tag_moc <=? length tag_notes
          then Some (tag_filename tag, generate_tag_moc tag tag_notes)
          else None)
       (by_tag groups).

(** Saving the hubs one after the other; an exception stops the run
    and leaves what was written before it. *)
Fixpoint save_all (mocs : list (res (string * string))) (preview : bool)
    (dir : gmap string string) : res unit * gmap string string :=
  match mocs with
  | [] => (Ok tt, dir)
  | Raise e :: _ => (Raise e, dir)
  | Ok (filename, content) :: rest =>
      match save_moc filename content preview dir with
      | Ok dir' => save_all rest preview dir'
      | Raise e => (Raise e, dir)
      end
  end.

(** [main] on the notes [load_index] returned. *)
Definition main (preview : bool) (notes : list Note) (dir : gmap string string)
  : res unit * gmap string string :=
  match notes with
  | [] => (Ok tt, dir)
  | _ =>
      let groups := group_notes notes in
      save_all
        ([ Ok ("_MOC-index.md", generate_main_moc groups notes) ]
         ++ subcategory_mocs groups
         ++ map Ok (tag_mocs groups))
        preview dir
  end.

End Hubs.

End GenerateMoc.

(** * Notions used to state the properties *)

Module TextSpec.
Import Py.

Abbreviation lbrace := ("{"%char).
Abbreviation rbrace := ("}"%char).

(** A text in which the object [obj] stands between a part without an
    opening brace and a part without a closing brace. *)
Definition framed (obj l : chars) : Prop :=
  exists a b, l = a ++ obj ++ b /\ (lbrace ∉ a) /\ (rbrace ∉ b).

End TextSpec.

Module ClassifySpec.
Import Py Val Categorize.
(** The invariant of a classification in the words of the specification:
    the result is an object whose [category] is a key of the table and
    whose [subcategory] is listed under that key. *)
Definition is_valid_classification (result : pyval) : bool :=
  match result with
  | PDict d =>
      match dict_get "category" d, dict_get "subcategory" d with
      | Some (PStr c), Some (PStr sub) =>
          match dict_get c CATEGORIES with
          | Some subs => existsb (String.eqb sub) subs
          | None => false
          end
      | _, _ => false
      end
  | _ => false
  end.

(** [c in s] for a character [c]. *)
Definition has_char (c : ascii) (s : string) : bool :=
  existsb (Ascii.eqb c) (chars_of s).

Definition is_service_event (e : Event) : bool :=
  match e with
  | ERequest _ | ESleep _ => true
  | _ => false
  end.

(** From [s] to [s'] the program only talked to the service and slept:
    the disk and the fields of the object are as they were. *)
Definition only_service (s s' : St) : Prop :=
  files s' = files s /\
  checkpoint_file s' = checkpoint_file s /\
  log_file s' = log_file s /\
  results s' = results s /\
  errors s' = errors s /\
  processed_files s' = processed_files s /\
  calls s <= calls s' /\
  exists evs, trace s' = trace s ++ evs /\ forallb is_service_event evs = true.
(** The request a file leads to, once its content is read. *)
Definition prompt_of (filepath : path) (content : string) : string :=
  build_prompt (path_name filepath) (truncate content).

(** The state after one more request. *)
Definition requested (prompt : string) (s : St) : St :=
  set_trace (trace s ++ [ERequest prompt]) (set_calls (S (calls s)) s).

(** The state after a sleep of [retry_delay] seconds. *)
Definition delayed (s : St) : St :=
  set_trace (trace s ++ [ESleep (retry_delay * 1000)]) s.

End ClassifySpec.

Module ProcessSpec.
Import Py Val Categorize ClassifySpec.

Definition is_mark (e : Event) : bool :=
  match e with
  | EMark _ => true
  | _ => false
  end.

Definition error_entry (filepath : path) : ErrorEntry :=
  {| e_file := path_name filepath; e_error := "classification_failed" |}.

Section Outcome.
Context `{Runtime} `{World}.

(** The header [add_frontmatter] builds for the file [name] from the
    object [d]. *)
Definition frontmatter_of (name category subcategory : string)
    (d : list (string * pyval)) : string :=
  join nl
    [ "---";
      "title: " +:+ q (stem name);
      "category: " +:+ category;
      "subcategory: " +:+ subcategory;
      "tags: " +:+ json_dumps (default (PList []) (dict_get "tags" d));
      "summary: " +:+ q (py_str (default (PStr "") (dict_get "summary" d)));
      "processed: " +:+ today;
      "---";
      "";
      "" ].

(** What [process_file] writes at the destination for a document whose
    content is [original]. *)
Definition content_to_write (name category subcategory : string)
    (d : list (string * pyval)) (original : string) : string :=
  if startswith original "---" then original
  else frontmatter_of name category subcategory d +:+ original.

(** What [process_file] leaves alone whatever happens, and the events
    [evs] it adds. *)
Definition frame (s s' : St) (evs : list Event) : Prop :=
  checkpoint_file s' = checkpoint_file s /\
  log_file s' = log_file s /\
  calls s <= calls s' /\
  trace s' = trace s ++ evs.

(** The four ways [process_file] ends. *)
Inductive process_outcome (dry_run : bool) (filepath : path) (s : St)
  : res bool -> St -> Prop :=
  | classification_failed (s' : St) (evs : list Event) :
      frame s s' evs ->
      forallb is_service_event evs = true ->
      files s' = files s ->
      results s' = results s ->
      errors s' = errors s ++ [error_entry filepath] ->
      processed_files s' = processed_files s ->
      process_outcome dry_run filepath s (Ok false) s'
  | previewed (s' : St) (evs : list Event) (c : pyval) (moved_to : string) :
      dry_run = true ->
      frame s s' evs ->
      forallb is_service_event evs = true ->
      calls s < calls s' ->
      is_valid_classification c = true ->
      files s' = files s ->
      results s' = results s ++
        [ {| r_file := path_name filepath; r_classification := c;
             r_moved_to := moved_to; r_dry_run := true |} ] ->
      errors s' = errors s ->
      processed_files s' = processed_files s ->
      process_outcome dry_run filepath s (Ok true) s'
  | aborted (s' : St) (evs tail : list Event) (e : exn) :
      dry_run = false ->
      frame s s' (evs ++ tail) ->
      forallb is_service_event evs = true ->
      calls s < calls s' ->
      (tail = [] /\ files s' = files s
       \/ (exists dir, tail = [EMkdir dir]) /\ files s' = files s
       \/ exists dir target content,
            tail = [EMkdir dir; EWriteText target content]
            /\ files s' = <[target := content]> (files s)) ->
      results s' = results s ->
      errors s' = errors s ->
      processed_files s' = processed_files s ->
      process_outcome dry_run filepath s (Raise e) s'
  | moved (s' : St) (evs : list Event) (d : list (string * pyval))
      (category subcategory original : string) :
      let name := path_name filepath in
      let target := target_base ++ [category; subcategory; name] in
      let content := content_to_write name category subcategory d original in
      dry_run = false ->
      frame s s'
        (evs ++ [ EMkdir (target_base ++ [category; subcategory]);
                  EWriteText target content;
                  EUnlink filepath;
                  EMark name ]) ->
      forallb is_service_event evs = true ->
      calls s < calls s' ->
      is_valid_classification (PDict d) = true ->
      dict_get "category" d = Some (PStr category) ->
      dict_get "subcategory" d = Some (PStr subcategory) ->
      files s !! filepath = Some original ->
      files s' = delete filepath (<[target := content]> (files s)) ->
      results s' = results s ++
        [ {| r_file := name; r_classification := PDict d;
             r_moved_to := path_str target; r_dry_run := false |} ] ->
      errors s' = errors s ->
      processed_files s' = {[name]} ∪ processed_files s ->
      process_outcome dry_run filepath s (Ok true) s'.

End Outcome.
End ProcessSpec.

Module CheckpointSpec.
Import Py Val Categorize ClassifySpec ProcessSpec.

(** The ids the checkpoint file records. *)
Definition checkpoint_ids (s : St) : gset string :=
  match checkpoint_file s with
  | Some data => list_to_set (cp_processed data)
  | None => ∅
  end.

(** Events that change no document and mark no id. *)
Definition is_quiet_event (e : Event) : bool :=
  match e with
  | ERequest _ | ESleep _ | ESaveCheckpoint | ESaveResults => true
  | _ => false
  end.

(** [ids] are in the checkpoint file and in [processed_files]. *)
Definition keeps (ids : gset string) (s : St) : Prop :=
  ids ⊆ checkpoint_ids s /\ ids ⊆ processed_files s.

End CheckpointSpec.

Module RunsSpec.
Import Py Val Categorize ClassifySpec ProcessSpec CheckpointSpec.

Section Runs.
Context `{Runtime} `{World}.

(** One invocation of the program per element: its [--dry-run],
    [--limit] and [--resume] arguments.  Each starts from the disk the
    previous one left. *)
Definition run_many (args : list (bool * option Z * bool)) (s : St) : St :=
  fold_left (fun s a => (main a.1.1 a.1.2 a.2 s).2) args s.

End Runs.
End RunsSpec.

Module PreviewSpec.
Import Py Val Categorize ClassifySpec ProcessSpec CheckpointSpec.

(** From [s] to [s'] no document changed and no id was marked: the
    events added are requests, sleeps and saves, and the results added
    carry the [dry_run] flag. *)
Definition preview_only (s s' : St) : Prop :=
  files s' = files s /\
  processed_files s' = processed_files s /\
  (exists evs, trace s' = trace s ++ evs /\ forallb is_quiet_event evs = true) /\
  (exists rs, results s' = results s ++ rs /\ forallb r_dry_run rs = true).

(** What [_save_results] dumps for the state [s]. *)
Definition log_of (s : St) : Log :=
  {| log_results := results s;
     log_errors := errors s;
     log_total_processed := length (results s);
     log_total_errors := length (errors s) |}.

End PreviewSpec.

Module MainSpec.
Import Py Val Categorize ClassifySpec ProcessSpec CheckpointSpec PreviewSpec.

Section Program.
Context `{Runtime} `{World}.

(** The object as [__init__] leaves it. *)
Definition start_state (s : St) : St :=
  set_processed_files (checkpoint_ids s) (set_errors [] (set_results [] s)).

(** [run] from the listing of the files on. *)
Definition loop_and_save (dry_run : bool) (limit : option Z) : M unit :=
  (files <- get_files_to_process limit ;;
   let total := length files in
   if total =? 0 then ret tt
   else run_loop dry_run total 1 files ;;; _save_checkpoint)%M.

End Program.
End MainSpec.

Module IndexSpec.
Import Py Val BuildIndex.


End IndexSpec.

Module MocSpec.
Import Py Val GenerateMoc.

(** How many times [tag] is listed in the tag lists of [notes]. *)
Definition tag_count (tag : string) (notes : list Note) : nat :=
  foldr (fun note n => length (filter (fun t => t = tag) (tags note)) + n) 0 notes.

(** In how many of [notes] [tag] is listed. *)
Definition notes_with_tag (tag : string) (notes : list Note) : nat :=
  length (filter (fun note => tag ∈ tags note) notes).

(** The number of notes filed under [tag] in the dictionary [d]. *)
Definition filed (d : list (string * list Note)) (tag : string) : nat :=
  length (default [] (dict_get tag d)).

(** No key of [d] has an empty list. *)
Definition no_empty_group (d : list (string * list Note)) : Prop :=
  forall k l, dict_get k d = Some l -> l <> [].

End MocSpec.

Module Examples.
Import Py Val Categorize.

(** A well-formed answer object and what it decodes to. *)
Definition object_inside : string :=
  q "category" +:+ ": " +:+ q "areas" +:+ ", "
  +:+ q "subcategory" +:+ ": " +:+ q "health" +:+ ", "
  +:+ q "tags" +:+ ": [" +:+ q "sleep" +:+ "], "
  +:+ q "summary" +:+ ": " +:+ q "Notes on sleep".

Definition object_text : string := "{" +:+ object_inside +:+ "}".

Definition object_value : pyval :=
  PDict [ ("category", PStr "areas"); ("subcategory", PStr "health");
          ("tags", PList [PStr "sleep"]); ("summary", PStr "Notes on sleep") ].

(** The object in a code fence, with prose before and after. *)
Definition prose_before : string :=
  "Here is the classification:" +:+ nl +:+ "```json" +:+ nl.
Definition prose_after : string :=
  nl +:+ "```" +:+ nl +:+ "Let me know if it helps.".
Definition fenced_answer : string := prose_before +:+ object_text +:+ prose_after.

(** The same, with a brace in the prose. *)
Definition braced_answer : string :=
  "Result {json}:" +:+ nl +:+ "```json" +:+ nl +:+ object_text +:+ nl +:+ "```".



(** A service that always gives the same answer, one that always
    fails; no fault of the operating system. *)
Definition answering (answer : string) : World :=
  {| service := fun _ _ => Text answer;
     today := "2026-01-01";
     io_fault := fun _ _ => false |}.

Definition failing : World :=
  {| service := fun _ _ => Failure;
     today := "2026-01-01";
     io_fault := fun _ _ => false |}.

(** A fresh process on a disk holding [docs] in the source directory
    and the checkpoint [cp]. *)
Definition on_disk (docs : list (string * string)) (cp : option Checkpoint) : St :=
  mkSt (list_to_map (map (fun d => (source_dir ++ [d.1], d.2)) docs))
       cp None 0 [] [] [] ∅.

Definition plain_doc : string := "Slept eight hours." +:+ nl.
Definition headered_doc : string :=
  "---" +:+ nl +:+ "title: " +:+ q "old" +:+ nl +:+ "---" +:+ nl +:+ nl +:+ "Body" +:+ nl.

Definition one_plain : St := on_disk [("a.md", plain_doc)] None.
Definition one_headered : St := on_disk [("h.md", headered_doc)] None.

Definition old_checkpoint : Checkpoint :=
  {| cp_processed := ["old.md"]; cp_total_processed := 1;
     cp_last_file := Some "old.md" |}.
Definition resumed : St := on_disk [("a.md", plain_doc)] (Some old_checkpoint).

End Examples.

Module IndexExamples.
Import Py Val BuildIndex.





End IndexExamples.

Module MocExamples.
Import Py Val GenerateMoc.

Definition note (f : string) (tg : list string) : Note :=
  {| file := f; path := "areas/health/" +:+ f; category := "areas";
     subcategory := "health"; title := f; tags := tg; summary := "" |}.

(** Three notes of the scenario with threshold 2. *)
Definition python_sql : list Note :=
  [ note "a.md" ["python"]; note "b.md" ["python"; "sql"]; note "c.md" ["sql"] ].

Definition threshold_two : Config := {| min_notes_for_tag_moc := 2 |}.

(** Four notes bear the tag, one of them lists it twice. *)
Definition repeated_tag : list Note :=
  [ note "a.md" ["x"; "x"]; note "b.md" ["x"]; note "c.md" ["x"]; note "d.md" ["x"] ].

End MocExamples.

Module EffortSpec.
Import Py Val Categorize.

(** The number of requests among the events [evs], and the time slept
    during them, in milliseconds. *)
Definition sent (evs : list Event) : nat :=
  foldr (fun e n => match e with ERequest _ => S n | _ => n end) 0 evs.

Definition slept (evs : list Event) : nat :=
  foldr (fun e n => match e with ESleep ms => ms + n | _ => n end) 0 evs.

End EffortSpec.

Module RunSpec.
Import Py Val Categorize CheckpointSpec.

(** The names a run has recorded, in its results and in its errors. *)
Definition logged (s : St) : list string :=
  map r_file (results s) ++ map e_file (errors s).

(** The object when [run] lists the files: without [--resume] the set
    of processed names was emptied first. *)
Definition before_listing (resume : bool) (s : St) : St :=
  if resume then s else set_processed_files ∅ s.

(** The record [_save_checkpoint] dumps for the state [s]. *)
Definition checkpoint_of (s : St) : Checkpoint :=
  {| cp_processed := elements (processed_files s);
     cp_total_processed := length (elements (processed_files s));
     cp_last_file := last (elements (processed_files s)) |}.

Section Program.
Context `{Runtime} `{World}.

(** The files [get_files_to_process] answers in the state [s]. *)
Definition listed (limit : option Z) (s : St) : list path :=
  match (get_files_to_process limit s).1 with
  | Ok l => l
  | Raise _ => []
  end.

End Program.
End RunSpec.

Module FaultExamples.
Import Py Val Categorize Examples.


(** Two documents in the source directory and one already filed. *)
Definition two_docs : St :=
  mkSt (list_to_map
          [ (["input"; "a.md"], plain_doc);
            (["input"; "b.md"], plain_doc);
            (["output"; "areas"; "health"; "z.md"], headered_doc) ])
       (Some old_checkpoint) None 0 [] [] [] ∅.

(** A source directory that holds a document named in the checkpoint
    next to a new one. *)
Definition with_old : St :=
  on_disk [("a.md", plain_doc); ("old.md", plain_doc)] (Some old_checkpoint).

End FaultExamples.

Module GroupSpec.
Import Py Val GenerateMoc.

(** The key under which [group_notes] files a note. *)
Definition key_of (note : Note) : string :=
  category note +:+ "/" +:+ subcategory note.

(** The notes filed under the key [k], in the order of the index. *)
Definition notes_of_key (k : string) (notes : list Note) : list Note :=
  filter (fun note => key_of note = k) notes.

(** The number of notes filed in the dictionary [d], all keys taken
    together. *)
Definition sizes (d : list (string * list Note)) : nat :=
  foldr (fun kv n => length kv.2 + n) 0 d.

End GroupSpec.

Module SplitSpec.
Import Py.

(** The number of occurrences of [sep] in [l]. *)
Fixpoint occurrences (sep : ascii) (l : chars) : nat :=
  match l with
  | [] => 0
  | c :: r => (if Ascii.eqb c sep then 1 else 0) + occurrences sep r
  end.

End SplitSpec.

Module HeaderSpec.
Import Py Val BuildIndex.


End HeaderSpec.

Module RoundTripSpec.
Import Py Val ClassifySpec.

(** The marker that opens and closes a header. *)
Definition dashes : chars := chars_of "---".


(** No occurrence of the marker begins in [x] when [x] is followed by
    [r]. *)
Definition clear_of (x r : chars) : Prop :=
  forall k, k < length x -> starts_with dashes (drop k (x ++ r)) = false.






End RoundTripSpec.

(** * Properties *)

Module PyFacts.
Import Py TextSpec.

Lemma chars_of_app (a b : string) : chars_of (a +:+ b) = chars_of a ++ chars_of b.
Proof. induction a as [|c a IH]; simpl; [done | by rewrite IH]. Qed.

Lemma str_of_chars_of (s : string) : str_of (chars_of s) = s.
Proof. apply string_of_list_ascii_of_string. Qed.

Lemma chars_of_str_of (l : chars) : chars_of (str_of l) = l.
Proof. apply list_ascii_of_string_of_list_ascii. Qed.

Lemma take_drop_while (p : ascii -> bool) (l : chars) :
  l = take_while p l ++ drop_while p l.
Proof. induction l as [|c l IH]; simpl; [done |]. destruct (p c); simpl; congruence. Qed.

Lemma take_while_all (p : ascii -> bool) (l : chars) :
  Forall (fun c => p c = true) (take_while p l).
Proof.
  induction l as [|c l IH]; simpl; [constructor |].
  destruct (p c) eqn:E; constructor; auto.
Qed.

Lemma strip_prefix_Some (p l r : chars) :
  strip_prefix p l = Some r -> l = p ++ r.
Proof.
  revert l. induction p as [|a p IH]; intros [|b l]; simpl; try congruence.
  destruct (Ascii.eqb a b) eqn:E; [|congruence].
  apply Ascii.eqb_eq in E. subst b. intros Hs. by rewrite (IH _ Hs).
Qed.

Lemma not_elem_existsb (c : ascii) (l : chars) :
  existsb (Ascii.eqb c) l = false -> c ∉ l.
Proof.
  induction l as [|d l IH]; simpl; intros E Hin; [by apply elem_of_nil in Hin |].
  apply orb_false_iff in E as [E1 E2].
  apply elem_of_cons in Hin as [-> | Hin]; [by rewrite Ascii.eqb_refl in E1 |].
  by apply IH.
Qed.

Section Framed.
Variable mid : chars.
Let obj : chars := lbrace :: mid ++ [rbrace].

Lemma framed_drop_prefix (x l : chars) :
  framed obj (x ++ l) -> lbrace ∉ x -> framed obj l.
Proof.
  intros (a & b & E & Ha & Hb) Hx.
  apply app_eq_inv in E as [(k & -> & E) | (k & -> & ->)].
  - destruct k as [|c k].
    + simpl in E. subst l. exists [], b. split; [done |]. split; [set_solver | done].
    + exfalso. apply Hx. unfold obj in E. simpl in E. injection E as <- _. set_solver.
  - exists k, b. split; [done |]. split; [|done].
    intros Hk. apply Ha. set_solver.
Qed.

Lemma framed_drop_suffix (l y : chars) :
  framed obj (l ++ y) -> rbrace ∉ y -> framed obj l.
Proof.
  intros (a & b & E & Ha & Hb) Hy.
  rewrite app_assoc in E.
  apply app_eq_inv in E as [(k & -> & ->) | (k & E & ->)].
  - exists a, k. rewrite <- app_assoc. split; [done |]. split; [done |].
    intros Hk. apply Hb. set_solver.
  - destruct (decide (k = [])) as [-> | Hk].
    + rewrite app_nil_r in E. subst l. exists a, []. rewrite app_nil_r.
      split; [done |]. split; [done | set_solver].
    + exfalso. apply Hy.
      assert (Hl : last (a ++ obj) = Some rbrace).
      { unfold obj. rewrite app_comm_cons, app_assoc. apply last_snoc. }
      rewrite E, last_app in Hl.
      destruct (last k) as [c|] eqn:Ek; [|by apply last_None in Ek].
      injection Hl as ->. apply last_Some in Ek as [k' ->]. set_solver.
Qed.

Lemma framed_app_suffix (l y : chars) :
  framed obj l -> rbrace ∉ y -> framed obj (l ++ y).
Proof.
  intros (a & b & -> & Ha & Hb) Hy. exists a, (b ++ y).
  rewrite <- !app_assoc. split; [done |]. split; [done |].
  by apply not_elem_of_app.
Qed.

Lemma spaces_no (c : ascii) (x : chars) :
  is_space c = false -> Forall (fun d => is_space d = true) x -> c ∉ x.
Proof.
  intros Hc Hx Hin. rewrite Forall_forall in Hx. specialize (Hx _ Hin). congruence.
Qed.

Lemma framed_lstrip (l : chars) : framed obj l -> framed obj (drop_while is_space l).
Proof.
  intros Hf. apply (framed_drop_prefix (take_while is_space l)).
  - by rewrite <- take_drop_while.
  - apply spaces_no; [done | apply take_while_all].
Qed.

Lemma rstrip_split (l : chars) :
  l = rstrip_by is_space l ++ rev (take_while is_space (rev l)).
Proof.
  unfold rstrip_by. rewrite <- rev_app_distr, <- take_drop_while. by rewrite rev_involutive.
Qed.

Lemma framed_rstrip (l : chars) : framed obj l -> framed obj (rstrip_by is_space l).
Proof.
  intros Hf. apply (framed_drop_suffix _ (rev (take_while is_space (rev l)))).
  - by rewrite <- rstrip_split.
  - intros Hin. rewrite list_elem_of_In, <- in_rev, <- list_elem_of_In in Hin. revert Hin.
    apply spaces_no; [done | apply take_while_all].
Qed.

Lemma framed_strip (l : chars) : framed obj l -> framed obj (strip_chars l).
Proof. intros Hf. apply framed_rstrip, framed_lstrip, Hf. Qed.

Lemma find_framed (a r : chars) (i : Z) :
  lbrace ∉ a -> find_from [lbrace] (a ++ lbrace :: r) i = (i + Z.of_nat (length a))%Z.
Proof.
  revert i. induction a as [|c a IH]; intros i Ha.
  - simpl. unfold starts_with. simpl. lia.
  - assert (c <> lbrace) by set_solver.
    assert (lbrace ∉ a) by set_solver.
    cbn [app find_from]. unfold starts_with. cbn [strip_prefix].
    destruct (Ascii.eqb lbrace c) eqn:E.
    + apply Ascii.eqb_eq in E. congruence.
    + rewrite IH by done. simpl length. lia.
Qed.

Lemma rfind_absent (c : ascii) (b : chars) (i last : Z) :
  c ∉ b -> rfind_char_from c b i last = last.
Proof.
  revert i last. induction b as [|d b IH]; intros i last Hb; simpl; [done |].
  assert (d <> c) by set_solver.
  destruct (Ascii.eqb d c) eqn:E.
  - apply Ascii.eqb_eq in E. congruence.
  - apply IH. set_solver.
Qed.

Lemma rfind_framed (x b : chars) (i last : Z) :
  rbrace ∉ b ->
  rfind_char_from rbrace (x ++ rbrace :: b) i last = (i + Z.of_nat (length x))%Z.
Proof.
  revert i last. induction x as [|d x IH]; intros i last Hb.
  - cbn [app rfind_char_from]. rewrite Ascii.eqb_refl.
    rewrite rfind_absent by done. simpl length. lia.
  - cbn [app rfind_char_from]. rewrite IH by done. simpl length. lia.
Qed.

Lemma slice_framed (l : chars) :
  framed obj l ->
  let start_idx := find [lbrace] l in
  let end_idx := (rfind_char rbrace l + 1)%Z in
  ((0 <=? start_idx) && (start_idx <? end_idx))%Z = true
  /\ slice l start_idx end_idx = obj.
Proof.
  intros (a & b & -> & Ha & Hb). cbv zeta.
  unfold find, rfind_char.
  assert (E1 : a ++ obj ++ b = a ++ lbrace :: (mid ++ rbrace :: b)).
  { unfold obj. simpl. repeat rewrite <- app_assoc. done. }
  assert (E2 : a ++ obj ++ b = (a ++ lbrace :: mid) ++ rbrace :: b).
  { unfold obj. simpl. repeat rewrite <- app_assoc. done. }
  assert (Hf : find_from [lbrace] (a ++ obj ++ b) 0 = Z.of_nat (length a)).
  { rewrite E1, find_framed by done. lia. }
  assert (Hr : rfind_char_from rbrace (a ++ obj ++ b) 0 (-1)
               = Z.of_nat (length a + S (length mid))).
  { rewrite E2, rfind_framed by done. rewrite length_app. simpl length. lia. }
  rewrite Hf, Hr.
  split.
  - apply andb_true_iff. split; [apply Z.leb_le | apply Z.ltb_lt]; lia.
  - unfold slice.
    replace (Z.to_nat (Z.of_nat (length a))) with (length a) by lia.
    replace (Z.to_nat (Z.of_nat (length a + S (length mid)) + 1) - length a)
      with (length obj) by (unfold obj; simpl; rewrite length_app; simpl; lia).
    rewrite drop_app_length. apply take_app_length.
Qed.

End Framed.
End PyFacts.

Module CategorizeText.
Import Py Val Categorize TextSpec PyFacts.

Section Framed.
Variable mid : chars.
Let obj : chars := lbrace :: mid ++ [rbrace].

Lemma framed_sub_fence_open (l : chars) :
  framed obj l -> framed obj (sub_fence_open l).
Proof.
  intros Hf. unfold sub_fence_open.
  destruct (strip_prefix (chars_of "```jso") l) as [r|] eqn:E; [|done].
  apply strip_prefix_Some in E. subst l.
  apply framed_drop_prefix in Hf; [|by apply not_elem_existsb].
  apply framed_lstrip.
  destruct r as [|c r]; [done |].
  destruct (Ascii.eqb c "n") eqn:Ec; [|done].
  apply Ascii.eqb_eq in Ec. subst c.
  apply (framed_drop_prefix mid ["n"%char]); [done |].
  by apply not_elem_existsb.
Qed.

Lemma framed_sub_fence_close (l : chars) :
  framed obj l -> framed obj (sub_fence_close l).
Proof.
  intros Hf. unfold sub_fence_close.
  assert (Hcase : forall tail r, rev l = tail ++ r -> rbrace ∉ tail ->
      framed obj
        match strip_prefix (chars_of "```") r with
        | Some r' => rev (drop_while is_space r') ++ tail
        | None => l
        end).
  { intros tail r Hr Htail.
    destruct (strip_prefix (chars_of "```") r) as [r'|] eqn:E; [|done].
    apply strip_prefix_Some in E. subst r.
    apply framed_app_suffix; [|done].
    rewrite <- (rev_involutive l), Hr, !rev_app_distr in Hf.
    rewrite (take_drop_while is_space r'), rev_app_distr in Hf.
    rewrite <- !app_assoc in Hf.
    apply framed_drop_suffix in Hf; [done |].
    rewrite !not_elem_of_app. repeat split.
    - intros Hin. rewrite list_elem_of_In, <- in_rev, <- list_elem_of_In in Hin.
      revert Hin. apply spaces_no; [done | apply take_while_all].
    - by apply not_elem_existsb.
    - intros Hin. rewrite list_elem_of_In, <- in_rev, <- list_elem_of_In in Hin.
      by apply Htail. }
  destruct (rev l) as [|c r0] eqn:Er.
  - apply (Hcase [] []); [done | by apply not_elem_existsb].
  - destruct (Ascii.eqb c "010") eqn:Ec.
    + apply Ascii.eqb_eq in Ec. subst c.
      apply (Hcase ["010"%char] r0); [done | by apply not_elem_existsb].
    + apply (Hcase [] (c :: r0)); [done | by apply not_elem_existsb].
Qed.

(** The payload isolated from a framed text is the object. *)
Lemma isolate_payload_framed (pre post : string) :
  existsb (Ascii.eqb lbrace) (chars_of pre) = false ->
  existsb (Ascii.eqb rbrace) (chars_of post) = false ->
  isolate_payload (pre +:+ str_of obj +:+ post) = str_of obj.
Proof.
  intros Hpre Hpost. unfold isolate_payload.
  set (t := sub_fence_close _).
  assert (Hf : framed obj t).
  { apply framed_sub_fence_close, framed_sub_fence_open, framed_strip.
    exists (chars_of pre), (chars_of post).
    rewrite !chars_of_app, chars_of_str_of.
    split; [done |]. split; by apply not_elem_existsb. }
  destruct (slice_framed mid t Hf) as [-> ->]. done.
Qed.

End Framed.
End CategorizeText.

Module CategorizeFacts.
Import Py Val Categorize ClassifySpec.
Local Open Scope res_scope.

Lemma existsb_eq_str (v : pyval) (subs : list string) :
  existsb (eq_str v) subs = true ->
  exists sub, v = PStr sub /\ existsb (String.eqb sub) subs = true.
Proof.
  destruct v; simpl; try (intros E; exfalso; induction subs; simpl in *; congruence).
  intros E. by exists s.
Qed.

Ltac validate_cases result :=
  unfold _validate_result, py_in, subscript, res_bind;
  destruct result as [| | | s | l | d |];
  [ | | |
    destruct (contains (chars_of "category") (chars_of s));
    [destruct (contains (chars_of "subcategory") (chars_of s)) |] |
    destruct (existsb (fun x => eq_str x "category") l);
    [destruct (existsb (fun x => eq_str x "subcategory") l) |] |
    destruct (dict_get "category" d) as [category|];
    [destruct (dict_get "subcategory" d) as [subcategory|];
     [destruct category as [| | | c | | |];
      [ | | | destruct (dict_get c CATEGORIES) as [subs|] | | | ] |] |] | ];
  cbn [negb hashable].

(** Validation answers [True] exactly on the results that satisfy the
    invariant. *)
Lemma _validate_result_true (result : pyval) :
  _validate_result result = Ok true <-> is_valid_classification result = true.
Proof.
  unfold is_valid_classification.
  validate_cases result; try (split; congruence);
    try (destruct subcategory; split; congruence);
    try (destruct category; split; congruence).
  split.
  - intros E. injection E as E. apply existsb_eq_str in E as (sub & -> & E). done.
  - destruct subcategory; try congruence. intros E. f_equal. exact E.
Qed.



Lemma only_service_refl (s : St) : only_service s s.
Proof.
  repeat split; try done. exists []. by rewrite app_nil_r.
Qed.

Lemma only_service_trans (s1 s2 s3 : St) :
  only_service s1 s2 -> only_service s2 s3 -> only_service s1 s3.
Proof.
  intros (F1 & C1 & L1 & R1 & E1 & P1 & N1 & evs1 & T1 & S1)
         (F2 & C2 & L2 & R2 & E2 & P2 & N2 & evs2 & T2 & S2).
  repeat split; try congruence; [lia |].
  exists (evs1 ++ evs2). rewrite T2, T1, <- app_assoc. split; [done |].
  rewrite forallb_app. by rewrite S1, S2.
Qed.

Lemma only_service_step (s : St) (k : nat) (e : Event) :
  calls s <= k -> is_service_event e = true ->
  only_service s (set_trace (trace s ++ [e]) (set_calls k s)).
Proof.
  intros Hk He. repeat split; try done. exists [e]. simpl. by rewrite He.
Qed.

Section Program.
Context `{Runtime} `{World}.

Lemma parse_response_ok (text : string) (result : pyval) :
  parse_response text = Ok result ->
  is_valid_classification result = true
  /\ json_loads (isolate_payload text) = Some result.
Proof.
  unfold parse_response.
  destruct (json_loads (isolate_payload text)) as [r|]; [|done].
  destruct (_validate_result r) as [[|]|e] eqn:E; simpl; try done.
  intros [= <-]. by apply _validate_result_true in E.
Qed.

Lemma messages_create_only_service (prompt : string) (s : St) :
  only_service s (messages_create prompt s).2.
Proof.
  unfold messages_create.
  destruct (service (calls s) prompt); simpl;
    (apply (only_service_step s (S (calls s)) (ERequest prompt)); [lia | done]).
Qed.

Lemma sleep_only_service (ms : nat) (s : St) : only_service s (sleep ms s).2.
Proof.
  unfold sleep, emit. simpl. destruct s; simpl.
  repeat split; try done. exists [ESleep ms]. done.
Qed.

Lemma messages_create_calls (prompt : string) (s : St) :
  calls (messages_create prompt s).2 = S (calls s).
Proof. unfold messages_create. by destruct (service (calls s) prompt). Qed.

Lemma only_service_calls (s s' : St) : only_service s s' -> calls s <= calls s'.
Proof. by intros (_ & _ & _ & _ & _ & _ & N & _). Qed.

Lemma retry_loop_spec (remaining attempt : nat) (prompt : string) (s : St) :
  only_service s (retry_loop remaining attempt prompt s).2
  /\ forall c, (retry_loop remaining attempt prompt s).1 = Ok (Some c) ->
               is_valid_classification c = true
               /\ calls s < calls (retry_loop remaining attempt prompt s).2.
Proof.
  revert attempt s. induction remaining as [|rem IH]; intros attempt s.
  - simpl. split; [apply only_service_refl | done].
  - cbn [retry_loop]. unfold try_except, bind, lift, ret.
    pose proof (messages_create_only_service prompt s) as Hm.
    pose proof (messages_create_calls prompt s) as Hn.
    destruct (messages_create prompt s) as [[text|e] s1]; simpl in Hm, Hn.
    + destruct (parse_response text) as [result|e] eqn:Hp.
      * simpl. split; [done |]. intros c [= <-].
        apply parse_response_ok in Hp as [Hv _]. split; [done | lia].
      * destruct (is_value_error e); [|by split].
        destruct (attempt <? retry_attempts - 1); [|by split].
        pose proof (sleep_only_service (retry_delay * 1000) s1) as Hs.
        destruct (sleep (retry_delay * 1000) s1) as [[[]|e'] s2]; simpl in Hs.
        -- destruct (IH (S attempt) s2) as [IH1 IH2]. split.
           ++ eapply only_service_trans; [done |].
              eapply only_service_trans; done.
           ++ intros c Hc. destruct (IH2 c Hc) as [Hv Hlt]. split; [done |].
              apply only_service_calls in Hs. lia.
        -- split; [|done]. eapply only_service_trans; done.
    + destruct (is_value_error e); [|by split].
      destruct (attempt <? retry_attempts - 1); [|by split].
      pose proof (sleep_only_service (retry_delay * 1000) s1) as Hs.
      destruct (sleep (retry_delay * 1000) s1) as [[[]|e'] s2]; simpl in Hs.
      * destruct (IH (S attempt) s2) as [IH1 IH2]. split.
        -- eapply only_service_trans; [done |].
           eapply only_service_trans; done.
        -- intros c Hc. destruct (IH2 c Hc) as [Hv Hlt]. split; [done |].
           apply only_service_calls in Hs. lia.
      * split; [|done]. eapply only_service_trans; done.
Qed.

(** [classify_note] never raises; it leaves the disk and the object
    alone, and what it returns satisfies the invariant and was answered
    by the service. *)
Lemma classify_note_spec (filepath : path) (s : St) :
  exists o s1,
    classify_note filepath s = (Ok o, s1)
    /\ only_service s s1
    /\ forall c, o = Some c ->
         is_valid_classification c = true /\ calls s < calls s1.
Proof.
  unfold classify_note, try_except, bind, read_text, ret.
  destruct (io_fault OpRead filepath).
  { exists None, s. split; [done |]. split; [apply only_service_refl | done]. }
  destruct (files s !! filepath) as [content|].
  2:{ exists None, s. split; [done |]. split; [apply only_service_refl | done]. }
  destruct (retry_loop_spec retry_attempts 0
              (build_prompt (path_name filepath) (truncate content)) s) as [H1 H2].
  destruct (retry_loop _ _ _ s) as [[o|e] s1]; simpl in *.
  - exists o, s1. split; [done |]. split; [done |]. intros c ->. by apply H2.
  - exists None, s1. by split.
Qed.

End Program.
End CategorizeFacts.

Module ProcessFacts.
Import Py Val Categorize ClassifySpec ProcessSpec CategorizeFacts.
Local Open Scope res_scope.

Lemma valid_inv (c : pyval) :
  is_valid_classification c = true ->
  exists d category subcategory,
    c = PDict d
    /\ dict_get "category" d = Some (PStr category)
    /\ dict_get "subcategory" d = Some (PStr subcategory)
    /\ truthy c = true.
Proof.
  unfold is_valid_classification. destruct c as [| | | | | d |]; try done.
  destruct (dict_get "category" d) as [[| | | category | | |]|] eqn:E1; try done.
  destruct (dict_get "subcategory" d) as [[| | | subcategory | | |]|] eqn:E2; try done.
  intros _. exists d, category, subcategory. repeat split; try done.
  by destruct d.
Qed.

Ltac fin :=
  unfold frame, error_entry; repeat split; simpl;
  try first [done | congruence | lia | by left; split; [|congruence]].

Section Program.
Context `{Runtime} `{World}.

Lemma process_file_outcome (dry_run : bool) (filepath : path) (s : St) :
  process_outcome dry_run filepath s
    (process_file dry_run filepath s).1 (process_file dry_run filepath s).2.
Proof.
  unfold process_file, bind.
  destruct (classify_note_spec filepath s) as (o & s1 & -> & Hs & Hv).
  destruct Hs as (F & C & L & R & E & P & N & evs & T & S).
  destruct o as [c|].
  2:{ simpl. apply (classification_failed _ _ _ _ evs); fin. }
  destruct (Hv c eq_refl) as [Hvalid Hcalls].
  destruct (valid_inv c Hvalid) as (d & category & subcategory & -> & Hcat & Hsub & Ht).
  unfold falsy. rewrite Ht. cbn [negb].
  unfold lift, subscript, get_default. rewrite Hcat, Hsub.
  destruct dry_run.
  - unfold append_result, ret. simpl.
    destruct (dict_get "tags" d); (eapply (previewed _ _ _ _ evs); fin; by rewrite R).
  - assert (Htags : exists t, match dict_get "tags" d with
                              | Some x => Ok x | None => Ok (PList []) end = Ok t)
      by (destruct (dict_get "tags" d); eauto).
    destruct Htags as [t ->].
    unfold add_frontmatter, bind, read_text.
    destruct (io_fault OpRead filepath) eqn:Fr.
    { simpl. apply (aborted _ _ _ _ evs []); rewrite ?app_nil_r; fin. }
    destruct (files s1 !! filepath) as [original|] eqn:Fo.
    2:{ simpl. apply (aborted _ _ _ _ evs []); rewrite ?app_nil_r; fin. }
    assert (Hnew : (if startswith original "---" then ret original
                    else
                      category0 <- lift (subscript (PDict d) "category") ;;
                      subcategory0 <- lift (subscript (PDict d) "subcategory") ;;
                      tags <- lift (get_default (PDict d) "tags" (PList [])) ;;
                      summary <- lift (get_default (PDict d) "summary" (PStr "")) ;;
                      ret (join nl
                             [ "---";
                               "title: " +:+ q (stem (path_name filepath));
                               "category: " +:+ py_str category0;
                               "subcategory: " +:+ py_str subcategory0;
                               "tags: " +:+ json_dumps tags;
                               "summary: " +:+ q (py_str summary);
                               "processed: " +:+ today;
                               "---"; ""; "" ] +:+ original))%M s1
                   = (Ok (content_to_write (path_name filepath) category subcategory
                            d original), s1)).
    { unfold content_to_write, frontmatter_of.
      destruct (startswith original "---"); [done |].
      unfold bind, lift, subscript, get_default, ret. rewrite Hcat, Hsub.
      by destruct (dict_get "tags" d), (dict_get "summary" d). }
    unfold subscript, get_default, lift, bind in Hnew |- *.
    rewrite Hnew. clear Hnew.
    cbn [path_div res_bind]. unfold mkdir.
    destruct (io_fault OpMkdir _) eqn:Fm.
    { simpl. apply (aborted _ _ _ _ evs []); rewrite ?app_nil_r; fin. }
    unfold emit, write_text. cbn [trace files set_trace set_files].
    destruct (io_fault OpWrite _) eqn:Fw.
    { simpl. eapply (aborted _ _ _ _ evs [_]); fin.
      - by rewrite T, <- app_assoc.
      - right. left. split; [eauto | congruence]. }
    unfold unlink. cbn [trace files set_trace set_files].
    destruct (io_fault OpUnlink filepath) eqn:Fu.
    { simpl. eapply (aborted _ _ _ _ evs [_; _]); fin.
      - by rewrite T, <- !app_assoc.
      - right. right. eexists _, _, _. split; [done | congruence]. }
    destruct (<[_ := _]> (files s1) !! filepath) eqn:Fl.
    2:{ simpl. eapply (aborted _ _ _ _ evs [_; _]); fin.
        - by rewrite T, <- !app_assoc.
        - right. right. eexists _, _, _. split; [done | congruence]. }
    unfold append_result, mark_processed, bind, emit, ret.
    cbn -[content_to_write path_str].
    eapply (moved _ _ _ _ evs d category subcategory original);
      cbn -[content_to_write path_str]; fin.
    rewrite T. by repeat rewrite <- app_assoc.
Qed.

End Program.
End ProcessFacts.

Module RunFacts.
Import Py Val Categorize ClassifySpec ProcessSpec CheckpointSpec CategorizeFacts ProcessFacts.

Section Program.
Context `{Runtime} `{World}.

Lemma _save_checkpoint_eq (s : St) :
  _save_checkpoint s =
    (Ok tt,
     mkSt (files s)
          (Some {| cp_processed := elements (processed_files s);
                   cp_total_processed := length (elements (processed_files s));
                   cp_last_file := last (elements (processed_files s)) |})
          (Some {| log_results := results s;
                   log_errors := errors s;
                   log_total_processed := length (results s);
                   log_total_errors := length (errors s) |})
          (calls s)
          ((trace s ++ [ESaveCheckpoint]) ++ [ESaveResults])
          (results s) (errors s) (processed_files s)).
Proof. reflexivity. Qed.

Lemma after_file_cases (dry_run : bool) (total i : nat) (s : St) :
  exists s1 s2,
    after_file dry_run total i s = (Ok tt, s2)
    /\ (s1 = s \/ s1 = (_save_checkpoint s).2)
    /\ (s2 = s1 \/ dry_run = false /\ s2 = set_trace (trace s1 ++ [ESleep 500]) s1).
Proof.
  unfold after_file, bind.
  destruct (i mod 10 =? 0).
  - rewrite _save_checkpoint_eq.
    destruct (negb dry_run && (i <? total)) eqn:E.
    + eexists _, _. split; [reflexivity |]. split; [by right |]. right.
      destruct dry_run; [done |]. by split.
    + eexists _, _. split; [reflexivity |]. split; [by right | by left].
  - unfold ret at 1.
    destruct (negb dry_run && (i <? total)) eqn:E.
    + eexists _, _. split; [reflexivity |]. split; [by left |]. right.
      destruct dry_run; [done |]. by split.
    + eexists _, _. split; [reflexivity |]. split; [by left | by left].
Qed.

(** A property kept by every [process_file] and by every step that
    follows it holds at the end of the loop, however the loop ends. *)
Lemma run_loop_invariant (I : St -> Prop) (dry_run : bool) :
  (forall filepath s, I s -> I (process_file dry_run filepath s).2) ->
  (forall total i s, I s -> I (after_file dry_run total i s).2) ->
  forall total i files s, I s -> I (run_loop dry_run total i files s).2.
Proof.
  intros Hp Ha total i files. revert i.
  induction files as [|filepath rest IH]; intros i s Hs; [done |].
  cbn [run_loop]. unfold bind.
  specialize (Hp filepath s Hs).
  destruct (process_file dry_run filepath s) as [[b|e] s1]; [|done].
  specialize (Ha total i s1 Hp).
  destruct (after_file dry_run total i s1) as [[[]|e] s2]; [|done].
  by apply IH.
Qed.

End Program.
End RunFacts.

Module CheckpointFacts.
Import Py Val Categorize ClassifySpec ProcessSpec CheckpointSpec RunsSpec CategorizeFacts ProcessFacts RunFacts.

Section Program.
Context `{Runtime} `{World}.

Lemma keeps_save_checkpoint (ids : gset string) (s : St) :
  ids ⊆ processed_files s -> keeps ids (_save_checkpoint s).2.
Proof.
  intros Hp. rewrite _save_checkpoint_eq. unfold keeps, checkpoint_ids. simpl.
  by rewrite list_to_set_elements_L.
Qed.

Lemma keeps_process_file (ids : gset string) (dry_run : bool) (filepath : path) (s : St) :
  keeps ids s -> keeps ids (process_file dry_run filepath s).2.
Proof.
  intros [Hc Hp].
  pose proof (process_file_outcome dry_run filepath s) as Ho.
  destruct (process_file dry_run filepath s) as [r s']. simpl in *.
  unfold keeps, checkpoint_ids in *.
  destruct Ho as [s' evs Hf _ _ _ _ P | s' evs c m _ Hf _ _ _ _ _ _ P
                 | s' evs tail e _ Hf _ _ _ _ _ P
                 | s' evs d cat sub orig name target content _ Hf _ _ _ _ _ _ _ _ _ P];
    destruct Hf as (C & _); rewrite C, P; split; try done.
  by apply union_subseteq_r'.
Qed.

Lemma keeps_after_file (ids : gset string) (dry_run : bool) (total i : nat) (s : St) :
  keeps ids s -> keeps ids (after_file dry_run total i s).2.
Proof.
  intros Hk.
  destruct (after_file_cases dry_run total i s) as (s1 & s2 & -> & H1 & H2). simpl.
  assert (Hk1 : keeps ids s1).
  { destruct H1 as [-> | ->]; [done |]. apply keeps_save_checkpoint, Hk. }
  destruct H2 as [-> | [_ ->]]; [done |]. by destruct Hk1.
Qed.

Lemma keeps_main_resume (dry_run : bool) (limit : option Z) (s : St) :
  checkpoint_ids s ⊆ checkpoint_ids (main dry_run limit true s).2.
Proof.
  unfold main, init, run, bind, _load_checkpoint, get_files_to_process, ret.
  cbn [negb].
  set (s1 := match checkpoint_file _ with Some data => _ | None => _ end).
  assert (Hs1 : keeps (checkpoint_ids s) s1.2 /\ s1.1 = Ok tt).
  { subst s1. unfold keeps, checkpoint_ids. simpl.
    destruct (checkpoint_file s) eqn:E; simpl; rewrite ?E; by repeat split. }
  destruct s1 as [[[]|e] s1]; simpl in Hs1; destruct Hs1 as [Hk He]; [|done].
  cbn [length].
  match goal with |- context [length ?l =? 0] => set (fs := l) end.
  destruct (length fs =? 0); [apply Hk |].
  pose proof (run_loop_invariant (keeps (checkpoint_ids s)) dry_run
                (fun f s => keeps_process_file _ dry_run f s)
                (fun t i s => keeps_after_file _ dry_run t i s)
                (length fs) 1 fs s1 Hk) as Hl.
  destruct (run_loop dry_run (length fs) 1 fs s1) as [[[]|e] s2]; simpl in Hl.
  - apply keeps_save_checkpoint, Hl.
  - apply Hl.
Qed.

Lemma run_many_resume (args : list (bool * option Z * bool)) (s : St) :
  Forall (fun a => a.2 = true) args ->
  checkpoint_ids s ⊆ checkpoint_ids (run_many args s).
Proof.
  revert s. induction args as [|[[dry_run limit] resume] args IH]; intros s Ha; [done |].
  apply Forall_cons in Ha as [Hr Ha]. simpl in Hr. subst resume.
  cbn [run_many fold_left]. etrans; [apply (keeps_main_resume dry_run limit) |].
  by apply IH.
Qed.

End Program.
End CheckpointFacts.

Module PreviewFacts.
Import Py Val Categorize ClassifySpec ProcessSpec CheckpointSpec PreviewSpec CategorizeFacts ProcessFacts RunFacts.

Lemma service_is_quiet (evs : list Event) :
  forallb is_service_event evs = true -> forallb is_quiet_event evs = true.
Proof.
  induction evs as [|e evs IH]; simpl; [done |].
  intros [He Hr]%andb_true_iff. rewrite IH by done. by destruct e.
Qed.

Lemma service_not_mark (evs : list Event) :
  forallb is_service_event evs = true -> existsb is_mark evs = false.
Proof.
  induction evs as [|e evs IH]; simpl; [done |].
  intros [He Hr]%andb_true_iff. rewrite IH by done. by destruct e.
Qed.

Lemma preview_only_refl (s : St) : preview_only s s.
Proof.
  repeat split; try done; exists []; by rewrite app_nil_r.
Qed.

Lemma preview_only_trans (s1 s2 s3 : St) :
  preview_only s1 s2 -> preview_only s2 s3 -> preview_only s1 s3.
Proof.
  intros (F1 & P1 & (e1 & T1 & Q1) & (r1 & R1 & D1))
         (F2 & P2 & (e2 & T2 & Q2) & (r2 & R2 & D2)).
  repeat split; try congruence.
  - exists (e1 ++ e2). rewrite T2, T1, <- app_assoc, forallb_app, Q1, Q2. done.
  - exists (r1 ++ r2). rewrite R2, R1, <- app_assoc, forallb_app, D1, D2. done.
Qed.

Section Program.
Context `{Runtime} `{World}.

Lemma process_file_preview (filepath : path) (s : St) :
  exists b s', process_file true filepath s = (Ok b, s') /\ preview_only s s'.
Proof.
  pose proof (process_file_outcome true filepath s) as Ho.
  destruct (process_file true filepath s) as [r s']. simpl in Ho.
  destruct Ho as [s' evs Hf Hs F R _ P | s' evs c m _ Hf Hs _ _ F R _ P
                 | s' evs tail e Hd | s' evs d cat sub orig name target content Hd];
    try discriminate; destruct Hf as (_ & _ & _ & T);
    eexists _, s'; (split; [reflexivity |]); repeat split; try done.
  - exists evs. split; [done | by apply service_is_quiet].
  - exists []. by rewrite app_nil_r.
  - exists evs. split; [done | by apply service_is_quiet].
  - eexists. split; [exact R | done].
Qed.

Lemma after_file_preview (total i : nat) (s : St) :
  exists s', after_file true total i s = (Ok tt, s') /\ preview_only s s'
             /\ (s' = s \/ s' = (_save_checkpoint s).2).
Proof.
  destruct (after_file_cases true total i s) as (s1 & s2 & -> & H1 & H2).
  destruct H2 as [-> | [? _]]; [|done].
  exists s1. split; [done |]. split; [|done].
  destruct H1 as [-> | ->]; [apply preview_only_refl |].
  rewrite _save_checkpoint_eq. repeat split; simpl.
  - exists [ESaveCheckpoint; ESaveResults]. by rewrite <- app_assoc.
  - exists []. by rewrite app_nil_r.
Qed.

Lemma run_loop_preview (total i : nat) (files : list path) (s : St) :
  exists s', run_loop true total i files s = (Ok tt, s') /\ preview_only s s'.
Proof.
  revert i s. induction files as [|filepath rest IH]; intros i s.
  - exists s. split; [done | apply preview_only_refl].
  - cbn [run_loop]. unfold bind.
    destruct (process_file_preview filepath s) as (b & s1 & -> & H1).
    destruct (after_file_preview total i s1) as (s2 & -> & H2 & _).
    destruct (IH (S i) s2) as (s3 & -> & H3).
    exists s3. split; [done |].
    eapply preview_only_trans; [done |]. eapply preview_only_trans; done.
Qed.

End Program.
End PreviewFacts.

Module MainFacts.
Import Py Val Categorize ClassifySpec ProcessSpec CheckpointSpec PreviewSpec MainSpec.

Section Program.
Context `{Runtime} `{World}.

Lemma init_eq (s : St) : init s = (Ok tt, start_state s).
Proof.
  unfold init, bind, _load_checkpoint, start_state, checkpoint_ids. simpl.
  by destruct (checkpoint_file s).
Qed.

Lemma main_eq (dry_run : bool) (limit : option Z) (resume : bool) (s : St) :
  main dry_run limit resume s =
    loop_and_save dry_run limit
      (if resume then start_state s else set_processed_files ∅ (start_state s)).
Proof.
  unfold main, bind. rewrite init_eq. by destruct resume.
Qed.

End Program.
End MainFacts.

Module Retry.
Import Py Val Categorize ClassifySpec ProcessSpec CheckpointSpec RunsSpec PreviewSpec MainSpec.
Import CategorizeFacts ProcessFacts RunFacts CheckpointFacts PreviewFacts.
Local Open Scope res_scope.

Section Program.
Context `{Runtime} `{World}.

Opaque build_prompt.

(** One pass of the retry loop whose answer is refused with a
    [ValueError]: a further attempt follows the fixed delay while
    attempts remain, the error is raised again on the last attempt. *)
Lemma retry_loop_refused (rem attempt : nat) (prompt text : string) (e : exn) (s : St) :
  service (calls s) prompt = Text text ->
  parse_response text = Raise e ->
  is_value_error e = true ->
  retry_loop (S rem) attempt prompt s =
    if attempt <? retry_attempts - 1
    then retry_loop rem (S attempt) prompt (delayed (requested prompt s))
    else (Raise e, requested prompt s).
Proof.
  intros Hs Hp He. cbn [retry_loop].
  unfold try_except, bind, messages_create, lift. rewrite Hs, Hp, He.
  by destruct (attempt <? retry_attempts - 1).
Qed.


Lemma retry_loop_service_failure (rem attempt : nat) (prompt : string) (s : St) :
  service (calls s) prompt = Failure ->
  retry_loop (S rem) attempt prompt s = (Raise APIError, requested prompt s).
Proof.
  intros Hs. cbn [retry_loop].
  unfold try_except, bind, messages_create. by rewrite Hs.
Qed.

(** A service call that raises ends the classification with [None]
    after that one request. *)
Lemma classify_note_service_failure (filepath : path) (content : string) (s : St) :
  io_fault OpRead filepath = false ->
  files s !! filepath = Some content ->
  service (calls s) (prompt_of filepath content) = Failure ->
  classify_note filepath s = (Ok None, requested (prompt_of filepath content) s).
Proof.
  intros Hf Hc Hs. unfold classify_note, try_except, bind, read_text.
  rewrite Hf, Hc. unfold retry_attempts.
  by rewrite (retry_loop_service_failure _ _ _ _ Hs).
Qed.

(** Three answers that do not parse or do not pass the check end the
    classification with [None] after three requests, two seconds
    apart. *)
Lemma classify_note_three_refusals (filepath : path) (content : string)
    (t1 t2 t3 : string) (e1 e2 e3 : exn) (s : St) :
  let prompt := prompt_of filepath content in
  io_fault OpRead filepath = false ->
  files s !! filepath = Some content ->
  service (calls s) prompt = Text t1 ->
  service (S (calls s)) prompt = Text t2 ->
  service (S (S (calls s))) prompt = Text t3 ->
  parse_response t1 = Raise e1 -> is_value_error e1 = true ->
  parse_response t2 = Raise e2 -> is_value_error e2 = true ->
  parse_response t3 = Raise e3 -> is_value_error e3 = true ->
  classify_note filepath s =
    (Ok None,
     requested prompt (delayed (requested prompt (delayed (requested prompt s))))).
Proof.
  intros prompt Hf Hc S1 S2 S3 P1 V1 P2 V2 P3 V3.
  unfold classify_note, try_except, bind, read_text.
  rewrite Hf, Hc. fold prompt. unfold retry_attempts.
  rewrite (retry_loop_refused _ _ _ t1 e1) by done. cbn [Nat.ltb Nat.leb Nat.sub].
  rewrite (retry_loop_refused _ _ _ t2 e2) by done. cbn [Nat.ltb Nat.leb Nat.sub].
  rewrite (retry_loop_refused _ _ _ t3 e3) by done. cbn [Nat.ltb Nat.leb Nat.sub].
  reflexivity.
Qed.

(** C5.  When the classification of a document ends in failure
    ([classify_note] returns [None]: three refused answers, a service
    call that raised, an unreadable file), [process_file] returns
    [False] after adding the error entry of that document and nothing
    else, and the loop of [run] goes on with the next document. *)
Theorem failed_classification_is_recorded_and_skipped
    (dry_run : bool) (total i : nat) (filepath : path) (rest : list path)
    (s s1 : St) :
  classify_note filepath s = (Ok None, s1) ->
  let s2 := set_errors (errors s1 ++ [error_entry filepath]) s1 in
  process_file dry_run filepath s = (Ok false, s2)
  /\ errors s2 = errors s ++ [error_entry filepath]
  /\ exists s3,
       after_file dry_run total i s2 = (Ok tt, s3)
       /\ errors s3 = errors s2
       /\ run_loop dry_run total i (filepath :: rest) s
          = run_loop dry_run total (S i) rest s3.
Proof.
  intros Hc s2.
  assert (Hp : process_file dry_run filepath s = (Ok false, s2)).
  { unfold process_file, bind. by rewrite Hc. }
  split; [done |]. split.
  { destruct (classify_note_spec filepath s) as (o & s1' & Hc' & Hs & _).
    rewrite Hc in Hc'. injection Hc' as <- <-.
    destruct Hs as (_ & _ & _ & _ & E & _). subst s2. simpl. by rewrite E. }
  destruct (after_file_cases dry_run total i s2) as (sa & s3 & Ha & H1 & H2).
  exists s3. split; [done |]. split.
  - assert (errors sa = errors s2).
    { destruct H1 as [-> | ->]; [done |]. by rewrite _save_checkpoint_eq. }
    destruct H2 as [-> | [_ ->]]; done.
  - cbn [run_loop]. unfold bind. by rewrite Hp, Ha.
Qed.

End Program.
End Retry.

Module Classification.
Import Py Val Categorize ClassifySpec ProcessSpec CheckpointSpec RunsSpec PreviewSpec MainSpec.
Import PyFacts CategorizeText CategorizeFacts ProcessFacts RunFacts CheckpointFacts PreviewFacts Retry.
Local Open Scope res_scope.

Section Program.
Context `{Runtime} `{World}.

(** C1 (as amended).  A document of the source directory that already
    begins with the header marker is not skipped: a real run that
    processes it with success has sent it to the service and moved it
    out of the source directory.  What is left untouched is its
    content: the file written at the destination is the content read,
    with no second header. *)
Theorem headered_document_keeps_its_content (name original : string) (s : St) :
  let filepath := source_dir ++ [name] in
  files s !! filepath = Some original ->
  startswith original "---" = true ->
  (process_file false filepath s).1 = Ok true ->
  let s' := (process_file false filepath s).2 in
  calls s < calls s'
  /\ files s' !! filepath = None
  /\ exists category subcategory,
       files s' !! (target_base ++ [category; subcategory; name]) = Some original.
Proof.
  cbv zeta. intros Hf0 Hh.
  pose proof (process_file_outcome false (source_dir ++ [name]) s) as Ho.
  destruct (process_file false (source_dir ++ [name]) s) as [r s']. simpl in Ho |- *.
  destruct Ho as [s' evs Hf Hs _ _ _ P | s' evs c m Hd
                 | s' evs tail e _ Hf Hs _ Ht _ _ P
                 | s' evs d cat sub orig nm target content _ Hf Hs Hcalls _ _ _ Fo F _ _ P];
    intros Hr; try discriminate.
  pose proof (eq_trans (eq_sym Hf0) Fo) as Eo. injection Eo as <-.
  split; [done |]. rewrite F. split; [apply lookup_delete_eq |].
  exists cat, sub. rewrite lookup_delete_ne by done.
  rewrite lookup_insert_eq. subst content. unfold content_to_write. by rewrite Hh.
Qed.


(** C10.  The check reads the keys [category] and [subcategory] only:
    an object whose two values are right passes it whatever else it
    holds or lacks.  For such an object without [tags] and without
    [summary], the header [add_frontmatter] builds records the empty
    list and the empty text. *)
Theorem tags_and_summary_are_optional (d : list (string * pyval))
    (category subcategory : string) (subs : list string)
    (filepath : path) (content : string) (s : St) :
  dict_get "category" d = Some (PStr category) ->
  dict_get "subcategory" d = Some (PStr subcategory) ->
  dict_get category CATEGORIES = Some subs ->
  existsb (String.eqb subcategory) subs = true ->
  json_dumps (PList []) = "[]" ->
  io_fault OpRead filepath = false ->
  files s !! filepath = Some content ->
  startswith content "---" = false ->
  _validate_result (PDict d) = Ok true
  /\ (dict_get "tags" d = None -> dict_get "summary" d = None ->
      add_frontmatter filepath (PDict d) s =
        (Ok (join nl
               [ "---";
                 "title: " +:+ q (stem (path_name filepath));
                 "category: " +:+ category;
                 "subcategory: " +:+ subcategory;
                 "tags: []";
                 "summary: " +:+ q "";
                 "processed: " +:+ today;
                 "---"; ""; "" ] +:+ content), s)).
Proof.
  intros Hc Hs Hsubs Hin Hd Hf Hl Hh. split.
  - apply _validate_result_true. unfold is_valid_classification.
    by rewrite Hc, Hs, Hsubs.
  - intros Ht Hsm.
    unfold add_frontmatter, bind, read_text, lift, subscript, get_default, ret.
    rewrite Hf, Hl, Hh, Hc, Hs, Ht, Hsm. cbn [py_str]. by rewrite Hd.
Qed.

End Program.
End Classification.

Module DryRun.
Import Py Val Categorize ClassifySpec ProcessSpec CheckpointSpec PreviewSpec MainSpec.
Import CategorizeFacts ProcessFacts RunFacts PreviewFacts MainFacts.

Section Program.
Context `{Runtime} `{World}.


End Program.
End DryRun.

Module Checkpointing.
Import Py Val Categorize ClassifySpec ProcessSpec CheckpointSpec RunsSpec PreviewSpec MainSpec.
Import CategorizeFacts ProcessFacts RunFacts CheckpointFacts PreviewFacts.

Section Program.
Context `{Runtime} `{World}.

(** C3.  Over any sequence of runs that resume from the checkpoint
    (a run without [--resume] is the reset: it starts from the empty
    set), the ids recorded in the checkpoint file only grow: every id
    recorded before the runs is recorded after them, so the file never
    holds fewer ids than the run loaded.  This holds for dry runs, for
    any limit, and for runs an exception cuts short. *)
Theorem checkpoint_never_shrinks (args : list (bool * option Z * bool)) (s : St) :
  Forall (fun a => a.2 = true) args ->
  checkpoint_ids s ⊆ checkpoint_ids (run_many args s)
  /\ size (checkpoint_ids s) <= size (checkpoint_ids (run_many args s)).
Proof.
  intros Ha. pose proof (run_many_resume args s Ha) as Hs.
  split; [done |]. by apply subseteq_size.
Qed.

(** C6.  In a real (not dry) processing of the document [name] of the
    source directory, the name enters [processed_files] only as the
    last step of a run of [process_file] that returns [True], directly
    after the content was written at the destination and the source
    was removed; in every other outcome (classification failure, any
    exception before that point) [processed_files] is unchanged and no
    mark was made. *)
Theorem marked_only_after_move (name : string) (s : St) :
  let filepath := source_dir ++ [name] in
  let r := (process_file false filepath s).1 in
  let s' := (process_file false filepath s).2 in
  (r = Ok true
   /\ processed_files s' = {[name]} ∪ processed_files s
   /\ exists evs dir content,
        trace s' = trace s ++ evs ++
          [EMkdir dir; EWriteText (dir ++ [name]) content;
           EUnlink filepath; EMark name]
        /\ existsb is_mark evs = false
        /\ files s' !! (dir ++ [name]) = Some content
        /\ files s' !! filepath = None)
  \/ (r <> Ok true
      /\ processed_files s' = processed_files s
      /\ exists evs, trace s' = trace s ++ evs /\ existsb is_mark evs = false).
Proof.
  cbv zeta.
  pose proof (process_file_outcome false (source_dir ++ [name]) s) as Ho.
  destruct (process_file false (source_dir ++ [name]) s) as [r s']. simpl in Ho |- *.
  destruct Ho as [s' evs Hf Hs _ _ _ P | s' evs c m Hd
                 | s' evs tail e _ Hf Hs _ Ht _ _ P
                 | s' evs d cat sub orig nm target content _ Hf Hs _ _ _ _ _ F _ _ P];
    try discriminate; destruct Hf as (_ & _ & _ & T).
  - right. split; [done |]. split; [done |]. exists evs. split; [done |].
    by apply service_not_mark.
  - right. split; [done |]. split; [done |]. exists (evs ++ tail). split; [done |].
    rewrite existsb_app, service_not_mark by done.
    destruct Ht as [[-> _] | [[(dir & ->) _] | (dir & tg & ct & -> & _)]]; done.
  - left. split; [done |]. split; [done |].
    exists evs, (target_base ++ [cat; sub]), content.
    split; [done |]. split; [by apply service_not_mark |].
    rewrite F. split.
    + rewrite lookup_delete_ne by done. apply lookup_insert_eq.
    + apply lookup_delete_eq.
Qed.

End Program.
End Checkpointing.

Module Payload.
Import Py Val Categorize TextSpec ClassifySpec.
Import PyFacts CategorizeText CategorizeFacts.
Local Open Scope res_scope.

Section Program.
Context `{Runtime}.

Lemma str_of_object (mid : string) :
  str_of (lbrace :: chars_of mid ++ [rbrace]) = "{" +:+ mid +:+ "}".
Proof.
  rewrite <- (str_of_chars_of ("{" +:+ mid +:+ "}")). f_equal.
  by rewrite !chars_of_app.
Qed.

(** C7 (as amended).  When the text before the object holds no opening
    brace and the text after it no closing brace, whatever else they
    hold (prose, code fences, white space), the text handed to the
    decoder is the object itself, and a valid object is returned as
    decoded. *)
Theorem fenced_object_is_recovered (pre mid post : string) (result : pyval) :
  let obj := "{" +:+ mid +:+ "}" in
  has_char "{" pre = false ->
  has_char "}" post = false ->
  json_loads obj = Some result ->
  _validate_result result = Ok true ->
  isolate_payload (pre +:+ obj +:+ post) = obj
  /\ parse_response (pre +:+ obj +:+ post) = Ok result.
Proof.
  cbv zeta. intros Hpre Hpost Hl Hv.
  assert (Hi : isolate_payload (pre +:+ ("{" +:+ mid +:+ "}") +:+ post)
               = "{" +:+ mid +:+ "}").
  { rewrite <- str_of_object. by apply isolate_payload_framed. }
  split; [done |]. unfold parse_response. by rewrite Hi, Hl, Hv.
Qed.

End Program.
End Payload.

Module DictFacts.
Import Py Val GenerateMoc.

Lemma eqb_false_ne (a b : string) : String.eqb a b = false <-> a <> b.
Proof. apply String.eqb_neq. Qed.

Lemma dict_get_set_eq {V : Type} (k : string) (v : V) (d : list (string * V)) :
  dict_get k (dict_set k v d) = Some v.
Proof.
  induction d as [|[k' v'] d IH]; simpl.
  - by rewrite String.eqb_refl.
  - destruct (String.eqb k k') eqn:E; simpl; [by rewrite String.eqb_refl |].
    by rewrite E.
Qed.

Lemma dict_get_set_ne {V : Type} (k j : string) (v : V) (d : list (string * V)) :
  j <> k -> dict_get j (dict_set k v d) = dict_get j d.
Proof.
  intros Hne. induction d as [|[k' v'] d IH]; simpl.
  - apply String.eqb_neq in Hne. by rewrite Hne.
  - destruct (String.eqb k k') eqn:E; simpl.
    + apply String.eqb_eq in E. subst k'.
      apply String.eqb_neq in Hne. by rewrite Hne.
    + by rewrite IH.
Qed.

Lemma dict_set_keys {V : Type} (k : string) (v : V) (d : list (string * V)) :
  map fst (dict_set k v d) =
    if bool_decide (k ∈ map fst d) then map fst d else map fst d ++ [k].
Proof.
  induction d as [|[k' v'] d IH]; simpl; [done |].
  destruct (String.eqb k k') eqn:E.
  - apply String.eqb_eq in E. subst k'. simpl.
    rewrite bool_decide_eq_true_2; [done | by left].
  - apply String.eqb_neq in E. simpl. rewrite IH.
    destruct (bool_decide (k ∈ map fst d)) eqn:B.
    + apply bool_decide_eq_true in B. rewrite bool_decide_eq_true_2; [done | by right].
    + apply bool_decide_eq_false in B.
      rewrite bool_decide_eq_false_2; [done |].
      intros [?|?]%elem_of_cons; [by apply E | by apply B].
Qed.

Lemma dict_set_NoDup {V : Type} (k : string) (v : V) (d : list (string * V)) :
  NoDup (map fst d) -> NoDup (map fst (dict_set k v d)).
Proof.
  intros Hd. rewrite dict_set_keys.
  destruct (bool_decide (k ∈ map fst d)) eqn:B; [done |].
  apply bool_decide_eq_false in B. apply NoDup_app. split; [done |].
  split; [|apply NoDup_singleton].
  intros x Hx Hk. apply list_elem_of_singleton in Hk. by subst x.
Qed.

Lemma dict_get_elem {V : Type} (k : string) (v : V) (d : list (string * V)) :
  dict_get k d = Some v -> (k, v) ∈ d.
Proof.
  induction d as [|[k' v'] d IH]; simpl; [done |].
  destruct (String.eqb k k') eqn:E.
  - apply String.eqb_eq in E. subst k'. intros [= ->]. by left.
  - intros Hg. right. by apply IH.
Qed.

Lemma dict_elem_get {V : Type} (k : string) (v : V) (d : list (string * V)) :
  NoDup (map fst d) -> (k, v) ∈ d -> dict_get k d = Some v.
Proof.
  induction d as [|[k' v'] d IH]; simpl; intros Hd Hin.
  - by apply elem_of_nil in Hin.
  - apply NoDup_cons in Hd as [Hk Hd].
    apply elem_of_cons in Hin as [[= <- <-] | Hin].
    + by rewrite String.eqb_refl.
    + destruct (String.eqb k k') eqn:E; [|by apply IH].
      apply String.eqb_eq in E. subst k'. exfalso. apply Hk.
      apply list_elem_of_fmap. by exists (k, v).
Qed.

End DictFacts.

Module MocFacts.
Import Py Val GenerateMoc MocSpec DictFacts.

Lemma filed_dict_append (k tag : string) (note : Note) (d : list (string * list Note)) :
  filed (dict_append k note d) tag
  = filed d tag + (if bool_decide (k = tag) then 1 else 0).
Proof.
  unfold filed, dict_append. destruct (bool_decide (k = tag)) eqn:B.
  - apply bool_decide_eq_true in B. subst k. rewrite dict_get_set_eq. simpl.
    by rewrite length_app.
  - apply bool_decide_eq_false in B. rewrite dict_get_set_ne by done. lia.
Qed.

Lemma no_empty_dict_append (k : string) (note : Note) (d : list (string * list Note)) :
  no_empty_group d -> no_empty_group (dict_append k note d).
Proof.
  intros Hd j l. unfold dict_append. destruct (decide (j = k)) as [-> | Hne].
  - rewrite dict_get_set_eq. intros [= <-]. by destruct (default [] (dict_get k d)).
  - rewrite dict_get_set_ne by done. apply Hd.
Qed.

Lemma add_tags_spec (note : Note) (d : list (string * list Note)) (tag : string) :
  tag <> "" ->
  filed (add_tags note d) tag
  = filed d tag + length (filter (fun t => t = tag) (tags note)).
Proof.
  intros Hne. unfold add_tags. revert d.
  induction (tags note) as [|t ts IH]; intros d; simpl; [lia |].
  rewrite IH. destruct (String.eqb t "") eqn:E.
  - apply String.eqb_eq in E. subst t.
    rewrite filter_cons_False by done. done.
  - rewrite filed_dict_append. destruct (bool_decide (t = tag)) eqn:B.
    + apply bool_decide_eq_true in B. rewrite filter_cons_True by done. simpl. lia.
    + apply bool_decide_eq_false in B. rewrite filter_cons_False by done. lia.
Qed.

Lemma add_tags_keeps (note : Note) (d : list (string * list Note)) :
  NoDup (map fst d) -> no_empty_group d ->
  NoDup (map fst (add_tags note d)) /\ no_empty_group (add_tags note d).
Proof.
  unfold add_tags. revert d.
  induction (tags note) as [|t ts IH]; intros d Hn He; simpl; [done |].
  apply IH; destruct (String.eqb t ""); try done.
  - by apply dict_set_NoDup.
  - by apply no_empty_dict_append.
Qed.

Lemma by_tag_fold (notes : list Note) (g : Groups) :
  by_tag
    (fold_left
       (fun g note =>
          {| by_subcategory :=
               dict_append (category note +:+ "/" +:+ subcategory note) note
                 (by_subcategory g);
             by_tag := add_tags note (by_tag g) |})
       notes g)
  = fold_left (fun d note => add_tags note d) notes (by_tag g).
Proof. revert g. induction notes as [|n notes IH]; intros g; simpl; [done | by rewrite IH]. Qed.

Lemma fold_add_tags_spec (notes : list Note) (d : list (string * list Note)) (tag : string) :
  tag <> "" ->
  filed (fold_left (fun d note => add_tags note d) notes d) tag
  = filed d tag + tag_count tag notes.
Proof.
  intros Hne. revert d. induction notes as [|n notes IH]; intros d; simpl; [lia |].
  rewrite IH, add_tags_spec by done. lia.
Qed.

Lemma fold_add_tags_keeps (notes : list Note) (d : list (string * list Note)) :
  NoDup (map fst d) -> no_empty_group d ->
  NoDup (map fst (fold_left (fun d note => add_tags note d) notes d))
  /\ no_empty_group (fold_left (fun d note => add_tags note d) notes d).
Proof.
  revert d. induction notes as [|n notes IH]; intros d Hn He; simpl; [done |].
  destruct (add_tags_keeps n d Hn He). by apply IH.
Qed.

(** [group_notes] files a note under a non-empty tag once for each time
    the note lists it; its keys are distinct and no group is empty. *)
Lemma by_tag_group_notes (notes : list Note) (tag : string) :
  tag <> "" ->
  filed (by_tag (group_notes notes)) tag = tag_count tag notes
  /\ NoDup (map fst (by_tag (group_notes notes)))
  /\ no_empty_group (by_tag (group_notes notes)).
Proof.
  intros Hne. unfold group_notes. rewrite by_tag_fold. simpl.
  split; [by rewrite fold_add_tags_spec |].
  apply fold_add_tags_keeps; [constructor | done].
Qed.

Lemma tag_count_no_repeat (tag : string) (notes : list Note) :
  Forall (fun note => NoDup (tags note)) notes ->
  tag_count tag notes = notes_with_tag tag notes.
Proof.
  unfold notes_with_tag. induction 1 as [|n notes Hn _ IH]; simpl; [done |].
  rewrite IH. destruct (decide (tag ∈ tags n)) as [Hin | Hout].
  - rewrite filter_cons_True by done. simpl. f_equal.
    clear IH. induction Hn as [|t ts Ht Hts IHt]; [by apply elem_of_nil in Hin |].
    apply elem_of_cons in Hin as [-> | Hin].
    + rewrite filter_cons_True by done. simpl. f_equal.
      clear IHt. induction ts as [|u ts IHu]; [done |].
      apply not_elem_of_cons in Ht as [Hu Ht]. apply NoDup_cons in Hts as [_ Hts].
      rewrite filter_cons_False by done. by apply IHu.
    + rewrite filter_cons_False by (intros ->; done). by apply IHt.
  - rewrite filter_cons_False by done.
    replace (length (filter (fun t => t = tag) (tags n))) with 0; [done |].
    symmetry. clear IH Hn. induction (tags n) as [|t ts IHt]; [done |].
    apply not_elem_of_cons in Hout as [Hne Hout].
    rewrite filter_cons_False by done. by apply IHt.
Qed.

End MocFacts.

Module HubFacts.
Import Py Val GenerateMoc MocSpec DictFacts MocFacts.

Lemma chars_of_app' (a b : string) : chars_of (a +:+ b) = chars_of a ++ chars_of b.
Proof. induction a as [|c a IH]; simpl; [done | by rewrite IH]. Qed.

Lemma chars_of_inj (a b : string) : chars_of a = chars_of b -> a = b.
Proof.
  intros E. rewrite <- (string_of_list_ascii_of_string a),
                    <- (string_of_list_ascii_of_string b).
  unfold chars_of in E. by rewrite E.
Qed.

Lemma tag_filename_inj (a b : string) : tag_filename a = tag_filename b -> a = b.
Proof.
  unfold tag_filename. intros E. apply (f_equal chars_of) in E.
  rewrite !chars_of_app' in E. apply app_inv_head in E. apply app_inv_tail in E.
  by apply chars_of_inj.
Qed.

Section Hubs.
Context `{Config}.
Variable today : string.
Variable write_fault : string -> bool.

Lemma elem_of_tag_mocs (g : Groups) (f c : string) :
  (f, c) ∈ tag_mocs today g <->
  exists tag l, (tag, l) ∈ by_tag g /\ min_notes_for_tag_moc <= length l
                /\ f = tag_filename tag /\ c = generate_tag_moc today tag l.
Proof.
  unfold tag_mocs. rewrite list_elem_of_omap. split.
  - intros ([tag l] & Hin & Hs).
    destruct (min_notes_for_tag_moc <=? length l) eqn:E; [|done].
    injection Hs as <- <-. apply Nat.leb_le in E. by exists tag, l.
  - intros (tag & l & Hin & Hle & -> & ->). exists (tag, l). split; [done |].
    apply Nat.leb_le in Hle. by rewrite Hle.
Qed.

Lemma tag_mocs_NoDup (g : Groups) :
  NoDup (map fst (by_tag g)) -> NoDup (map fst (tag_mocs today g)).
Proof.
  unfold tag_mocs. induction (by_tag g) as [|[tag l] d IH]; simpl; [constructor |].
  intros [Hk Hd]%NoDup_cons.
  destruct (min_notes_for_tag_moc <=? length l); [|by apply IH].
  simpl. apply NoDup_cons. split; [|by apply IH].
  intros Hin. apply Hk. apply list_elem_of_fmap in Hin as ([f c] & Ef & Hin).
  simpl in Ef. subst f. apply list_elem_of_omap in Hin as ([tag' l'] & Hin & Hs).
  destruct (min_notes_for_tag_moc <=? length l'); [|done].
  pose proof (f_equal (fun o => match o with Some p => fst p | None => "" end) Hs) as Ef.
  change (tag_filename tag' = tag_filename tag) in Ef.
  apply tag_filename_inj in Ef. subst tag'.
  apply list_elem_of_fmap. by exists (tag, l').
Qed.

Lemma save_all_app (a b : list (res (string * string))) (preview : bool)
    (dir dir' : gmap string string) :
  save_all write_fault (a ++ b) preview dir = (Ok tt, dir') ->
  exists d1, save_all write_fault a preview dir = (Ok tt, d1)
             /\ save_all write_fault b preview d1 = (Ok tt, dir').
Proof.
  revert dir. induction a as [|[[f c]|e] a IH]; intros dir; simpl.
  - intros Hs. by exists dir.
  - destruct (save_moc write_fault f c preview dir) as [d|e]; [apply IH | done].
  - done.
Qed.

Lemma save_all_other (l : list (string * string)) (dir dir' : gmap string string)
    (f : string) :
  save_all write_fault (map Ok l) false dir = (Ok tt, dir') ->
  f ∉ map fst l -> dir' !! f = dir !! f.
Proof.
  revert dir. induction l as [|[f0 c0] l IH]; intros dir; simpl.
  - by intros [= ->].
  - unfold save_moc. destruct (write_fault f0); [done |].
    intros Hs [Hne Hf]%not_elem_of_cons. rewrite (IH _ Hs Hf).
    by apply lookup_insert_ne.
Qed.

Lemma save_all_written (l : list (string * string)) (dir dir' : gmap string string)
    (f c : string) :
  save_all write_fault (map Ok l) false dir = (Ok tt, dir') ->
  NoDup (map fst l) -> (f, c) ∈ l -> dir' !! f = Some c.
Proof.
  revert dir. induction l as [|[f0 c0] l IH]; intros dir; simpl.
  - intros _ _ Hin. by apply elem_of_nil in Hin.
  - unfold save_moc. destruct (write_fault f0); [done |].
    intros Hs [Hk Hd]%NoDup_cons [[= -> ->] | Hin]%elem_of_cons.
    + rewrite (save_all_other _ _ _ _ Hs Hk). apply lookup_insert_eq.
    + by apply (IH _ Hs).
Qed.

End Hubs.
End HubFacts.

Module TagHubs.
Import Py Val GenerateMoc MocSpec DictFacts MocFacts HubFacts.

Section Hubs.
Context `{Config}.
Variable today : string.
Variable write_fault : string -> bool.

(** C8 (as amended).  For a non-empty tag, what decides is the number
    of times the notes list it (the number of notes bearing it when no
    note lists it twice): below the threshold the third loop of [main]
    makes no hub for the tag, so with exactly threshold - 1 listings
    there is none; with exactly threshold listings (at least one) the
    hub is made, and a run of [main] outside preview mode that ends
    normally leaves it in the hub directory. *)
Theorem tag_hub_threshold (notes : list Note) (tag : string) :
  tag <> "" ->
  let hubs := tag_mocs today (group_notes notes) in
  (tag_count tag notes < min_notes_for_tag_moc ->
   tag_filename tag ∉ map fst hubs)
  /\ (tag_count tag notes + 1 = min_notes_for_tag_moc ->
      tag_filename tag ∉ map fst hubs)
  /\ (tag_count tag notes = min_notes_for_tag_moc -> 0 < min_notes_for_tag_moc ->
      exists l,
        length l = min_notes_for_tag_moc
        /\ (tag_filename tag, generate_tag_moc today tag l) ∈ hubs
        /\ forall dir dir',
             main today write_fault false notes dir = (Ok tt, dir') ->
             dir' !! tag_filename tag = Some (generate_tag_moc today tag l))
  /\ (Forall (fun note => NoDup (tags note)) notes ->
      tag_count tag notes = notes_with_tag tag notes).
Proof.
  intros Hne hubs.
  destruct (by_tag_group_notes notes tag Hne) as (Hc & Hn & He).
  assert (Hbelow : tag_count tag notes < min_notes_for_tag_moc ->
                   tag_filename tag ∉ map fst hubs).
  { intros Hlt Hin. apply list_elem_of_fmap in Hin as ([f c] & Ef & Hin).
    simpl in Ef. subst f.
    apply elem_of_tag_mocs in Hin as (tag' & l & Hin & Hle & Ef & _).
    apply tag_filename_inj in Ef. subst tag'.
    apply dict_elem_get in Hin; [|done].
    unfold filed in Hc. rewrite Hin in Hc. simpl in Hc. lia. }
  split; [done |]. split; [intros; apply Hbelow; lia |]. split.
  - intros Heq Hpos. unfold filed in Hc.
    destruct (dict_get tag (by_tag (group_notes notes))) as [l|] eqn:Hg;
      simpl in Hc; [|lia].
    exists l. split; [lia |].
    assert (Hin : (tag_filename tag, generate_tag_moc today tag l) ∈ hubs).
    { apply elem_of_tag_mocs. exists tag, l. split; [by apply dict_get_elem |].
      split; [lia | done]. }
    split; [done |]. intros dir dir' Hm. unfold main in Hm.
    destruct notes as [|n notes']; [by apply elem_of_nil in Hin |].
    rewrite app_assoc in Hm. apply save_all_app in Hm as (d1 & _ & Hm).
    apply (save_all_written _ _ _ _ _ _ Hm); [|done].
    by apply tag_mocs_NoDup.
  - apply tag_count_no_repeat.
Qed.

End Hubs.
End TagHubs.

Module TagsField.
Import Py Val BuildIndex IndexSpec.
Local Open Scope res_scope.

Section Indexer.
Context `{Runtime}.
Variable yaml : option (string -> option pyval).



End Indexer.
End TagsField.

Module Concrete.
Import Py Val Categorize TextSpec ClassifySpec ProcessSpec CheckpointSpec RunsSpec PreviewSpec MainSpec Examples.
Local Open Scope res_scope.

Abbreviation rt := Json.runtime.

(** C1, counterexample.  A real run over a source directory holding
    one headered document sends it to the service and moves it: after
    the run it is gone from [input/] and stands, unchanged, under
    [output/areas/health/]. *)
Lemma headered_document_is_classified_and_moved :
  let s' := (@main rt (answering object_text) false None false one_headered).2 in
  files one_headered !! ["input"; "h.md"] = Some headered_doc
  /\ startswith headered_doc "---" = true
  /\ calls s' = 1
  /\ files s' !! ["input"; "h.md"] = None
  /\ files s' !! ["output"; "areas"; "health"; "h.md"] = Some headered_doc.
Proof. vm_compute. repeat split. Qed.

Lemma headered_document_keeps_its_content_witness :
  files one_headered !! (source_dir ++ ["h.md"]) = Some headered_doc
  /\ startswith headered_doc "---" = true
  /\ (@process_file rt (answering object_text) false (source_dir ++ ["h.md"])
        one_headered).1 = Ok true
  /\ let s' := (@process_file rt (answering object_text) false
                  (source_dir ++ ["h.md"]) one_headered).2 in
     calls one_headered < calls s'
     /\ files s' !! (source_dir ++ ["h.md"]) = None
     /\ exists category subcategory,
          files s' !! (target_base ++ [category; subcategory; "h.md"])
          = Some headered_doc.
Proof.
  assert (H1 : files one_headered !! (source_dir ++ ["h.md"]) = Some headered_doc)
    by (vm_compute; reflexivity).
  assert (H2 : startswith headered_doc "---" = true) by (vm_compute; reflexivity).
  assert (H3 : (@process_file rt (answering object_text) false (source_dir ++ ["h.md"])
                  one_headered).1 = Ok true) by (vm_compute; reflexivity).
  split; [exact H1 |]. split; [exact H2 |]. split; [exact H3 |].
  exact (@Classification.headered_document_keeps_its_content rt (answering object_text)
           "h.md" headered_doc one_headered H1 H2 H3).
Defined.


Lemma checkpoint_never_shrinks_witness :
  Forall (fun a : bool * option Z * bool => a.2 = true)
    [ (true, None, true); (false, Some 5%Z, true) ]
  /\ checkpoint_ids resumed
     ⊆ checkpoint_ids
         (@run_many rt (answering object_text)
            [ (true, None, true); (false, Some 5%Z, true) ] resumed)
  /\ size (checkpoint_ids resumed)
     <= size (checkpoint_ids
                (@run_many rt (answering object_text)
                   [ (true, None, true); (false, Some 5%Z, true) ] resumed)).
Proof.
  assert (Ha : Forall (fun a : bool * option Z * bool => a.2 = true)
                 [ (true, None, true); (false, Some 5%Z, true) ])
    by (repeat constructor).
  split; [exact Ha |].
  exact (@Checkpointing.checkpoint_never_shrinks rt (answering object_text) _ resumed Ha).
Defined.



Lemma failed_classification_witness :
  let filepath := source_dir ++ ["a.md"] in
  let s1 := (@classify_note rt failing filepath one_plain).2 in
  let s2 := set_errors (errors s1 ++ [error_entry filepath]) s1 in
  @classify_note rt failing filepath one_plain = (Ok None, s1)
  /\ @process_file rt failing false filepath one_plain = (Ok false, s2)
  /\ errors s2 = errors one_plain ++ [error_entry filepath].
Proof.
  intros filepath s1 s2.
  assert (H1 : @classify_note rt failing filepath one_plain = (Ok None, s1))
    by (vm_compute; reflexivity).
  split; [exact H1 |].
  destruct (@Retry.failed_classification_is_recorded_and_skipped rt failing
              false 1 1 filepath [] one_plain s1 H1) as (Hp & He & _).
  split; [exact Hp | exact He].
Defined.

(** C7, counterexample.  The object stands in a code fence after a line
    of prose that holds a brace: the text handed to the decoder starts
    at that brace, and the answer is refused although the object alone
    decodes and is valid. *)
Lemma prose_with_a_brace_is_not_parsed :
  @json_loads rt object_text = Some object_value
  /\ @parse_response rt object_text = Ok object_value
  /\ isolate_payload braced_answer <> object_text
  /\ @parse_response rt braced_answer = Raise JSONDecodeError.
Proof. vm_compute. repeat split. discriminate. Qed.

Lemma fenced_object_is_recovered_witness :
  has_char "{" prose_before = false
  /\ has_char "}" prose_after = false
  /\ @json_loads rt ("{" +:+ object_inside +:+ "}") = Some object_value
  /\ _validate_result object_value = Ok true
  /\ isolate_payload (prose_before +:+ ("{" +:+ object_inside +:+ "}") +:+ prose_after)
     = "{" +:+ object_inside +:+ "}"
  /\ @parse_response rt
       (prose_before +:+ ("{" +:+ object_inside +:+ "}") +:+ prose_after)
     = Ok object_value.
Proof.
  assert (H1 : has_char "{" prose_before = false) by (vm_compute; reflexivity).
  assert (H2 : has_char "}" prose_after = false) by (vm_compute; reflexivity).
  assert (H3 : @json_loads rt ("{" +:+ object_inside +:+ "}") = Some object_value)
    by (vm_compute; reflexivity).
  assert (H4 : _validate_result object_value = Ok true) by (vm_compute; reflexivity).
  split; [exact H1 |]. split; [exact H2 |]. split; [exact H3 |]. split; [exact H4 |].
  exact (@Payload.fenced_object_is_recovered rt prose_before object_inside prose_after
           object_value H1 H2 H3 H4).
Defined.

Lemma tags_and_summary_are_optional_witness :
  let d := [ ("category", PStr "areas"); ("subcategory", PStr "health") ] in
  let filepath := source_dir ++ ["a.md"] in
  _validate_result (PDict d) = Ok true
  /\ @add_frontmatter rt (answering object_text) filepath (PDict d) one_plain =
       (Ok (join nl
              [ "---"; "title: " +:+ q "a"; "category: areas";
                "subcategory: health"; "tags: []"; "summary: " +:+ q "";
                "processed: 2026-01-01"; "---"; ""; "" ] +:+ plain_doc),
        one_plain).
Proof.
  intros d filepath.
  destruct (@Classification.tags_and_summary_are_optional rt (answering object_text)
              d "areas" "health" ["health"; "finance"; "career"; "family"]
              filepath plain_doc one_plain)
    as [Hv Ha]; try (vm_compute; reflexivity).
  split; [exact Hv |].
  exact (Ha eq_refl eq_refl).
Defined.

End Concrete.

Module ConcreteIndex.
Import Py Val BuildIndex IndexSpec IndexExamples.

Abbreviation rt := Json.runtime.



End ConcreteIndex.

Module ConcreteMoc.
Import Py Val GenerateMoc MocSpec MocExamples.

(** C8, counterexample.  With the threshold of 5, a tag borne by four
    notes, one of which lists it twice, gets its hub. *)
Lemma repeated_tag_gets_a_hub :
  @min_notes_for_tag_moc CONFIG = 5
  /\ notes_with_tag "x" repeated_tag = 4
  /\ tag_filename "x"
     ∈ map fst (@tag_mocs CONFIG "2026-01-01" (group_notes repeated_tag)).
Proof.
  split; [reflexivity |]. split; [vm_compute; reflexivity |].
  apply (bool_decide_unpack _). vm_compute. exact I.
Qed.

Lemma tag_hub_threshold_witness :
  "python" <> ""
  /\ tag_count "python" python_sql = @min_notes_for_tag_moc threshold_two
  /\ exists l,
       length l = @min_notes_for_tag_moc threshold_two
       /\ (tag_filename "python", @generate_tag_moc "2026-01-01" "python" l)
          ∈ @tag_mocs threshold_two "2026-01-01" (group_notes python_sql).
Proof.
  assert (H1 : "python" <> "") by discriminate.
  split; [exact H1 |]. split; [reflexivity |].
  destruct (@TagHubs.tag_hub_threshold threshold_two "2026-01-01" (fun _ => false)
              python_sql "python" H1) as (_ & _ & Hhub & _).
  destruct (Hhub eq_refl (Nat.lt_0_succ 1)) as (l & Hl & Hin & _).
  exists l. split; [exact Hl | exact Hin].
Defined.

End ConcreteMoc.

(** * Further properties *)

Module ListingFacts.
Import Py Val Categorize.

Lemma leb_trans (a b c : string) :
  String.leb a b = true -> String.leb b c = true -> String.leb a c = true.
Proof.
  unfold String.leb. revert b c.
  induction a as [|x a IH]; intros [|y b] [|z c]; simpl; try done.
  unfold Ascii.compare.
  destruct (N.compare_spec (N_of_ascii x) (N_of_ascii y)) as [E1|L1|G1],
           (N.compare_spec (N_of_ascii y) (N_of_ascii z)) as [E2|L2|G2],
           (N.compare_spec (N_of_ascii x) (N_of_ascii z)) as [E3|L3|G3];
    try done; try lia.
  apply IH.
Qed.

Section Sorting.
Context {A : Type} (le : A -> A -> bool).

Lemma insert_by_perm (x : A) (l : list A) : insert_by le x l ≡ₚ x :: l.
Proof.
  induction l as [|y l IH]; simpl; [done |].
  destruct (le x y); [done |].
  rewrite IH. apply Permutation_swap.
Qed.

Lemma sort_by_perm (l : list A) : sort_by le l ≡ₚ l.
Proof.
  induction l as [|x l IH]; simpl; [done |].
  unfold sort_by in *. simpl. rewrite insert_by_perm. by rewrite IH.
Qed.

Hypothesis le_total : forall a b, le a b = true \/ le b a = true.
Hypothesis le_trans : forall a b c, le a b = true -> le b c = true -> le a c = true.

Lemma insert_by_sorted (x : A) (l : list A) :
  StronglySorted (fun a b => le a b = true) l ->
  StronglySorted (fun a b => le a b = true) (insert_by le x l).
Proof.
  induction 1 as [|y l Hs IH Hy]; simpl.
  - repeat constructor.
  - destruct (le x y) eqn:E.
    + constructor; [by constructor |].
      constructor; [done |].
      eapply Forall_impl; [exact Hy |]. intros z Hz. by eapply le_trans.
    + constructor; [done |].
      rewrite insert_by_perm. constructor; [| done].
      destruct (le_total x y) as [Hxy | Hyx]; [congruence | done].
Qed.

Lemma sort_by_sorted (l : list A) :
  StronglySorted (fun a b => le a b = true) (sort_by le l).
Proof.
  induction l as [|x l IH]; [constructor |].
  apply insert_by_sorted, IH.
Qed.

End Sorting.

Lemma elem_of_glob_md (fs : gmap path string) (name : string) :
  name ∈ glob_md fs
  <-> is_Some (fs !! (source_dir ++ [name])) /\ endswith name ".md" = true.
Proof.
  unfold glob_md. rewrite list_elem_of_omap. split.
  - intros (p & Hp & Hf).
    change (map fst (map_to_list fs)) with ((map_to_list fs).*1) in Hp.
    apply list_elem_of_fmap in Hp as ([p' c] & -> & Hpc).
    apply elem_of_map_to_list in Hpc. simpl in Hf.
    destruct p' as [|d [|n [|? ?]]]; try discriminate.
    destruct (String.eqb d "input") eqn:Ed; [| discriminate].
    destruct (endswith n ".md") eqn:En; [| discriminate].
    simpl in Hf. injection Hf as <-.
    apply String.eqb_eq in Ed as ->. split; [by eexists | done].
  - intros [[c Hc] He]. exists (source_dir ++ [name]). split.
    + change (map fst (map_to_list fs)) with ((map_to_list fs).*1).
      apply list_elem_of_fmap. exists (source_dir ++ [name], c). split; [done |].
      by apply elem_of_map_to_list.
    + simpl. by rewrite He.
Qed.

Lemma NoDup_glob_md (fs : gmap path string) : NoDup (glob_md fs).
Proof.
  unfold glob_md.
  change (map fst (map_to_list fs)) with ((map_to_list fs).*1).
  pose proof (NoDup_fst_map_to_list fs) as Hnd.
  induction Hnd as [|p l Hp Hl IH]; simpl; [constructor |].
  destruct p as [|d [|n [|? ?]]]; try exact IH.
  destruct (String.eqb d "input" && endswith n ".md") eqn:E; [| exact IH].
  constructor; [| exact IH].
  intros Hin. apply list_elem_of_omap in Hin as (p' & Hp' & Hf).
  destruct p' as [|d' [|n' [|? ?]]]; try discriminate.
  destruct (String.eqb d' "input") eqn:Ed'; [| discriminate].
  destruct (endswith n' ".md"); [| discriminate].
  simpl in Hf. injection Hf as ->.
  apply andb_true_iff in E as [Ed _].
  apply String.eqb_eq in Ed as ->. apply String.eqb_eq in Ed' as ->.
  done.
Qed.

Lemma filter_sorted {A : Type} (R : A -> A -> Prop) (P : A -> Prop)
    `{forall x, Decision (P x)} (l : list A) :
  StronglySorted R l -> StronglySorted R (filter P l).
Proof.
  induction 1 as [|x l Hs IH Hx]; [constructor |].
  rewrite filter_cons. destruct (decide (P x)); [| exact IH].
  constructor; [exact IH |].
  apply Forall_forall. intros y Hy. apply list_elem_of_filter in Hy as [_ Hy].
  rewrite Forall_forall in Hx. by apply Hx.
Qed.

Lemma take_limit_prefix {A : Type} (n : Z) (l : list A) :
  take_limit n l `prefix_of` l.
Proof. unfold take_limit. destruct (0 <=? n)%Z; apply prefix_take. Qed.

End ListingFacts.

Module Listing.
Import Py Val Categorize ListingFacts.

Section Program.
Context `{Runtime} `{World}.

(** X1 (get_files_to_process).  Without a limit ([None], or [0], which
    Python takes as false) the listing holds exactly the documents
    [input/<name>] on disk whose name ends in [.md] and is not in
    [processed_files]; each of them once, in the order of their names;
    the state is left as it is. *)
Theorem listing_is_the_unprocessed_documents (limit : option Z) (s : St) :
  limit = None \/ limit = Some 0%Z ->
  exists l,
    get_files_to_process limit s = (Ok l, s)
    /\ NoDup l
    /\ StronglySorted (fun a b => String.leb (path_name a) (path_name b) = true) l
    /\ forall p,
         p ∈ l <->
         exists name,
           p = source_dir ++ [name]
           /\ is_Some (files s !! p)
           /\ endswith name ".md" = true
           /\ name ∉ processed_files s.
Proof.
  intros Hl.
  set (names := filter (fun name => name ∉ processed_files s)
                  (sort_by String.leb (glob_md (files s)))).
  assert (Hget : get_files_to_process limit s
                 = (Ok (map (fun name => source_dir ++ [name]) names), s)).
  { unfold get_files_to_process. by destruct Hl as [-> | ->]. }
  exists (map (fun name => source_dir ++ [name]) names).
  split; [exact Hget |].
  assert (Hsorted : StronglySorted (fun a b => String.leb a b = true) names).
  { apply filter_sorted.
    apply sort_by_sorted; [apply String.leb_total | apply leb_trans]. }
  split; [| split].
  - apply NoDup_fmap_2_strong.
    + intros a b _ _ Hab. by injection Hab.
    + apply NoDup_filter. rewrite sort_by_perm. apply NoDup_glob_md.
  - clearbody names. clear Hget. induction Hsorted as [|x l Hs IH Hx]; simpl; [constructor |].
    constructor; [exact IH |].
    apply Forall_forall. intros p Hp.
    apply list_elem_of_fmap in Hp as (y & -> & Hy).
    rewrite Forall_forall in Hx. simpl. by apply Hx.
  - intros p. split.
    + intros Hp. apply list_elem_of_fmap in Hp as (name & -> & Hn).
      apply list_elem_of_filter in Hn as [Hnp Hn].
      rewrite sort_by_perm in Hn. apply elem_of_glob_md in Hn as [Hf He].
      by exists name.
    + intros (name & -> & Hf & He & Hnp).
      apply list_elem_of_fmap. exists name. split; [done |].
      apply list_elem_of_filter. split; [done |].
      rewrite sort_by_perm. by apply elem_of_glob_md.
Qed.

(** X2 (get_files_to_process, the limit).  Whatever the limit, the
    listing is a leading part of the listing without limit.  A positive
    limit [n] keeps the first [n] documents (all when there are fewer);
    a negative limit [-k] keeps all but the last [k], as the slice
    [files[:limit]] does. *)
Theorem limit_keeps_a_leading_part (limit : option Z) (s : St) :
  exists l all,
    get_files_to_process limit s = (Ok l, s)
    /\ get_files_to_process None s = (Ok all, s)
    /\ l `prefix_of` all
    /\ length l =
         match limit with
         | None => length all
         | Some n =>
             if (n =? 0)%Z then length all
             else if (0 <? n)%Z then Nat.min (Z.to_nat n) (length all)
             else length all - Z.to_nat (- n)
         end.
Proof.
  set (names := filter (fun name => name ∉ processed_files s)
                  (sort_by String.leb (glob_md (files s)))).
  set (to_path := fun name : string => source_dir ++ [name]).
  exists (map to_path
            match limit with
            | Some n => if (n =? 0)%Z then names else take_limit n names
            | None => names
            end),
         (map to_path names).
  split; [reflexivity |]. split; [reflexivity |].
  destruct limit as [n |]; [| split; [done | reflexivity]].
  destruct (n =? 0)%Z eqn:E0; [split; [done | reflexivity] |].
  split.
  - destruct (take_limit_prefix n names) as [k Hk].
    exists (map to_path k). rewrite <- map_app. by rewrite <- Hk.
  - rewrite !length_map. unfold take_limit.
    destruct (0 <? n)%Z eqn:Ep.
    + assert ((0 <=? n)%Z = true) as -> by lia. by rewrite length_take.
    + assert ((0 <=? n)%Z = false) as -> by lia. rewrite length_take. lia.
Qed.

End Program.
End Listing.

Module EffortFacts.
Import Py Val Categorize ClassifySpec EffortSpec.

Lemma sent_app (a b : list Event) : sent (a ++ b) = sent a + sent b.
Proof.
  induction a as [|e a IH]; simpl; [done |].
  destruct e; rewrite ?IH; lia.
Qed.

Lemma slept_app (a b : list Event) : slept (a ++ b) = slept a + slept b.
Proof.
  induction a as [|e a IH]; simpl; [done |].
  destruct e; rewrite ?IH; lia.
Qed.

Section Program.
Context `{Runtime} `{World}.

Lemma retry_loop_effort (remaining attempt : nat) (prompt : string) (s : St) :
  exists evs,
    trace (retry_loop remaining attempt prompt s).2 = trace s ++ evs
    /\ calls (retry_loop remaining attempt prompt s).2 = calls s + sent evs
    /\ sent evs <= remaining
    /\ slept evs <= (retry_attempts - 1 - attempt) * (retry_delay * 1000)
    /\ Forall (fun e => e = ERequest prompt \/ e = ESleep (retry_delay * 1000)) evs.
Proof.
  revert attempt s. induction remaining as [|rem IH]; intros attempt s.
  - exists []. simpl. rewrite app_nil_r. repeat split; try lia. constructor.
  - cbn [retry_loop]. unfold try_except, bind, lift, ret, messages_create.
    set (s1 := set_trace (trace s ++ [ERequest prompt]) (set_calls (S (calls s)) s)).
    assert (Hone : exists evs : list Event,
               trace s1 = trace s ++ evs /\ calls s1 = calls s + sent evs
               /\ sent evs <= S rem
               /\ slept evs <= (retry_attempts - 1 - attempt) * (retry_delay * 1000)
               /\ Forall (fun e => e = ERequest prompt \/ e = ESleep (retry_delay * 1000)) evs).
    { exists [ERequest prompt]. simpl. repeat split; try lia.
      constructor; [by left | constructor]. }
    assert (Hmore : (attempt <? retry_attempts - 1) = true ->
               exists evs : list Event,
                 trace (retry_loop rem (S attempt) prompt
                          (sleep (retry_delay * 1000) s1).2).2 = trace s ++ evs
                 /\ calls (retry_loop rem (S attempt) prompt
                             (sleep (retry_delay * 1000) s1).2).2 = calls s + sent evs
                 /\ sent evs <= S rem
                 /\ slept evs <= (retry_attempts - 1 - attempt) * (retry_delay * 1000)
                 /\ Forall (fun e => e = ERequest prompt \/ e = ESleep (retry_delay * 1000)) evs).
    { intros Hlt. apply Nat.ltb_lt in Hlt.
      destruct (IH (S attempt) (sleep (retry_delay * 1000) s1).2)
        as (evs & Ht & Hc & Hs & Hz & Hall).
      exists ([ERequest prompt; ESleep (retry_delay * 1000)] ++ evs).
      split; [| split; [| split; [| split]]].
      - rewrite Ht. simpl. by rewrite <- !app_assoc.
      - rewrite Hc. rewrite sent_app. simpl. lia.
      - rewrite sent_app. simpl. lia.
      - rewrite slept_app.
        replace (retry_attempts - 1 - attempt)
          with (S (retry_attempts - 1 - S attempt)) by lia.
        rewrite Nat.mul_succ_l. cbn [slept foldr app].
        revert Hz. generalize (retry_delay * 1000), (retry_attempts - 1 - S attempt).
        intros d k Hz. lia.
      - constructor; [by left |]. constructor; [by right | done]. }
    destruct (service (calls s) prompt) as [text |].
    + destruct (parse_response text) as [result | e]; [exact Hone |].
      cbn [is_value_error].
      destruct (is_value_error e); [| exact Hone].
      destruct (attempt <? retry_attempts - 1) eqn:Hlt; [| exact Hone].
      exact (Hmore eq_refl).
    + exact Hone.
Qed.

End Program.
End EffortFacts.

Module Effort.
Import Py Val Categorize ClassifySpec EffortSpec EffortFacts.

Section Program.
Context `{Runtime} `{World}.

(** X3 (classify_note, the retry loop).  Classifying one document sends
    at most [retry_attempts] (three) requests, all with the same prompt,
    and sleeps at most [retry_attempts - 1] times [retry_delay] (four
    seconds in all); it does nothing else to the outside, and [calls]
    grows by the number of requests sent. *)
Theorem classification_effort_is_bounded (filepath : path) (s : St) :
  exists prompt evs,
    trace (classify_note filepath s).2 = trace s ++ evs
    /\ Forall (fun e => e = ERequest prompt \/ e = ESleep (retry_delay * 1000)) evs
    /\ sent evs <= retry_attempts
    /\ calls (classify_note filepath s).2 = calls s + sent evs
    /\ slept evs <= (retry_attempts - 1) * (retry_delay * 1000).
Proof.
  unfold classify_note, try_except, bind, read_text, ret.
  assert (Hnone : exists (prompt : string) (evs : list Event),
             trace s = trace s ++ evs
             /\ Forall (fun e => e = ERequest prompt \/ e = ESleep (retry_delay * 1000)) evs
             /\ sent evs <= retry_attempts
             /\ calls s = calls s + sent evs
             /\ slept evs <= (retry_attempts - 1) * (retry_delay * 1000)).
  { exists "", []. rewrite app_nil_r. simpl. repeat split; try lia. constructor. }
  destruct (io_fault OpRead filepath); [exact Hnone |].
  destruct (files s !! filepath) as [content |]; [| exact Hnone].
  set (prompt := build_prompt (path_name filepath) (truncate content)).
  destruct (retry_loop_effort retry_attempts 0 prompt s)
    as (evs & Ht & Hc & Hs & Hz & Hall).
  exists prompt, evs.
  replace (retry_attempts - 1 - 0) with (retry_attempts - 1) in Hz by lia.
  destruct (retry_loop retry_attempts 0 prompt s) as [[o | e] s1]; simpl in *; done.
Qed.

End Program.
End Effort.

Module DiskFacts.
Import Py Val Categorize ClassifySpec ProcessSpec CategorizeFacts ProcessFacts RunFacts.
Local Open Scope res_scope.

Section Program.
Context `{Runtime} `{World}.

(** What [process_file] does to the documents, and which exception it
    lets through. *)
Lemma process_file_disk (dry_run : bool) (filepath : path) (s : St) :
  let out := process_file dry_run filepath s in
  (files out.2 = files s /\ (forall e, out.1 = Raise e -> e = OSError /\ dry_run = false))
  \/ (exists category subcategory content,
        dry_run = false
        /\ out.1 = Raise OSError
        /\ files out.2 =
             <[target_base ++ [category; subcategory; path_name filepath] := content]>
               (files s))
  \/ (exists category subcategory content,
        dry_run = false
        /\ out.1 = Ok true
        /\ is_Some (files s !! filepath)
        /\ files out.2 =
             delete filepath
               (<[target_base ++ [category; subcategory; path_name filepath] := content]>
                  (files s))).
Proof.
  unfold process_file, bind.
  destruct (classify_note_spec filepath s) as (o & s1 & -> & Hs & Hv).
  destruct Hs as (F & C & L & R & E & P & N & evs & T & S).
  destruct o as [c|].
  2:{ left. simpl. split; [done | discriminate]. }
  destruct (Hv c eq_refl) as [Hvalid Hcalls].
  destruct (valid_inv c Hvalid) as (d & category & subcategory & -> & Hcat & Hsub & Ht).
  unfold falsy. rewrite Ht. cbn [negb].
  unfold lift, subscript, get_default. rewrite Hcat, Hsub.
  destruct dry_run.
  - left. unfold append_result, ret.
    destruct (dict_get "tags" d); simpl; (split; [done | discriminate]).
  - assert (Htags : exists t, match dict_get "tags" d with
                              | Some x => Ok x | None => Ok (PList []) end = Ok t)
      by (destruct (dict_get "tags" d); eauto).
    destruct Htags as [t ->].
    unfold add_frontmatter, bind, read_text.
    destruct (io_fault OpRead filepath) eqn:Fr.
    { left. simpl. split; [done |]. by intros e [= <-]. }
    destruct (files s1 !! filepath) as [original|] eqn:Fo.
    2:{ left. simpl. split; [done |]. by intros e [= <-]. }
    assert (Hnew : exists content,
              (if startswith original "---" then ret original
               else
                 category0 <- lift (subscript (PDict d) "category") ;;
                 subcategory0 <- lift (subscript (PDict d) "subcategory") ;;
                 tags <- lift (get_default (PDict d) "tags" (PList [])) ;;
                 summary <- lift (get_default (PDict d) "summary" (PStr "")) ;;
                 ret (join nl
                        [ "---";
                          "title: " +:+ q (stem (path_name filepath));
                          "category: " +:+ py_str category0;
                          "subcategory: " +:+ py_str subcategory0;
                          "tags: " +:+ json_dumps tags;
                          "summary: " +:+ q (py_str summary);
                          "processed: " +:+ today;
                          "---"; ""; "" ] +:+ original))%M s1
              = (Ok content, s1)).
    { destruct (startswith original "---"); [by eexists |].
      unfold bind, lift, subscript, get_default, ret. rewrite Hcat, Hsub.
      destruct (dict_get "tags" d), (dict_get "summary" d); by eexists. }
    destruct Hnew as [content Hnew].
    unfold subscript, get_default, lift, bind in Hnew |- *.
    rewrite Hnew. clear Hnew.
    cbn [path_div res_bind]. unfold mkdir.
    destruct (io_fault OpMkdir _) eqn:Fm.
    { left. simpl. split; [done |]. by intros e [= <-]. }
    unfold emit, write_text. cbn [trace files set_trace set_files].
    destruct (io_fault OpWrite _) eqn:Fw.
    { left. simpl. split; [done |]. by intros e [= <-]. }
    unfold unlink. cbn [trace files set_trace set_files].
    destruct (io_fault OpUnlink filepath) eqn:Fu.
    { right. left. exists category, subcategory, content. simpl.
      split; [done |]. split; [done |]. by rewrite F. }
    destruct (<[_ := _]> (files s1) !! filepath) eqn:Fl.
    2:{ right. left. exists category, subcategory, content. simpl.
        split; [done |]. split; [done |]. by rewrite F. }
    right. right. exists category, subcategory, content.
    unfold append_result, mark_processed, bind, emit, ret. simpl.
    split; [done |]. split; [done |]. rewrite <- F.
    split; [by rewrite Fo | done].
Qed.


Lemma after_file_fields (dry_run : bool) (total i : nat) (s : St) :
  exists s', after_file dry_run total i s = (Ok tt, s')
             /\ files s' = files s
             /\ results s' = results s
             /\ errors s' = errors s
             /\ processed_files s' = processed_files s.
Proof.
  destruct (after_file_cases dry_run total i s) as (s1 & s2 & -> & H1 & H2).
  exists s2. split; [done |].
  destruct H1 as [-> | ->], H2 as [-> | [_ ->]]; by rewrite ?_save_checkpoint_eq.
Qed.


End Program.
End DiskFacts.

Module LoopFacts.
Import Py Val Categorize ClassifySpec ProcessSpec CheckpointSpec PreviewSpec MainSpec RunSpec.
Import CategorizeFacts ProcessFacts RunFacts PreviewFacts MainFacts DiskFacts.

Section Program.
Context `{Runtime} `{World}.

Lemma get_files_to_process_listed (limit : option Z) (s : St) :
  get_files_to_process limit s = (Ok (listed limit s), s).
Proof. reflexivity. Qed.

Lemma run_eq (dry_run : bool) (limit : option Z) (resume : bool) (s : St) :
  run dry_run limit resume s = loop_and_save dry_run limit (before_listing resume s).
Proof. unfold run, loop_and_save, bind, before_listing. by destruct resume. Qed.

Lemma loop_and_save_cases (dry_run : bool) (limit : option Z) (s : St) :
  (listed limit s = [] /\ loop_and_save dry_run limit s = (Ok tt, s))
  \/ (listed limit s <> []
      /\ loop_and_save dry_run limit s =
           match run_loop dry_run (length (listed limit s)) 1 (listed limit s) s with
           | (Ok _, s1) => _save_checkpoint s1
           | (Raise e, s1) => (Raise e, s1)
           end).
Proof.
  unfold loop_and_save, bind. rewrite get_files_to_process_listed.
  destruct (listed limit s) as [|f l] eqn:E; [by left |].
  right. split; [done |]. cbn [length Nat.eqb]. 
  by destruct (run_loop dry_run (S (length l)) 1 (f :: l) s) as [[[]|e] s1].
Qed.

Lemma logged_process_file (dry_run : bool) (filepath : path) (s s' : St) (b : bool) :
  process_file dry_run filepath s = (Ok b, s') ->
  logged s' ≡ₚ logged s ++ [path_name filepath]
  /\ length (results s') + length (errors s')
     = S (length (results s) + length (errors s)).
Proof.
  intros Hp. pose proof (process_file_outcome dry_run filepath s) as Ho.
  rewrite Hp in Ho. simpl in Ho. unfold logged.
  remember (Ok b) as r eqn:Er.
  destruct Ho as [s1 evs _ _ _ R E _ | s1 evs c m _ _ _ _ _ _ R E _
                 | s1 evs tail e _ _ _ _ _ _ _ _
                 | s1 evs d cat sub orig name target content _ _ _ _ _ _ _ _ _ R E _];
    try discriminate; rewrite R, E, ?map_app, ?length_app; simpl; split; try lia.
  - by rewrite app_assoc.
  - rewrite <- !app_assoc. apply Permutation_app_head.
    apply Permutation_cons_append.
  - rewrite <- !app_assoc. apply Permutation_app_head.
    apply Permutation_cons_append.
Qed.

Lemma run_loop_logged (dry_run : bool) (total i : nat) (l : list path) (s s' : St) :
  run_loop dry_run total i l s = (Ok tt, s') ->
  logged s' ≡ₚ logged s ++ map path_name l
  /\ length (results s') + length (errors s')
     = length (results s) + length (errors s) + length l.
Proof.
  revert i s. induction l as [|filepath rest IH]; intros i s.
  - intros [= <-]. simpl. rewrite app_nil_r. split; [done | lia].
  - cbn [run_loop]. unfold bind.
    destruct (process_file dry_run filepath s) as [[b|e] s1] eqn:Hp; [| discriminate].
    apply logged_process_file in Hp as [Hp Hn].
    destruct (after_file_fields dry_run total i s1) as (s2 & -> & _ & R & E & _).
    intros Hl. apply IH in Hl as [Hl Hm]. split.
    + rewrite Hl. unfold logged at 1. rewrite R, E. fold (logged s1).
      rewrite Hp. simpl. by rewrite <- app_assoc.
    + rewrite Hm, R, E. simpl. lia.
Qed.

(** In a dry run the loop ends normally and leaves the set of
    processed names as it was. *)
Lemma loop_and_save_preview (limit : option Z) (s : St) :
  exists s',
    loop_and_save true limit s = (Ok tt, s')
    /\ processed_files s' = processed_files s
    /\ (listed limit s = [] /\ s' = s
        \/ listed limit s <> [] /\ checkpoint_file s' = Some (checkpoint_of s)).
Proof.
  destruct (loop_and_save_cases true limit s) as [[Hl ->] | [Hl ->]].
  - exists s. split; [done |]. split; [done |]. by left.
  - destruct (run_loop_preview (length (listed limit s)) 1 (listed limit s) s)
      as (s1 & -> & (_ & P & _)).
    rewrite _save_checkpoint_eq. eexists. split; [reflexivity |]. simpl.
    split; [done |]. right. split; [done |]. unfold checkpoint_of. by rewrite P.
Qed.

End Program.
End LoopFacts.

Module LoopFacts2.
Import Py Val Categorize ClassifySpec ProcessSpec CheckpointSpec PreviewSpec MainSpec RunSpec.
Import CategorizeFacts ProcessFacts RunFacts PreviewFacts MainFacts DiskFacts LoopFacts ListingFacts.

Section Program.
Context `{Runtime} `{World}.

(** [run_loop_invariant] for a property of the files that are listed. *)
Lemma run_loop_invariant_on (P : path -> Prop) (I : St -> Prop) (dry_run : bool) :
  (forall filepath s, P filepath -> I s -> I (process_file dry_run filepath s).2) ->
  (forall total i s, I s -> I (after_file dry_run total i s).2) ->
  forall total i l s, Forall P l -> I s -> I (run_loop dry_run total i l s).2.
Proof.
  intros Hp Ha total i l. revert i.
  induction l as [|filepath rest IH]; intros i s Hl Hs; [done |].
  apply Forall_cons in Hl as [Hf Hl].
  cbn [run_loop]. unfold bind.
  specialize (Hp filepath s Hf Hs).
  destruct (process_file dry_run filepath s) as [[b|e] s1]; [|done].
  specialize (Ha total i s1 Hp).
  destruct (after_file dry_run total i s1) as [[[]|e] s2]; [|done].
  by apply IH.
Qed.

Lemma listed_in_source_dir (limit : option Z) (s : St) :
  Forall (fun p => exists name, p = source_dir ++ [name]) (listed limit s).
Proof.
  unfold listed, get_files_to_process. cbn [fst].
  apply Forall_forall. intros p Hp.
  apply list_elem_of_fmap in Hp as (name & -> & _). by exists name.
Qed.

(** With nothing marked as processed, a document of the source
    directory is listed unless a negative limit cuts it off. *)
Lemma listed_nonempty (limit : option Z) (s : St) (name : string) :
  processed_files s = ∅ ->
  is_Some (files s !! (source_dir ++ [name])) ->
  endswith name ".md" = true ->
  (limit = None \/ exists n, limit = Some n /\ (0 <= n)%Z) ->
  listed limit s <> [].
Proof.
  intros Hp Hf He Hl.
  unfold listed, get_files_to_process. cbn [fst].
  set (names := filter (fun name => name ∉ processed_files s)
                  (sort_by String.leb (glob_md (files s)))).
  assert (Hin : name ∈ names).
  { apply list_elem_of_filter. split; [rewrite Hp; apply not_elem_of_empty |].
    rewrite sort_by_perm. by apply elem_of_glob_md. }
  assert (Hne : names <> []) by (intros E; rewrite E in Hin; by apply elem_of_nil in Hin).
  destruct Hl as [-> | (n & -> & Hn)].
  - by destruct names.
  - destruct (n =? 0)%Z eqn:E0; [by destruct names |].
    unfold take_limit. assert ((0 <=? n)%Z = true) as -> by lia.
    destruct names as [|x names]; [done |].
    destruct (Z.to_nat n) eqn:En; [lia | done].
Qed.

End Program.
End LoopFacts2.

Module RunOutcome.
Import Py Val Categorize ClassifySpec ProcessSpec CheckpointSpec PreviewSpec MainSpec RunSpec.
Import CategorizeFacts ProcessFacts RunFacts PreviewFacts MainFacts DiskFacts LoopFacts LoopFacts2.

Section Program.
Context `{Runtime} `{World}.

(** X4 (run, process_file).  When [run] ends normally, every listed
    document was recorded exactly once, in the results or in the
    errors: the names recorded during the run are the names listed, and
    the two lists grew by the number of listed documents. *)
Theorem every_listed_document_is_recorded (dry_run : bool) (limit : option Z)
    (resume : bool) (s s' : St) :
  run dry_run limit resume s = (Ok tt, s') ->
  logged s' ≡ₚ logged s ++ map path_name (listed limit (before_listing resume s))
  /\ length (results s') + length (errors s')
     = length (results s) + length (errors s)
       + length (listed limit (before_listing resume s)).
Proof.
  rewrite run_eq.
  assert (Hb : logged (before_listing resume s) = logged s
               /\ results (before_listing resume s) = results s
               /\ errors (before_listing resume s) = errors s) by by destruct resume.
  destruct Hb as (Hb & Rb & Eb). rewrite <- Hb, <- Rb, <- Eb.
  destruct (loop_and_save_cases dry_run limit (before_listing resume s))
    as [[Hl ->] | [Hl ->]].
  - intros [= <-]. rewrite Hl. simpl. rewrite app_nil_r. split; [done | lia].
  - destruct (run_loop _ _ _ _ _) as [[[]|e] s1] eqn:Hr; [| discriminate].
    rewrite _save_checkpoint_eq. intros [= <-].
    apply run_loop_logged in Hr. exact Hr.
Qed.

(** X5 (run, _save_checkpoint).  How a run that ends normally leaves
    the files under [data/].  When no document is listed nothing is
    saved, not even the reset of a run without [--resume].  Otherwise
    the last thing the run does is to save: the checkpoint file holds
    the names in [processed_files], the log holds all results and errors
    together with their numbers. *)
Theorem run_saves_at_the_end (dry_run : bool) (limit : option Z)
    (resume : bool) (s s' : St) :
  run dry_run limit resume s = (Ok tt, s') ->
  (listed limit (before_listing resume s) = [] /\ s' = before_listing resume s)
  \/ (listed limit (before_listing resume s) <> []
      /\ checkpoint_file s' = Some (checkpoint_of s')
      /\ checkpoint_ids s' = processed_files s'
      /\ log_file s' = Some (log_of s')
      /\ exists evs, trace s' = evs ++ [ESaveCheckpoint; ESaveResults]).
Proof.
  rewrite run_eq.
  destruct (loop_and_save_cases dry_run limit (before_listing resume s))
    as [[Hl ->] | [Hl ->]].
  - intros [= <-]. by left.
  - destruct (run_loop _ _ _ _ _) as [[[]|e] s1] eqn:Hr; [| discriminate].
    rewrite _save_checkpoint_eq. intros [= <-]. right.
    split; [done |]. unfold checkpoint_ids. simpl.
    split; [done |]. split; [apply list_to_set_elements_L |]. split; [done |].
    exists (trace s1). by rewrite <- app_assoc.
Qed.


(** X7 (run, process_file).  A run only moves documents into the
    output tree.  A file outside [output/] is left with its content or,
    in a real run, removed; nothing is created there.  A file under
    [output/] is never removed (it may be written again). *)
Theorem run_only_moves_into_output (dry_run : bool) (limit : option Z)
    (resume : bool) (s : St) (p : path) :
  let s' := (main dry_run limit resume s).2 in
  (head p <> Some "output" ->
   files s' !! p = files s !! p
   \/ dry_run = false /\ is_Some (files s !! p) /\ files s' !! p = None)
  /\ (head p = Some "output" -> is_Some (files s !! p) -> is_Some (files s' !! p)).
Proof.
  intros s'. subst s'. rewrite main_eq.
  set (s0 := if resume then start_state s else set_processed_files ∅ (start_state s)).
  assert (F0 : files s0 = files s) by (subst s0; by destruct resume).
  set (I := fun s' : St =>
    (head p <> Some "output" ->
     files s' !! p = files s !! p
     \/ dry_run = false /\ is_Some (files s !! p) /\ files s' !! p = None)
    /\ (head p = Some "output" -> is_Some (files s !! p) -> is_Some (files s' !! p))).
  assert (I0 : I s0).
  { split; rewrite F0; [by left | done]. }
  assert (Hsave : forall s1, I s1 -> I (_save_checkpoint s1).2).
  { intros s1 Hs1. by rewrite _save_checkpoint_eq. }
  destruct (loop_and_save_cases dry_run limit s0) as [[Hl ->] | [Hl ->]]; [exact I0 |].
  assert (Hloop : I (run_loop dry_run (length (listed limit s0)) 1 (listed limit s0) s0).2).
  { apply (run_loop_invariant_on (fun f => exists name, f = source_dir ++ [name]) I);
      [| | apply listed_in_source_dir | exact I0].
    - intros filepath s1 (name & ->) [Ha Hb]. unfold I.
      destruct (process_file_disk dry_run (source_dir ++ [name]) s1)
        as [[-> _] | [(c & sc & t & Hd & _ & ->) | (c & sc & t & Hd & _ & Hs & ->)]].
      + by split.
      + split.
        * intros Hp. rewrite lookup_insert_ne; [by apply Ha |].
          intros <-. by apply Hp.
        * intros Hp Hi. destruct (decide (target_base ++ [c; sc; path_name (source_dir ++ [name])] = p)) as [<- | Hne].
          -- rewrite lookup_insert_eq. by eexists.
          -- rewrite lookup_insert_ne by done. by apply Hb.
      + split.
        * intros Hp. destruct (decide (source_dir ++ [name] = p)) as [<- | Hne].
          -- rewrite lookup_delete_eq.
             destruct (Ha Hp) as [Hsame | (? & ? & Hnone)].
             ++ right. split; [done |]. split; [| done]. by rewrite <- Hsame.
             ++ rewrite Hnone in Hs. by destruct Hs.
          -- rewrite lookup_delete_ne by done.
             rewrite lookup_insert_ne; [by apply Ha |].
             intros <-. by apply Hp.
        * intros Hp Hi. rewrite lookup_delete_ne.
          2:{ intros <-. discriminate Hp. }
          destruct (decide (target_base ++ [c; sc; path_name (source_dir ++ [name])] = p)) as [<- | Hne].
          -- rewrite lookup_insert_eq. by eexists.
          -- rewrite lookup_insert_ne by done. by apply Hb.
    - intros total i s1 Hs1.
      destruct (after_file_fields dry_run total i s1) as (s2 & -> & F & _).
      unfold I in *. simpl. by rewrite F. }
  destruct (run_loop _ _ _ _ _) as [[[]|e'] s1]; [by apply Hsave | exact Hloop].
Qed.

(** X8 (run, _save_checkpoint, __init__).  A dry run with [--resume]
    leaves the ids of the checkpoint file as they were. *)
Theorem dry_run_with_resume_keeps_the_checkpoint (limit : option Z) (s : St) :
  checkpoint_ids (main true limit true s).2 = checkpoint_ids s.
Proof.
  rewrite main_eq.
  destruct (loop_and_save_preview limit (start_state s)) as (s' & -> & P & Hc).
  destruct Hc as [[_ ->] | [_ Hc]]; [done |].
  unfold checkpoint_ids at 1. simpl. rewrite Hc. simpl.
  by rewrite list_to_set_elements_L.
Qed.

(** X9 (run, _save_checkpoint).  A dry run without [--resume] that
    finds a document to list erases the checkpoint: the file it saves
    records no processed name, whatever earlier runs had recorded. *)
Theorem dry_run_without_resume_erases_the_checkpoint (limit : option Z) (s : St)
    (name : string) :
  is_Some (files s !! (source_dir ++ [name])) ->
  endswith name ".md" = true ->
  (limit = None \/ exists n, limit = Some n /\ (0 <= n)%Z) ->
  checkpoint_file (main true limit false s).2
  = Some {| cp_processed := []; cp_total_processed := 0; cp_last_file := None |}.
Proof.
  intros Hf He Hl. rewrite main_eq.
  set (s0 := set_processed_files ∅ (start_state s)).
  assert (Hne : listed limit s0 <> []) by by apply (listed_nonempty limit s0 name).
  destruct (loop_and_save_preview limit s0) as (s' & -> & P & Hc).
  destruct Hc as [[Hc _] | [_ Hc]]; [done |].
  simpl. rewrite Hc. unfold checkpoint_of. simpl. by rewrite elements_empty.
Qed.

(** X10 (_save_checkpoint, _load_checkpoint).  What [_save_checkpoint]
    writes is what a later process loads: on a disk whose checkpoint
    file is the one saved from the state [s], [__init__] starts with the
    processed names of [s], and with no result and no error. *)
Theorem saved_checkpoint_is_reloaded (s later : St) :
  checkpoint_file later = checkpoint_file (_save_checkpoint s).2 ->
  exists s',
    init later = (Ok tt, s')
    /\ processed_files s' = processed_files s
    /\ results s' = [] /\ errors s' = []
    /\ files s' = files later.
Proof.
  intros Hc. rewrite init_eq. eexists. split; [reflexivity |].
  unfold start_state, checkpoint_ids. simpl. rewrite Hc, _save_checkpoint_eq. simpl.
  by rewrite list_to_set_elements_L.
Qed.

End Program.
End RunOutcome.

Module TextFacts.
Import Py Val Categorize PyFacts.




End TextFacts.

Module Prompt.
Import Py Val Categorize PyFacts TextFacts.


Section Program.
Context `{Runtime} `{World}.

(** X12 (add_frontmatter).  Whatever [add_frontmatter] returns begins
    with the header marker, so the function is idempotent: applied to a
    document that holds a text it returned, for any classification, it
    returns that text unchanged.  It does not change the state. *)
Theorem header_is_added_once (filepath : path) (classification : pyval)
    (s : St) (text : string) :
  (add_frontmatter filepath classification s).1 = Ok text ->
  (add_frontmatter filepath classification s).2 = s
  /\ startswith text "---" = true
  /\ forall filepath2 classification2 s2,
       io_fault OpRead filepath2 = false ->
       files s2 !! filepath2 = Some text ->
       add_frontmatter filepath2 classification2 s2 = (Ok text, s2).
Proof.
  intros Ha.
  assert (Hs : (add_frontmatter filepath classification s).2 = s
               /\ startswith text "---" = true).
  { revert Ha. unfold add_frontmatter, bind, read_text, lift, ret.
    destruct (io_fault OpRead filepath); [done |].
    destruct (files s !! filepath) as [content |]; [| done].
    destruct (startswith content "---") eqn:Es.
    { simpl. by intros [= <-]. }
    destruct (subscript classification "category") as [category |]; [| done].
    destruct (subscript classification "subcategory") as [subcategory |]; [| done].
    destruct (get_default classification "tags" (PList [])) as [tags |]; [| done].
    destruct (get_default classification "summary" (PStr "")) as [summary |]; [| done].
    simpl. intros [= <-]. done. }
  destruct Hs as [Hs Hm]. split; [exact Hs |]. split; [exact Hm |].
  intros filepath2 classification2 s2 Hr Hf.
  unfold add_frontmatter, bind, read_text, ret. by rewrite Hr, Hf, Hm.
Qed.

End Program.
End Prompt.

Module GroupFacts.
Import Py Val GenerateMoc MocSpec GroupSpec DictFacts MocFacts.

Lemma by_subcategory_fold (notes : list Note) (g : Groups) :
  by_subcategory
    (fold_left
       (fun g note =>
          {| by_subcategory :=
               dict_append (category note +:+ "/" +:+ subcategory note) note
                 (by_subcategory g);
             by_tag := add_tags note (by_tag g) |})
       notes g)
  = fold_left (fun d note => dict_append (key_of note) note d) notes (by_subcategory g).
Proof. revert g. induction notes as [|n notes IH]; intros g; simpl; [done | by rewrite IH]. Qed.

Lemma sizes_dict_append (k : string) (note : Note) (d : list (string * list Note)) :
  sizes (dict_append k note d) = S (sizes d).
Proof.
  unfold dict_append.
  induction d as [|[k' l'] d IH]; simpl; [done |].
  destruct (String.eqb k k') eqn:E; simpl.
  - rewrite length_app. simpl. lia.
  - rewrite IH. lia.
Qed.

Lemma get_dict_append (k j : string) (note : Note) (d : list (string * list Note)) :
  default [] (dict_get j (dict_append k note d))
  = default [] (dict_get j d) ++ (if bool_decide (k = j) then [note] else []).
Proof.
  unfold dict_append. destruct (bool_decide (k = j)) eqn:B.
  - apply bool_decide_eq_true in B. subst k. by rewrite dict_get_set_eq.
  - apply bool_decide_eq_false in B. rewrite dict_get_set_ne by done.
    by rewrite app_nil_r.
Qed.

Lemma fold_keys_spec (notes : list Note) (d : list (string * list Note)) (k : string) :
  default [] (dict_get k (fold_left (fun d note => dict_append (key_of note) note d) notes d))
  = default [] (dict_get k d) ++ notes_of_key k notes.
Proof.
  revert d. induction notes as [|n notes IH]; intros d; simpl.
  - by rewrite app_nil_r.
  - rewrite IH, get_dict_append, <- app_assoc. f_equal.
    unfold notes_of_key. rewrite filter_cons.
    destruct (decide (key_of n = k)) as [E | E].
    + by rewrite bool_decide_eq_true_2.
    + by rewrite bool_decide_eq_false_2.
Qed.

Lemma fold_keys_keeps (notes : list Note) (d : list (string * list Note)) :
  NoDup (map fst d) -> no_empty_group d ->
  NoDup (map fst (fold_left (fun d note => dict_append (key_of note) note d) notes d))
  /\ no_empty_group (fold_left (fun d note => dict_append (key_of note) note d) notes d).
Proof.
  revert d. induction notes as [|n notes IH]; intros d Hn He; simpl; [done |].
  apply IH; [by apply dict_set_NoDup | by apply no_empty_dict_append].
Qed.

Lemma fold_keys_sizes (notes : list Note) (d : list (string * list Note)) :
  sizes (fold_left (fun d note => dict_append (key_of note) note d) notes d)
  = sizes d + length notes.
Proof.
  revert d. induction notes as [|n notes IH]; intros d; simpl; [lia |].
  rewrite IH, sizes_dict_append. lia.
Qed.

(** The notes filed under a tag. *)
Lemma elem_of_dict_append (k j : string) (note x : Note) (d : list (string * list Note)) :
  x ∈ default [] (dict_get j (dict_append k note d))
  <-> x ∈ default [] (dict_get j d) \/ (k = j /\ x = note).
Proof.
  rewrite get_dict_append, elem_of_app.
  destruct (bool_decide (k = j)) eqn:B.
  - apply bool_decide_eq_true in B. rewrite list_elem_of_singleton. intuition.
  - apply bool_decide_eq_false in B. rewrite elem_of_nil. intuition.
Qed.

Lemma elem_of_add_tags (note x : Note) (d : list (string * list Note)) (tag : string) :
  x ∈ default [] (dict_get tag (add_tags note d))
  <-> x ∈ default [] (dict_get tag d) \/ (x = note /\ tag ∈ tags note /\ tag <> "").
Proof.
  unfold add_tags. revert d.
  induction (tags note) as [|t ts IH]; intros d; simpl.
  - rewrite elem_of_nil. intuition.
  - rewrite IH. destruct (String.eqb t "") eqn:E.
    + apply String.eqb_eq in E. subst t. rewrite elem_of_cons.
      intuition (subst; auto). 
    + apply String.eqb_neq in E. rewrite elem_of_dict_append, elem_of_cons.
      intuition (subst; auto).
Qed.

Lemma elem_of_fold_add_tags (notes : list Note) (x : Note)
    (d : list (string * list Note)) (tag : string) :
  x ∈ default [] (dict_get tag (fold_left (fun d note => add_tags note d) notes d))
  <-> x ∈ default [] (dict_get tag d) \/ (x ∈ notes /\ tag ∈ tags x /\ tag <> "").
Proof.
  revert d. induction notes as [|n notes IH]; intros d; simpl.
  - rewrite elem_of_nil. intuition.
  - rewrite IH, elem_of_add_tags, elem_of_cons. intuition (subst; auto).
Qed.

End GroupFacts.

Module Grouping.
Import Py Val GenerateMoc MocSpec GroupSpec DictFacts MocFacts GroupFacts.

(** X13 (group_notes, by subcategory).  The groups by subcategory
    split the index: the keys are distinct, the group of a key is the
    list of the notes with that key in the order of the index, no group
    is empty, and the sizes of the groups add up to the number of
    notes. *)
Theorem subcategory_groups_split_the_index (notes : list Note) :
  let groups := by_subcategory (group_notes notes) in
  NoDup (map fst groups)
  /\ (forall k l, (k, l) ∈ groups <-> l <> [] /\ l = notes_of_key k notes)
  /\ sizes groups = length notes.
Proof.
  intros groups. subst groups. unfold group_notes. rewrite by_subcategory_fold. simpl.
  destruct (fold_keys_keeps notes []) as [Hn He]; [constructor | done |].
  split; [exact Hn |]. split; [| by rewrite fold_keys_sizes].
  intros k l. pose proof (fold_keys_spec notes [] k) as Hk. simpl in Hk. split.
  - intros Hin. apply dict_elem_get in Hin; [| exact Hn].
    rewrite Hin in Hk. simpl in Hk. split; [by eapply He | done].
  - intros [Hne ->]. apply dict_get_elem.
    destruct (dict_get k _) as [l |] eqn:Hg; simpl in Hk; [by rewrite Hk |].
    by rewrite <- Hk in Hne.
Qed.

(** X14 (group_notes, by tag).  A note is filed under a tag exactly
    when it is a note of the index that lists the tag and the tag is not
    the empty text; the keys are distinct and no group is empty. *)
Theorem tag_groups_hold_the_notes_listing_the_tag (notes : list Note)
    (tag : string) (note : Note) :
  let groups := by_tag (group_notes notes) in
  (note ∈ default [] (dict_get tag groups)
   <-> note ∈ notes /\ tag ∈ tags note /\ tag <> "")
  /\ dict_get "" groups = None
  /\ NoDup (map fst groups)
  /\ forall k l, (k, l) ∈ groups -> l <> [].
Proof.
  intros groups. subst groups. unfold group_notes. rewrite by_tag_fold. simpl.
  destruct (fold_add_tags_keeps notes []) as [Hn He]; [constructor | done |].
  split; [| split; [| split; [exact Hn |]]].
  - rewrite elem_of_fold_add_tags. simpl. rewrite elem_of_nil. intuition.
  - destruct (dict_get "" _) as [l |] eqn:Hg; [| done].
    destruct l as [| x l]; [by destruct (He _ _ Hg) |].
    assert (Hx : x ∈ default [] (dict_get ""
                   (fold_left (fun d note => add_tags note d) notes [])))
      by (rewrite Hg; by left).
    apply elem_of_fold_add_tags in Hx as [Hx | (_ & _ & Hx)]; [| done].
    by apply elem_of_nil in Hx.
  - intros k l Hin. eapply He. by apply dict_elem_get.
Qed.

End Grouping.

Module SplitFacts.
Import Py ClassifySpec SplitSpec PyFacts.

Lemma occurrences_app (sep : ascii) (a b : chars) :
  occurrences sep (a ++ b) = occurrences sep a + occurrences sep b.
Proof. induction a as [|c a IH]; simpl; [done | rewrite IH; lia]. Qed.

Lemma occurrences_has_char (sep : ascii) (s : string) :
  has_char sep s = negb (occurrences sep (chars_of s) =? 0).
Proof.
  unfold has_char. induction (chars_of s) as [|c l IH]; simpl; [done |].
  rewrite IH, (Ascii.eqb_sym sep c). by destruct (Ascii.eqb c sep).
Qed.

Lemma length_split_chars (sep : ascii) (cur l : chars) :
  length (split_chars sep cur l) = S (occurrences sep l).
Proof.
  revert cur. induction l as [|c l IH]; intros cur; simpl; [done |].
  destruct (Ascii.eqb c sep); simpl; by rewrite IH.
Qed.




Lemma split_key_long (a b : string) :
  has_char "/" a || has_char "/" b = true ->
  3 <= length (split "/" (a +:+ "/" +:+ b)).
Proof.
  rewrite !occurrences_has_char. intros Hab.
  unfold split. rewrite length_map, length_split_chars, !chars_of_app.
  rewrite !occurrences_app. simpl.
  destruct (occurrences "/" (chars_of a)), (occurrences "/" (chars_of b));
    simpl in *; try done; lia.
Qed.

End SplitFacts.

Module SaveFacts.
Import Py Val GenerateMoc ClassifySpec MocSpec GroupSpec DictFacts MocFacts GroupFacts HubFacts SplitFacts.
Local Open Scope res_scope.

Section Hubs.
Context `{Config}.
Variable today : string.
Variable write_fault : string -> bool.

Lemma save_all_preview (l : list (res (string * string))) (dir : gmap string string) :
  (save_all write_fault l true dir).2 = dir.
Proof.
  induction l as [|[[f c]|e] l IH]; simpl; done.
Qed.

Lemma save_all_keeps (l : list (res (string * string))) (preview : bool)
    (dir : gmap string string) (f : string) :
  is_Some (dir !! f) -> is_Some ((save_all write_fault l preview dir).2 !! f).
Proof.
  revert dir. induction l as [|[[f0 c0]|e] l IH]; intros dir Hf; simpl; try done.
  unfold save_moc. destruct preview; [by apply IH |].
  destruct (write_fault f0); [done |]. apply IH.
  destruct (decide (f0 = f)) as [-> | Hne].
  - rewrite lookup_insert_eq. by eexists.
  - by rewrite lookup_insert_ne.
Qed.

Lemma save_all_frame (P : string -> Prop) (l : list (res (string * string)))
    (preview : bool) (dir : gmap string string) (f : string) :
  (forall f0 c0, Ok (f0, c0) ∈ l -> P f0) -> ~ P f ->
  (save_all write_fault l preview dir).2 !! f = dir !! f.
Proof.
  revert dir. induction l as [|[[f0 c0]|e] l IH]; intros dir Hl Hf; simpl; try done.
  assert (Hl' : forall f1 c1, Ok (f1, c1) ∈ l -> P f1)
    by (intros f1 c1 Hin; apply (Hl f1 c1); by right).
  unfold save_moc. destruct preview; [by apply IH |].
  destruct (write_fault f0); [done |]. rewrite IH by done.
  apply lookup_insert_ne. intros ->. apply Hf, (Hl f c0). by left.
Qed.


(** Without a refused write, the first hub that fails to render stops
    the run with its exception. *)
Lemma save_all_raise (l : list (res (string * string))) (dir : gmap string string)
    (e : exn) :
  (forall f, write_fault f = false) ->
  (forall e', Raise e' ∈ l -> e' = e) ->
  Raise e ∈ l ->
  (save_all write_fault l false dir).1 = Raise e.
Proof.
  intros Hw. revert dir. induction l as [|[[f0 c0]|e0] l IH]; intros dir Hall Hin; simpl.
  - by apply elem_of_nil in Hin.
  - unfold save_moc. rewrite Hw. apply IH.
    + intros e' He'. apply Hall. by right.
    + by apply elem_of_cons in Hin as [? | ?].
  - f_equal. apply Hall. by left.
Qed.

Lemma subcategory_mocs_raise (g : Groups) (e : exn) :
  Raise e ∈ subcategory_mocs today g -> e = ValueError.
Proof.
  unfold subcategory_mocs. intros Hin.
  apply list_elem_of_omap in Hin as ([k l] & _ & Hs).
  destruct (0 <? length l); [| done]. injection Hs as Hs.
  unfold generate_subcategory_moc in Hs.
  destruct (split "/" k) as [|a [|b [|c r]]]; simpl in Hs; congruence.
Qed.

Lemma subcategory_mocs_names (g : Groups) (f c : string) :
  Ok (f, c) ∈ subcategory_mocs today g ->
  exists k l, (k, l) ∈ by_subcategory g /\ f = subcategory_filename k.
Proof.
  unfold subcategory_mocs. intros Hin.
  apply list_elem_of_omap in Hin as ([k l] & Hkl & Hs).
  destruct (0 <? length l); [| done]. injection Hs as Hs.
  destruct (generate_subcategory_moc today k l) as [content |]; simpl in Hs; [| done].
  injection Hs as <- <-. by exists k, l.
Qed.

Lemma key_is_grouped (notes : list Note) (note : Note) :
  note ∈ notes ->
  exists l, (key_of note, l) ∈ by_subcategory (group_notes notes) /\ l <> [].
Proof.
  intros Hin. unfold group_notes. rewrite by_subcategory_fold. simpl.
  pose proof (fold_keys_spec notes [] (key_of note)) as Hk. simpl in Hk.
  assert (Hne : notes_of_key (key_of note) notes <> []).
  { intros E. assert (Hn : note ∈ notes_of_key (key_of note) notes)
      by (apply list_elem_of_filter; by split).
    rewrite E in Hn. by apply elem_of_nil in Hn. }
  destruct (dict_get (key_of note) _) as [l |] eqn:Hg; simpl in Hk.
  - exists l. split; [by apply dict_get_elem | by rewrite Hk].
  - by rewrite <- Hk in Hne.
Qed.




Lemma generate_subcategory_moc_raises (note : Note) (l : list Note) :
  has_char "/" (category note) || has_char "/" (subcategory note) = true ->
  generate_subcategory_moc today (key_of note) l = Raise ValueError.
Proof.
  intros Hcs. apply split_key_long in Hcs.
  unfold generate_subcategory_moc, key_of.
  destruct (split "/" _) as [|a [|b [|c r]]]; simpl in Hcs; try lia; done.
Qed.


End Hubs.
End SaveFacts.

Module HubFiles.
Import Py Val GenerateMoc ClassifySpec MocSpec GroupSpec.
Import DictFacts MocFacts GroupFacts HubFacts SplitFacts SaveFacts.
Local Open Scope res_scope.

Section Hubs.
Context `{Config}.
Variable today : string.
Variable write_fault : string -> bool.

(** X15 (main, save_moc).  In preview mode the hub directory is left
    as it is, whatever the index holds and however the run ends. *)
Theorem preview_writes_nothing (notes : list Note) (dir : gmap string string) :
  (main today write_fault true notes dir).2 = dir.
Proof.
  unfold main. destruct notes as [|n notes]; [done |]. apply save_all_preview.
Qed.

(** X16 (main, save_moc).  The generator only writes hub files: a file
    whose name does not begin with [_MOC-] is left as it is, and no file
    of the hub directory is ever removed, so the hub of a subcategory or
    tag that has gone from the index stays. *)
Theorem only_hub_files_are_written (preview : bool) (notes : list Note)
    (dir : gmap string string) (f : string) :
  let dir' := (main today write_fault preview notes dir).2 in
  (is_Some (dir !! f) -> is_Some (dir' !! f))
  /\ (startswith f "_MOC-" = false -> dir' !! f = dir !! f).
Proof.
  intros dir'. subst dir'. unfold main. destruct notes as [|n notes]; [done |].
  split; [apply save_all_keeps |].
  intros Hf. apply (save_all_frame _ (fun f0 => startswith f0 "_MOC-" = true)).
  - intros f0 c0 Hin. apply elem_of_app in Hin as [Hin | Hin].
    { apply list_elem_of_singleton in Hin. by injection Hin as -> _. }
    apply elem_of_app in Hin as [Hin | Hin].
    + apply subcategory_mocs_names in Hin as (k & l & _ & ->). done.
    + apply list_elem_of_fmap in Hin as ([f1 c1] & [= <- <-] & Hin).
      apply elem_of_tag_mocs in Hin as (tag & l & _ & _ & -> & _). done.
  - by rewrite Hf.
Qed.


(** X18 (main, generate_subcategory_moc).  A [/] inside the category or
    the subcategory of a note stops the generator: the key of that note
    does not split in two, [generate_subcategory_moc] raises
    [ValueError], and the run ends with that exception after the main
    hub was written. *)
Theorem slash_in_a_name_stops_the_generator (notes : list Note)
    (dir : gmap string string) (note : Note) :
  note ∈ notes ->
  has_char "/" (category note) || has_char "/" (subcategory note) = true ->
  (forall f, write_fault f = false) ->
  (main today write_fault false notes dir).1 = Raise ValueError
  /\ is_Some ((main today write_fault false notes dir).2 !! "_MOC-index.md").
Proof.
  intros Hn Hcs Hf. unfold main.
  destruct notes as [|n0 notes0]; [by apply elem_of_nil in Hn |].
  set (notes := n0 :: notes0) in *. set (g := group_notes notes).
  split.
  - apply save_all_raise; [exact Hf | |].
    + intros e He. apply elem_of_app in He as [He | He].
      { apply list_elem_of_singleton in He. discriminate. }
      apply elem_of_app in He as [He | He].
      * by apply subcategory_mocs_raise in He.
      * apply list_elem_of_fmap in He as (? & ? & _). discriminate.
    + apply elem_of_app. right. apply elem_of_app. left.
      destruct (key_is_grouped notes note Hn) as (l & Hkl & Hl).
      unfold subcategory_mocs. apply list_elem_of_omap.
      exists (key_of note, l). split; [exact Hkl |].
      destruct l as [| x l]; [done |]. cbn [length Nat.ltb Nat.leb].
      by rewrite generate_subcategory_moc_raises.
  - cbn [app save_all]. unfold save_moc. rewrite Hf.
    apply save_all_keeps. rewrite lookup_insert_eq. by eexists.
Qed.

End Hubs.
End HubFiles.

Module IndexFacts.
Import Py Val BuildIndex IndexSpec HeaderSpec DictFacts.
Local Open Scope res_scope.




Section Indexer.
Context `{Runtime}.





Variable yaml : option (string -> option pyval).




End Indexer.
End IndexFacts.

Module Indexing.
Import Py Val BuildIndex IndexSpec HeaderSpec DictFacts IndexFacts.
Local Open Scope res_scope.

Section Indexer.
Context `{Runtime}.


Variable yaml : option (string -> option pyval).



End Indexer.
End Indexing.

Module ScanFacts.
Import Py Val ClassifySpec SplitSpec RoundTripSpec PyFacts SplitFacts.





Lemma starts_with_dashes_nondash (c : ascii) (r : chars) :
  Ascii.eqb "-" c = false -> starts_with dashes (c :: r) = false.
Proof.
  intros Hc. unfold starts_with, dashes, chars_of.
  cbn [list_ascii_of_string strip_prefix]. by rewrite Hc.
Qed.

Lemma clear_nondash (x r : chars) :
  Forall (fun c => Ascii.eqb "-" c = false) x -> clear_of x r.
Proof.
  intros Hx k Hk. rewrite drop_app_le by lia.
  apply (Forall_drop _ k) in Hx.
  destruct (drop k x) as [|c w] eqn:E.
  - apply (f_equal length) in E. rewrite length_drop in E. simpl in E. lia.
  - apply Forall_cons in Hx as [Hc _]. simpl. by apply starts_with_dashes_nondash.
Qed.











End ScanFacts.

Module HeaderFacts.
Import Py Val BuildIndex ClassifySpec SplitSpec HeaderSpec RoundTripSpec.
Import PyFacts DictFacts SplitFacts ScanFacts IndexFacts.
Local Open Scope res_scope.
















Section Indexer.
Context `{Runtime}.





End Indexer.

End HeaderFacts.

Module RoundTripFacts.
Import Py Val Categorize ClassifySpec RoundTripSpec.


End RoundTripFacts.

Module RoundTrip.
Import Py Val Categorize BuildIndex ClassifySpec HeaderSpec RoundTripSpec.
Import PyFacts DictFacts IndexFacts HeaderFacts RoundTripFacts.
Local Open Scope res_scope.

Section Program.
Context `{Runtime} `{World}.


End Program.
End RoundTrip.

Module ConcreteRoundTrip.
Import Py Val Categorize BuildIndex ClassifySpec RoundTripSpec Examples.
Local Open Scope res_scope.

Abbreviation rt := Json.runtime.


End ConcreteRoundTrip.

Module LedgerFacts.
Import Py Val Categorize ClassifySpec ProcessSpec CheckpointSpec PreviewSpec MainSpec RunSpec.
Import CategorizeFacts ProcessFacts RunFacts PreviewFacts MainFacts.
Import ListingFacts DiskFacts LoopFacts LoopFacts2.

Section Program.
Context `{Runtime} `{World}.

(** The files listed lie in the source directory and are not marked as
    processed, whatever the limit. *)
Lemma listed_unprocessed (limit : option Z) (s : St) :
  Forall (fun f => exists name, f = source_dir ++ [name] /\ name ∉ processed_files s)
    (listed limit s).
Proof.
  unfold listed, get_files_to_process. cbn [fst].
  set (names := filter (fun name => name ∉ processed_files s)
                  (sort_by String.leb (glob_md (files s)))).
  assert (Hsub : forall name,
             name ∈ match limit with
                    | Some n => if (n =? 0)%Z then names else take_limit n names
                    | None => names
                    end -> name ∈ names).
  { intros name. destruct limit as [n |]; [| done].
    destruct (n =? 0)%Z; [done |].
    destruct (take_limit_prefix n names) as [k Hk]. rewrite Hk at 2.
    intros Hn. apply elem_of_app. by left. }
  apply Forall_forall. intros f Hf.
  apply list_elem_of_fmap in Hf as (name & -> & Hn).
  apply Hsub, list_elem_of_filter in Hn as [Hn _]. by exists name.
Qed.

(** A state kept by the steps of the loop is the state at the end of
    [main], however the run ends. *)
Lemma main_invariant (P : path -> Prop) (I : St -> Prop) (dry_run : bool)
    (limit : option Z) (resume : bool) (s : St) :
  let s0 := if resume then start_state s else set_processed_files ∅ (start_state s) in
  Forall P (listed limit s0) ->
  (forall filepath s1, P filepath -> I s1 -> I (process_file dry_run filepath s1).2) ->
  (forall s1 s2,
     files s2 = files s1 -> results s2 = results s1 ->
     processed_files s2 = processed_files s1 -> I s1 -> I s2) ->
  I s0 -> I (main dry_run limit resume s).2.
Proof.
  intros s0 Hl Hp Hf I0. rewrite main_eq. fold s0.
  destruct (loop_and_save_cases dry_run limit s0) as [[_ ->] | [_ ->]]; [exact I0 |].
  assert (Hloop : I (run_loop dry_run (length (listed limit s0)) 1 (listed limit s0) s0).2).
  { apply (run_loop_invariant_on P I); [exact Hp | | exact Hl | exact I0].
    intros total i s1 Hs1.
    destruct (after_file_fields dry_run total i s1) as (s2 & -> & F & R & _ & Pr).
    by apply (Hf s1 s2). }
  destruct (run_loop _ _ _ _ _) as [[[]|e'] s1]; [| exact Hloop].
  rewrite _save_checkpoint_eq. by apply (Hf s1).
Qed.

End Program.
End LedgerFacts.

Module Ledger.
Import Py Val Categorize ClassifySpec ProcessSpec CheckpointSpec PreviewSpec MainSpec RunSpec.
Import CategorizeFacts ProcessFacts RunFacts PreviewFacts MainFacts.
Import ListingFacts DiskFacts LoopFacts LoopFacts2 LedgerFacts.

Section Program.
Context `{Runtime} `{World}.

(** X22 (run, get_files_to_process).  A run with [--resume] leaves a
    document whose name is in the checkpoint alone: it is not listed, so
    it is not classified again, and the file in the source directory is
    as it was (or absent as it was) when the run ends, however it
    ends. *)
Theorem checkpointed_documents_are_left_alone (dry_run : bool) (limit : option Z)
    (s : St) (name : string) :
  name ∈ checkpoint_ids s ->
  ((source_dir ++ [name]) ∉ listed limit (start_state s))
  /\ files (main dry_run limit true s).2 !! (source_dir ++ [name])
     = files s !! (source_dir ++ [name]).
Proof.
  intros Hn.
  assert (Hl : Forall (fun f => (exists n, f = source_dir ++ [n])
                                /\ f <> source_dir ++ [name])
                 (listed limit (start_state s))).
  { eapply Forall_impl; [apply listed_unprocessed |].
    intros f (n & -> & Hp). split; [by exists n |]. intros [= ->]. by apply Hp. }
  split.
  - intros Hin. rewrite Forall_forall in Hl. by destruct (Hl _ Hin) as [_ Hne].
  - apply (main_invariant
             (fun f => (exists n, f = source_dir ++ [n]) /\ f <> source_dir ++ [name])
             (fun s' => files s' !! (source_dir ++ [name])
                        = files s !! (source_dir ++ [name]))
             dry_run limit true s); [exact Hl | | | done].
    + intros filepath s1 [_ Hne] Hs1.
      destruct (process_file_disk dry_run filepath s1)
        as [[-> _] | [(c & sc & t & _ & _ & ->) | (c & sc & t & _ & _ & _ & ->)]].
      * exact Hs1.
      * by rewrite lookup_insert_ne.
      * rewrite lookup_delete_ne by done. by rewrite lookup_insert_ne.
    + intros s1 s2 F _ _ Hs1. by rewrite F.
Qed.

(** X23 (process_file, run).  In a real run the names marked as
    processed are the names loaded from the checkpoint (none without
    [--resume]) and the names of the results recorded so far: a name is
    added exactly when a result is, however the run ends. *)
Theorem processed_names_are_the_moved_documents (limit : option Z) (resume : bool)
    (s : St) :
  let s' := (main false limit resume s).2 in
  processed_files s'
  = (if resume then checkpoint_ids s else ∅) ∪ list_to_set (map r_file (results s')).
Proof.
  intros s'. subst s'.
  apply (main_invariant (fun _ => True)
           (fun s' => processed_files s'
                      = (if resume then checkpoint_ids s else ∅)
                        ∪ list_to_set (map r_file (results s')))
           false limit resume s).
  - apply Forall_forall. done.
  - intros filepath s1 _ Hs1.
    pose proof (process_file_outcome false filepath s1) as Ho.
    destruct (process_file false filepath s1) as [r s2]. simpl in Ho |- *.
    destruct Ho as [s2 evs _ _ _ R _ P | s2 evs c m Hd _ _ _ _ _ R _ P
                   | s2 evs tail e _ _ _ _ _ R _ P
                   | s2 evs d cat sub orig name target content _ _ _ _ _ _ _ _ _ R _ P];
      try discriminate; rewrite ?R, ?P; try exact Hs1.
    rewrite Hs1, map_app, list_to_set_app_L. simpl.
    apply set_eq. intros x. rewrite !elem_of_union, elem_of_singleton, elem_of_empty.
    tauto.
  - intros s1 s2 _ R P Hs1. by rewrite P, R.
  - destruct resume; simpl.
    + apply set_eq. intros x. rewrite elem_of_union, elem_of_empty. tauto.
    + apply set_eq. intros x. rewrite elem_of_union, elem_of_empty. tauto.
Qed.

(** X24 (process_file, run).  At the end of a real run, however it
    ends, every result of the log carries a classification of the table
    and names, under [output/<category>/<subcategory>/], a file that
    exists. *)
Theorem moved_documents_are_where_the_log_says (limit : option Z) (resume : bool)
    (s : St) :
  let s' := (main false limit resume s).2 in
  Forall (fun r =>
            is_valid_classification (r_classification r) = true
            /\ r_dry_run r = false
            /\ exists category subcategory,
                 r_moved_to r
                 = path_str (target_base ++ [category; subcategory; r_file r])
                 /\ is_Some (files s' !! (target_base ++ [category; subcategory; r_file r])))
         (results s').
Proof.
  intros s'. subst s'.
  apply (main_invariant (fun f => exists n, f = source_dir ++ [n])
           (fun s' =>
              Forall (fun r =>
                        is_valid_classification (r_classification r) = true
                        /\ r_dry_run r = false
                        /\ exists category subcategory,
                             r_moved_to r
                             = path_str (target_base ++ [category; subcategory; r_file r])
                             /\ is_Some (files s' !! (target_base
                                                      ++ [category; subcategory; r_file r])))
                     (results s'))
           false limit resume s).
  - eapply Forall_impl; [apply listed_in_source_dir | done].
  - intros filepath s1 (n & ->) Hs1.
    pose proof (process_file_outcome false (source_dir ++ [n]) s1) as Ho.
    destruct (process_file false (source_dir ++ [n]) s1) as [r s2]. simpl in Ho |- *.
    destruct Ho as [s2 evs _ _ F R _ _ | s2 evs c m Hd _ _ _ _ _ _ _ _
                   | s2 evs tail e _ _ _ _ F R _ _
                   | s2 evs d cat sub orig name target content _ _ _ _ Hv _ _ _ F R _ _];
      try discriminate.
    + by rewrite R, F.
    + rewrite R. eapply Forall_impl; [exact Hs1 |].
      intros r0 (Hv & Hd & c & sc & Hm & Hi). split; [done |]. split; [done |].
      exists c, sc. split; [done |].
      destruct F as [[_ ->] | [[_ ->] | (dir & target & content & _ & ->)]]; try done.
      destruct (decide (target = target_base ++ [c; sc; r_file r0])) as [-> | Hne].
      * rewrite lookup_insert_eq. by eexists.
      * by rewrite lookup_insert_ne.
    + rewrite R. apply Forall_app. split.
      * eapply Forall_impl; [exact Hs1 |].
        intros r0 (Hv0 & Hd & c & sc & Hm & Hi). split; [done |]. split; [done |].
        exists c, sc. split; [done |]. rewrite F.
        rewrite lookup_delete_ne by discriminate.
        destruct (decide (target = target_base ++ [c; sc; r_file r0])) as [-> | Hne].
        -- rewrite lookup_insert_eq. by eexists.
        -- by rewrite lookup_insert_ne.
      * constructor; [| constructor]. simpl. split; [done |]. split; [done |].
        exists cat, sub. split; [done |]. rewrite F.
        rewrite lookup_delete_ne by discriminate.
        subst target. rewrite lookup_insert_eq. by eexists.
  - intros s1 s2 F R _ Hs1. rewrite R. eapply Forall_impl; [exact Hs1 |].
    intros r0 (Hv & Hd & c & sc & Hm & Hi). split; [done |]. split; [done |].
    exists c, sc. by rewrite F.
  - destruct resume; constructor.
Qed.

End Program.
End Ledger.

Module ConcreteRuns.
Import Py Val Categorize ClassifySpec ProcessSpec CheckpointSpec PreviewSpec MainSpec.
Import RunSpec Examples FaultExamples.
Local Open Scope res_scope.

Abbreviation rt := Json.runtime.

Lemma listing_is_the_unprocessed_documents_witness :
  (@None Z = None \/ @None Z = Some 0%Z)
  /\ exists l,
       get_files_to_process None two_docs = (Ok l, two_docs)
       /\ NoDup l
       /\ StronglySorted (fun a b => String.leb (path_name a) (path_name b) = true) l
       /\ forall p,
            p ∈ l <->
            exists name,
              p = source_dir ++ [name]
              /\ is_Some (files two_docs !! p)
              /\ endswith name ".md" = true
              /\ name ∉ processed_files two_docs.
Proof.
  assert (H1 : @None Z = None \/ @None Z = Some 0%Z) by (left; reflexivity).
  split; [exact H1 |].
  exact (Listing.listing_is_the_unprocessed_documents None two_docs H1).
Defined.

Lemma every_listed_document_is_recorded_witness :
  let s' := (@run rt (answering object_text) false None true two_docs).2 in
  @run rt (answering object_text) false None true two_docs = (Ok tt, s')
  /\ logged s' ≡ₚ logged two_docs
                   ++ map path_name (listed None (before_listing true two_docs))
  /\ length (results s') + length (errors s')
     = length (results two_docs) + length (errors two_docs)
       + length (listed None (before_listing true two_docs)).
Proof.
  intros s'.
  assert (H1 : @run rt (answering object_text) false None true two_docs = (Ok tt, s'))
    by (vm_compute; reflexivity).
  split; [exact H1 |].
  exact (@RunOutcome.every_listed_document_is_recorded rt (answering object_text)
           false None true two_docs s' H1).
Defined.

Lemma run_saves_at_the_end_witness :
  let s' := (@run rt (answering object_text) true None false two_docs).2 in
  @run rt (answering object_text) true None false two_docs = (Ok tt, s')
  /\ checkpoint_file s' = Some (checkpoint_of s')
  /\ log_file s' = Some (log_of s').
Proof.
  intros s'.
  assert (H1 : @run rt (answering object_text) true None false two_docs = (Ok tt, s'))
    by (vm_compute; reflexivity).
  split; [exact H1 |].
  destruct (@RunOutcome.run_saves_at_the_end rt (answering object_text)
              true None false two_docs s' H1) as [[Hl _] | (_ & Hc & _ & Hg & _)].
  - vm_compute in Hl. discriminate Hl.
  - split; [exact Hc | exact Hg].
Defined.


Lemma dry_run_without_resume_erases_the_checkpoint_witness :
  checkpoint_file two_docs = Some old_checkpoint
  /\ is_Some (files two_docs !! (source_dir ++ ["a.md"]))
  /\ endswith "a.md" ".md" = true
  /\ checkpoint_file (@main rt (answering object_text) true None false two_docs).2
     = Some {| cp_processed := []; cp_total_processed := 0; cp_last_file := None |}.
Proof.
  assert (H1 : is_Some (files two_docs !! (source_dir ++ ["a.md"])))
    by (vm_compute; eexists; reflexivity).
  assert (H2 : endswith "a.md" ".md" = true) by (vm_compute; reflexivity).
  split; [reflexivity |]. split; [exact H1 |]. split; [exact H2 |].
  exact (@RunOutcome.dry_run_without_resume_erases_the_checkpoint rt
           (answering object_text) None two_docs "a.md" H1 H2 (or_introl eq_refl)).
Defined.

Lemma saved_checkpoint_is_reloaded_witness :
  let s := (@main rt (answering object_text) false None true two_docs).2 in
  let later := mkSt (files s) (checkpoint_file s) (log_file s) 0 [] [] [] ∅ in
  processed_files s = {[ "a.md"; "b.md"; "old.md" ]}
  /\ checkpoint_file later = checkpoint_file (_save_checkpoint s).2
  /\ exists s',
       init later = (Ok tt, s')
       /\ processed_files s' = processed_files s
       /\ results s' = [] /\ errors s' = []
       /\ files s' = files later.
Proof.
  intros s later.
  assert (H1 : checkpoint_file later = checkpoint_file (_save_checkpoint s).2)
    by (vm_compute; reflexivity).
  split; [vm_compute; reflexivity |]. split; [exact H1 |].
  exact (RunOutcome.saved_checkpoint_is_reloaded s later H1).
Defined.

Lemma header_is_added_once_witness :
  let filepath := source_dir ++ ["a.md"] in
  let text := join nl
                [ "---"; "title: " +:+ q "a"; "category: areas";
                  "subcategory: health"; "tags: [" +:+ q "sleep" +:+ "]";
                  "summary: " +:+ q "Notes on sleep";
                  "processed: 2026-01-01"; "---"; ""; "" ] +:+ plain_doc in
  (@add_frontmatter rt (answering object_text) filepath object_value one_plain).1 = Ok text
  /\ startswith text "---" = true
  /\ @add_frontmatter rt (answering object_text)
       ["output"; "areas"; "health"; "a.md"] (PDict [])
       (set_files {[ ["output"; "areas"; "health"; "a.md"] := text ]}
          (on_disk [] None))
     = (Ok text,
        set_files {[ ["output"; "areas"; "health"; "a.md"] := text ]}
          (on_disk [] None)).
Proof.
  intros filepath text.
  assert (H1 : (@add_frontmatter rt (answering object_text) filepath object_value
                  one_plain).1 = Ok text) by (vm_compute; reflexivity).
  split; [exact H1 |].
  destruct (@Prompt.header_is_added_once rt (answering object_text) filepath
              object_value one_plain text H1) as (_ & Hs & Hagain).
  split; [exact Hs |].
  apply Hagain; vm_compute; reflexivity.
Defined.

Lemma checkpointed_documents_are_left_alone_witness :
  "old.md" ∈ checkpoint_ids with_old
  /\ ((source_dir ++ ["old.md"]) ∉ listed None (start_state with_old))
  /\ files (@main rt (answering object_text) false None true with_old).2
       !! (source_dir ++ ["old.md"])
     = Some plain_doc.
Proof.
  assert (H1 : "old.md" ∈ checkpoint_ids with_old)
    by (apply (bool_decide_unpack _); vm_compute; exact I).
  split; [exact H1 |].
  destruct (@Ledger.checkpointed_documents_are_left_alone rt (answering object_text)
              false None with_old "old.md" H1) as [Hl Hf].
  split; [exact Hl |]. rewrite Hf. vm_compute. reflexivity.
Defined.

End ConcreteRuns.

Module ConcreteHubs.
Import Py Val GenerateMoc ClassifySpec MocSpec GroupSpec MocExamples.


Lemma slash_in_a_name_stops_the_generator_witness :
  let bad := {| file := "x.md"; path := "areas/a/b/x.md"; category := "areas";
                subcategory := "a/b"; title := "x"; tags := []; summary := "" |} in
  bad ∈ [note "a.md" []; bad]
  /\ (@main CONFIG "2026-01-01" (fun _ => false) false [note "a.md" []; bad] ∅).1
     = Raise ValueError
  /\ is_Some ((@main CONFIG "2026-01-01" (fun _ => false) false
                 [note "a.md" []; bad] ∅).2 !! "_MOC-index.md").
Proof.
  intros bad.
  assert (H1 : bad ∈ [note "a.md" []; bad]) by (right; left).
  split; [exact H1 |].
  exact (@HubFiles.slash_in_a_name_stops_the_generator CONFIG "2026-01-01" (fun _ => false)
           [note "a.md" []; bad] ∅ bad H1 eq_refl (fun _ => eq_refl)).
Defined.

End ConcreteHubs.

Module ConcreteEntries.
Import Py Val BuildIndex IndexSpec IndexExamples.

Abbreviation rt := Json.runtime.



End ConcreteEntries.
